(** * wow.export: character-customization catalog (src/js/db/DBLogic.js)

    A shallow embedding of [DBLogic.js]: the module-level maps become one
    [Catalog] record, [loadTables] becomes a computation in a small
    state-and-exception monad over that record, and the exported queries
    become computations in the same monad.  JavaScript values are modelled
    as the code uses them: database integers as [Z], [Map] objects and the
    arrays used as maps as [gmap Z _], arrays with holes as
    [list (option _)], [undefined] as [None], a thrown [TypeError] as the
    outcome [Throw TypeError]. *)

From Stdlib Require Import ZArith String Ascii List Lia.
From stdpp Require Import base option list gmap.

Local Open Scope string_scope.
Local Open Scope list_scope.
Local Open Scope Z_scope.

(** ** JavaScript primitives used by the module *)

Module JS.

(** [ToInt32]: the wrap-around of the bitwise operators. *)
Definition toInt32 (z : Z) : Z := (z + 2 ^ 31) mod 2 ^ 32 - 2 ^ 31.

(** [a << b]: both operands wrap to 32 bits, the count is taken modulo 32. *)
Definition shl (a b : Z) : Z := toInt32 (Z.shiftl (toInt32 a) (b mod 32)).

(** [a & b] on 32-bit operands. *)
Definition band (a b : Z) : Z := toInt32 (Z.land (toInt32 a) (toInt32 b)).

(** A JavaScript number that came out of [Number(string)]: the double
    whose value is the integer [z], or [NaN]. *)
Inductive num : Type :=
  | Num (z : Z)
  | NaN.

(** The only exception the module can raise by itself: a property read on
    [undefined]/[null], an iteration of [undefined], or [in] applied to
    [undefined]. *)
Inductive exn : Type :=
  | TypeError.

(** A value that is either the boolean [false] or a proper result; every
    query of the module returns [false] for "unavailable". *)
Inductive orFalse (A : Type) : Type :=
  | JFalse
  | JVal (a : A).
Arguments JFalse {A}.
Arguments JVal {A} a.

(** [THREE.Vector2]. *)
Record Vector2 : Type := mkVector2 { x : Z; y : Z }.

(** *** Decimal strings: [toString], [padStart], [Number] *)

Definition ascii_of_digit (d : Z) : ascii :=
  ascii_of_nat (48 + Z.to_nat d).

Definition digit_of_ascii (c : ascii) : option Z :=
  let n := Z.of_nat (nat_of_ascii c) in
  if (48 <=? n) && (n <=? 57) then Some (n - 48) else None.

(** Decimal digits of a non-negative integer, most significant first,
    pushed in front of [acc]. *)
Fixpoint digits (fuel : nat) (n : Z) (acc : string) : string :=
  match fuel with
  | O => acc
  | S fuel' =>
      let acc' := String (ascii_of_digit (n mod 10)) acc in
      if n / 10 =? 0 then acc' else digits fuel' (n / 10) acc'
  end.

(** [Number.prototype.toString()] on an integer below 10^21 in absolute
    value, as the integers of the database are: the decimal digits, after
    a minus sign for a negative one. *)
Definition toString (z : Z) : string :=
  match z with
  | Z0 => "0"
  | Zpos p => digits (Pos.size_nat p) z ""
  | Zneg p => String "-" (digits (Pos.size_nat p) (- z) "")
  end.

Fixpoint repeat_char (c : ascii) (n : nat) : string :=
  match n with
  | O => ""
  | S n' => String c (repeat_char c n')
  end.

(** [s.padStart(n, c)] for a one-character filler. *)
Definition padStart (n : nat) (c : ascii) (s : string) : string :=
  String.append (repeat_char c (n - String.length s)) s.

Fixpoint parse_digits (acc : Z) (s : string) : option Z :=
  match s with
  | EmptyString => Some acc
  | String c s' =>
      match digit_of_ascii c with
      | Some d => parse_digits (10 * acc + d) s'
      | None => None
      end
  end.

(** The value of the double nearest to the integer [n].  An integer of
    absolute value at most 2^53 is a double.  Beyond, a double keeps the 53
    leading bits: with [e] the number of bits dropped, [n] is rounded to
    the nearest multiple of [2^e], a tie going to the even significand.
    (No overflow to [Infinity] below 2^1024, far above what the decimal
    strings of the module read as.) *)
Definition roundDouble (n : Z) : Z :=
  let a := Z.abs n in
  if a <=? 2 ^ 53 then n
  else
    let e := Z.log2 a - 52 in
    let q := a / 2 ^ e in
    let r := a mod 2 ^ e in
    let half := 2 ^ (e - 1) in
    let q' := if r <? half then q
              else if half <? r then q + 1
              else if Z.even q then q else q + 1 in
    Z.sgn n * (q' * 2 ^ e).

(** [Number(s)] on the strings the module builds, which hold decimal
    digits and minus signs only: the empty string is 0, an optional minus
    sign followed by at least one digit and nothing else is the double
    nearest to that integer, anything else is [NaN].  (The numerals the
    module builds from two 32-bit columns have at most 20 significant
    digits, which [Number] reads exactly before rounding.) *)
Definition Number (s : string) : num :=
  match s with
  | EmptyString => Num 0
  | String "-" EmptyString => NaN
  | String "-" s' =>
      match parse_digits 0 s' with
      | Some n => Num (roundDouble (- n))
      | None => NaN
      end
  | _ =>
      match parse_digits 0 s with
      | Some n => Num (roundDouble n)
      | None => NaN
      end
  end.

End JS.

(** ** Rows of the client database tables

    One record per schema, with the columns [DBLogic.js] reads.  The
    ChrModelTextureLayer schema is in the repository
    (src/js/db/schema/ChrModelTextureLayer.js) and is given in full; its
    two-element arrays are pairs. *)

Module DB_CreatureDisplayInfoGeosetData.
Record row : Type := {
  CreatureDisplayInfoID : Z;
  GeosetIndex : Z;
  GeosetValue : Z
}.
End DB_CreatureDisplayInfoGeosetData.

Module DB_CreatureDisplayInfo.
Record row : Type := {
  ModelID : Z;
  TextureVariationFileDataID : list Z
}.
End DB_CreatureDisplayInfo.

Module DB_CreatureModelData.
Record row : Type := {
  FileDataID : Z;
  CreatureGeosetDataID : Z
}.
End DB_CreatureModelData.

Module DB_TextureFileData.
Record row : Type := {
  UsageType : Z;
  MaterialResourcesID : Z
}.
End DB_TextureFileData.

Module DB_ChrModel.
Record row : Type := {
  DisplayID : Z;
  CharComponentTextureLayoutID : Z
}.
End DB_ChrModel.

Module DB_ChrCustomizationOption.
Record row : Type := {
  ChrModelID : Z;
  Name_lang : string
}.
End DB_ChrCustomizationOption.

Module DB_ChrCustomizationChoice.
Record row : Type := {
  ChrCustomizationOptionID : Z;
  Name_lang : string;
  OrderIndex : Z
}.
End DB_ChrCustomizationChoice.

Module DB_ChrCustomizationElement.
Record row : Type := {
  ChrCustomizationChoiceID : Z;
  RelatedChrCustomizationChoiceID : Z;
  ChrCustomizationGeosetID : Z;
  ChrCustomizationMaterialID : Z
}.
End DB_ChrCustomizationElement.

Module DB_ChrCustomizationMaterial.
Record row : Type := {
  ID : Z;
  ChrModelTextureTargetID : Z;
  MaterialResourcesID : Z
}.
End DB_ChrCustomizationMaterial.

Module DB_ChrCustomizationGeoset.
Record row : Type := {
  GeosetType : Z;
  GeosetID : Z
}.
End DB_ChrCustomizationGeoset.

Module DB_ChrModelTextureLayer.
Record row : Type := {
  ID : Z;
  TextureType : Z;
  Layer : Z;
  Flags : Z;
  Field_9_0_1_34365_004 : Z;
  TextureSectionTypeBitMask : Z;
  Field_9_0_1_34365_006 : Z * Z;
  ChrModelTextureTargetID : Z * Z;
  CharComponentTextureLayoutsID : Z
}.
End DB_ChrModelTextureLayer.

Module DB_CharComponentTextureSections.
Record row : Type := {
  CharComponentTextureLayoutID : Z;
  SectionType : Z;
  X : Z;
  Y : Z;
  Width : Z;
  Height : Z
}.
End DB_CharComponentTextureSections.

(** Modelled from the spec: [WDCReader] (src/js/db/WDCReader.js is not part
    of the sources).  A parsed table is the "ordered, keyed collection of
    typed rows" of the spec: the rows in iteration order, each with its row
    id.  [getAllRows] iterates that collection; [getRow] finds a row by id
    and yields nothing ([None]) when there is none. *)
Module WDCReader.
Definition t (Row : Type) : Type := list (Z * Row).

Definition getAllRows {Row} (r : t Row) : list (Z * Row) := r.

Fixpoint getRow {Row} (r : t Row) (recordID : Z) : option Row :=
  match r with
  | [] => None
  | (k, v) :: r' => if k =? recordID then Some v else getRow r' recordID
  end.
End WDCReader.

(** The tables [loadTables] parses, in the order it parses them. *)
Record Tables : Type := {
  creatureDisplayInfoGeosetData : WDCReader.t DB_CreatureDisplayInfoGeosetData.row;
  creatureDisplayInfo : WDCReader.t DB_CreatureDisplayInfo.row;
  creatureModelData : WDCReader.t DB_CreatureModelData.row;
  textureFileData : WDCReader.t DB_TextureFileData.row;
  chrModel : WDCReader.t DB_ChrModel.row;
  chrCustomizationOption : WDCReader.t DB_ChrCustomizationOption.row;
  chrCustomizationChoice : WDCReader.t DB_ChrCustomizationChoice.row;
  chrCustomizationMaterial : WDCReader.t DB_ChrCustomizationMaterial.row;
  chrCustomizationElement : WDCReader.t DB_ChrCustomizationElement.row;
  chrCustomizationGeoset : WDCReader.t DB_ChrCustomizationGeoset.row;
  chrModelTextureLayer : WDCReader.t DB_ChrModelTextureLayer.row;
  charComponentTextureSections : WDCReader.t DB_CharComponentTextureSections.row
}.

(** What [loadTables] reads from its surroundings: the configuration flag
    [core.view.config.enableCharacterCustomization] and the result of
    [listfile.getByFilename('DBFilesClient/ChrModel.db2')], a file id or
    [undefined]. *)
Record Env : Type := {
  enableCharacterCustomization : bool;
  listfile_ChrModel_db2 : option Z
}.

(** ** Objects the module builds *)

(** An entry of [creatureDisplays]; [extraGeosets] is only set for models
    with [CreatureGeosetDataID > 0]. *)
Module Display.
Record t : Type := {
  ID : Z;
  modelID : Z;
  textures : list Z;
  extraGeosets : option (list Z)
}.
End Display.

(** [{ id, name }] in [optionsByChrModel]. *)
Module OptionEntry.
Record t : Type := { id : Z; name : string }.
End OptionEntry.

(** [{ id, label }] in [optionToChoices]. *)
Module ChoiceEntry.
Record t : Type := { id : Z; label : string }.
End ChoiceEntry.

(** The flattened material record stored in [chrCustMatMap]. *)
Module ChrCustMat.
Record t : Type := {
  ChrModelTextureTargetID : Z;
  MaterialResourcesID : Z
}.
End ChrCustMat.

(** An element of the array [getSkinMaterialsForChoice] returns;
    [FileDataID] is [matResIDToFileDataID.get(...)], maybe [undefined]. *)
Module SkinMat.
Record t : Type := {
  TextureType : Z;
  FileDataID : option Z;
  size : JS.Vector2;
  position : JS.Vector2
}.
End SkinMat.

(** The object [getTextureForFileDataIDAndChoice] returns. *)
Module TextureInfo.
Record t : Type := {
  TextureType : Z;
  FileDataID : Z;
  TextureSectionTypeBitMask : Z
}.
End TextureInfo.

(** A JavaScript array with holes, as [for ... of] sees it: the elements
    at the indices below its length, [None] for a hole. *)
Definition SparseArray (A : Type) : Type := list (option A).

(** [arr[i] = v].  An index at or beyond the length extends the array with
    holes.  An [i] below 0 or above 2^32 - 2 is not an array index:
    JavaScript stores an ordinary property, which no iteration visits, and
    this module reads these arrays by iteration only, so the elements stay
    as they are. *)
Definition array_set {A} (arr : SparseArray A) (i : Z) (v : A) : SparseArray A :=
  if (i <? 0) || (2 ^ 32 - 2 <? i) then arr
  else
    let n := Z.to_nat i in
    if (n <? length arr)%nat then <[n := Some v]> arr
    else arr ++ replicate (n - length arr) None ++ [Some v].

(** ** The module-level state *)

Record Catalog : Type := {
  choiceToChrCustMaterialID : gmap Z (list DB_ChrCustomizationElement.row);
  chrModelIDToTextureLayoutID : gmap Z Z;
  matResIDToFileDataID : gmap Z Z;
  creatureDisplays : gmap Z (list Display.t);
  fdidToChrModel : gmap Z Z;
  optionToChoices : gmap Z (list ChoiceEntry.t);
  optionsByChrModel : gmap Z (list OptionEntry.t);
  choiceToGeoset : gmap Z Z;
  geosetMap : gmap Z JS.num;
  chrCustMatMap : gmap Z ChrCustMat.t;
  chrModelTexLayer : gmap Z (gmap Z DB_ChrModelTextureLayer.row);
  charComponentTextureSectionMap :
    gmap Z (SparseArray DB_CharComponentTextureSections.row);
  chrCustomizationAvailable : bool
}.

(** The state when the module is first required: every map empty,
    [chrCustomizationAvailable = false].  (The module-level
    [creatureGeosetMap] is shadowed inside [loadTables] and never used, so
    it has no field.) *)
Definition initial : Catalog := {|
  choiceToChrCustMaterialID := ∅;
  chrModelIDToTextureLayoutID := ∅;
  matResIDToFileDataID := ∅;
  creatureDisplays := ∅;
  fdidToChrModel := ∅;
  optionToChoices := ∅;
  optionsByChrModel := ∅;
  choiceToGeoset := ∅;
  geosetMap := ∅;
  chrCustMatMap := ∅;
  chrModelTexLayer := ∅;
  charComponentTextureSectionMap := ∅;
  chrCustomizationAvailable := false
|}.

(** One updater per module-level variable: [set_v f] replaces [v] by
    [f v] and leaves the other variables alone. *)
Definition set_choiceToChrCustMaterialID (f : gmap Z (list DB_ChrCustomizationElement.row) → gmap Z (list DB_ChrCustomizationElement.row))
    (s : Catalog) : Catalog := {|
  choiceToChrCustMaterialID := f (choiceToChrCustMaterialID s);
  chrModelIDToTextureLayoutID := chrModelIDToTextureLayoutID s;
  matResIDToFileDataID := matResIDToFileDataID s;
  creatureDisplays := creatureDisplays s;
  fdidToChrModel := fdidToChrModel s;
  optionToChoices := optionToChoices s;
  optionsByChrModel := optionsByChrModel s;
  choiceToGeoset := choiceToGeoset s;
  geosetMap := geosetMap s;
  chrCustMatMap := chrCustMatMap s;
  chrModelTexLayer := chrModelTexLayer s;
  charComponentTextureSectionMap := charComponentTextureSectionMap s;
  chrCustomizationAvailable := chrCustomizationAvailable s
|}.

Definition set_chrModelIDToTextureLayoutID (f : gmap Z Z → gmap Z Z)
    (s : Catalog) : Catalog := {|
  choiceToChrCustMaterialID := choiceToChrCustMaterialID s;
  chrModelIDToTextureLayoutID := f (chrModelIDToTextureLayoutID s);
  matResIDToFileDataID := matResIDToFileDataID s;
  creatureDisplays := creatureDisplays s;
  fdidToChrModel := fdidToChrModel s;
  optionToChoices := optionToChoices s;
  optionsByChrModel := optionsByChrModel s;
  choiceToGeoset := choiceToGeoset s;
  geosetMap := geosetMap s;
  chrCustMatMap := chrCustMatMap s;
  chrModelTexLayer := chrModelTexLayer s;
  charComponentTextureSectionMap := charComponentTextureSectionMap s;
  chrCustomizationAvailable := chrCustomizationAvailable s
|}.

Definition set_matResIDToFileDataID (f : gmap Z Z → gmap Z Z)
    (s : Catalog) : Catalog := {|
  choiceToChrCustMaterialID := choiceToChrCustMaterialID s;
  chrModelIDToTextureLayoutID := chrModelIDToTextureLayoutID s;
  matResIDToFileDataID := f (matResIDToFileDataID s);
  creatureDisplays := creatureDisplays s;
  fdidToChrModel := fdidToChrModel s;
  optionToChoices := optionToChoices s;
  optionsByChrModel := optionsByChrModel s;
  choiceToGeoset := choiceToGeoset s;
  geosetMap := geosetMap s;
  chrCustMatMap := chrCustMatMap s;
  chrModelTexLayer := chrModelTexLayer s;
  charComponentTextureSectionMap := charComponentTextureSectionMap s;
  chrCustomizationAvailable := chrCustomizationAvailable s
|}.

Definition set_creatureDisplays (f : gmap Z (list Display.t) → gmap Z (list Display.t))
    (s : Catalog) : Catalog := {|
  choiceToChrCustMaterialID := choiceToChrCustMaterialID s;
  chrModelIDToTextureLayoutID := chrModelIDToTextureLayoutID s;
  matResIDToFileDataID := matResIDToFileDataID s;
  creatureDisplays := f (creatureDisplays s);
  fdidToChrModel := fdidToChrModel s;
  optionToChoices := optionToChoices s;
  optionsByChrModel := optionsByChrModel s;
  choiceToGeoset := choiceToGeoset s;
  geosetMap := geosetMap s;
  chrCustMatMap := chrCustMatMap s;
  chrModelTexLayer := chrModelTexLayer s;
  charComponentTextureSectionMap := charComponentTextureSectionMap s;
  chrCustomizationAvailable := chrCustomizationAvailable s
|}.

Definition set_fdidToChrModel (f : gmap Z Z → gmap Z Z)
    (s : Catalog) : Catalog := {|
  choiceToChrCustMaterialID := choiceToChrCustMaterialID s;
  chrModelIDToTextureLayoutID := chrModelIDToTextureLayoutID s;
  matResIDToFileDataID := matResIDToFileDataID s;
  creatureDisplays := creatureDisplays s;
  fdidToChrModel := f (fdidToChrModel s);
  optionToChoices := optionToChoices s;
  optionsByChrModel := optionsByChrModel s;
  choiceToGeoset := choiceToGeoset s;
  geosetMap := geosetMap s;
  chrCustMatMap := chrCustMatMap s;
  chrModelTexLayer := chrModelTexLayer s;
  charComponentTextureSectionMap := charComponentTextureSectionMap s;
  chrCustomizationAvailable := chrCustomizationAvailable s
|}.

Definition set_optionToChoices (f : gmap Z (list ChoiceEntry.t) → gmap Z (list ChoiceEntry.t))
    (s : Catalog) : Catalog := {|
  choiceToChrCustMaterialID := choiceToChrCustMaterialID s;
  chrModelIDToTextureLayoutID := chrModelIDToTextureLayoutID s;
  matResIDToFileDataID := matResIDToFileDataID s;
  creatureDisplays := creatureDisplays s;
  fdidToChrModel := fdidToChrModel s;
  optionToChoices := f (optionToChoices s);
  optionsByChrModel := optionsByChrModel s;
  choiceToGeoset := choiceToGeoset s;
  geosetMap := geosetMap s;
  chrCustMatMap := chrCustMatMap s;
  chrModelTexLayer := chrModelTexLayer s;
  charComponentTextureSectionMap := charComponentTextureSectionMap s;
  chrCustomizationAvailable := chrCustomizationAvailable s
|}.

Definition set_optionsByChrModel (f : gmap Z (list OptionEntry.t) → gmap Z (list OptionEntry.t))
    (s : Catalog) : Catalog := {|
  choiceToChrCustMaterialID := choiceToChrCustMaterialID s;
  chrModelIDToTextureLayoutID := chrModelIDToTextureLayoutID s;
  matResIDToFileDataID := matResIDToFileDataID s;
  creatureDisplays := creatureDisplays s;
  fdidToChrModel := fdidToChrModel s;
  optionToChoices := optionToChoices s;
  optionsByChrModel := f (optionsByChrModel s);
  choiceToGeoset := choiceToGeoset s;
  geosetMap := geosetMap s;
  chrCustMatMap := chrCustMatMap s;
  chrModelTexLayer := chrModelTexLayer s;
  charComponentTextureSectionMap := charComponentTextureSectionMap s;
  chrCustomizationAvailable := chrCustomizationAvailable s
|}.

Definition set_choiceToGeoset (f : gmap Z Z → gmap Z Z)
    (s : Catalog) : Catalog := {|
  choiceToChrCustMaterialID := choiceToChrCustMaterialID s;
  chrModelIDToTextureLayoutID := chrModelIDToTextureLayoutID s;
  matResIDToFileDataID := matResIDToFileDataID s;
  creatureDisplays := creatureDisplays s;
  fdidToChrModel := fdidToChrModel s;
  optionToChoices := optionToChoices s;
  optionsByChrModel := optionsByChrModel s;
  choiceToGeoset := f (choiceToGeoset s);
  geosetMap := geosetMap s;
  chrCustMatMap := chrCustMatMap s;
  chrModelTexLayer := chrModelTexLayer s;
  charComponentTextureSectionMap := charComponentTextureSectionMap s;
  chrCustomizationAvailable := chrCustomizationAvailable s
|}.

Definition set_geosetMap (f : gmap Z JS.num → gmap Z JS.num)
    (s : Catalog) : Catalog := {|
  choiceToChrCustMaterialID := choiceToChrCustMaterialID s;
  chrModelIDToTextureLayoutID := chrModelIDToTextureLayoutID s;
  matResIDToFileDataID := matResIDToFileDataID s;
  creatureDisplays := creatureDisplays s;
  fdidToChrModel := fdidToChrModel s;
  optionToChoices := optionToChoices s;
  optionsByChrModel := optionsByChrModel s;
  choiceToGeoset := choiceToGeoset s;
  geosetMap := f (geosetMap s);
  chrCustMatMap := chrCustMatMap s;
  chrModelTexLayer := chrModelTexLayer s;
  charComponentTextureSectionMap := charComponentTextureSectionMap s;
  chrCustomizationAvailable := chrCustomizationAvailable s
|}.

Definition set_chrCustMatMap (f : gmap Z ChrCustMat.t → gmap Z ChrCustMat.t)
    (s : Catalog) : Catalog := {|
  choiceToChrCustMaterialID := choiceToChrCustMaterialID s;
  chrModelIDToTextureLayoutID := chrModelIDToTextureLayoutID s;
  matResIDToFileDataID := matResIDToFileDataID s;
  creatureDisplays := creatureDisplays s;
  fdidToChrModel := fdidToChrModel s;
  optionToChoices := optionToChoices s;
  optionsByChrModel := optionsByChrModel s;
  choiceToGeoset := choiceToGeoset s;
  geosetMap := geosetMap s;
  chrCustMatMap := f (chrCustMatMap s);
  chrModelTexLayer := chrModelTexLayer s;
  charComponentTextureSectionMap := charComponentTextureSectionMap s;
  chrCustomizationAvailable := chrCustomizationAvailable s
|}.

Definition set_chrModelTexLayer (f : gmap Z (gmap Z DB_ChrModelTextureLayer.row) → gmap Z (gmap Z DB_ChrModelTextureLayer.row))
    (s : Catalog) : Catalog := {|
  choiceToChrCustMaterialID := choiceToChrCustMaterialID s;
  chrModelIDToTextureLayoutID := chrModelIDToTextureLayoutID s;
  matResIDToFileDataID := matResIDToFileDataID s;
  creatureDisplays := creatureDisplays s;
  fdidToChrModel := fdidToChrModel s;
  optionToChoices := optionToChoices s;
  optionsByChrModel := optionsByChrModel s;
  choiceToGeoset := choiceToGeoset s;
  geosetMap := geosetMap s;
  chrCustMatMap := chrCustMatMap s;
  chrModelTexLayer := f (chrModelTexLayer s);
  charComponentTextureSectionMap := charComponentTextureSectionMap s;
  chrCustomizationAvailable := chrCustomizationAvailable s
|}.

Definition set_charComponentTextureSectionMap (f : gmap Z (SparseArray DB_CharComponentTextureSections.row) → gmap Z (SparseArray DB_CharComponentTextureSections.row))
    (s : Catalog) : Catalog := {|
  choiceToChrCustMaterialID := choiceToChrCustMaterialID s;
  chrModelIDToTextureLayoutID := chrModelIDToTextureLayoutID s;
  matResIDToFileDataID := matResIDToFileDataID s;
  creatureDisplays := creatureDisplays s;
  fdidToChrModel := fdidToChrModel s;
  optionToChoices := optionToChoices s;
  optionsByChrModel := optionsByChrModel s;
  choiceToGeoset := choiceToGeoset s;
  geosetMap := geosetMap s;
  chrCustMatMap := chrCustMatMap s;
  chrModelTexLayer := chrModelTexLayer s;
  charComponentTextureSectionMap := f (charComponentTextureSectionMap s);
  chrCustomizationAvailable := chrCustomizationAvailable s
|}.

Definition set_chrCustomizationAvailable (f : bool → bool)
    (s : Catalog) : Catalog := {|
  choiceToChrCustMaterialID := choiceToChrCustMaterialID s;
  chrModelIDToTextureLayoutID := chrModelIDToTextureLayoutID s;
  matResIDToFileDataID := matResIDToFileDataID s;
  creatureDisplays := creatureDisplays s;
  fdidToChrModel := fdidToChrModel s;
  optionToChoices := optionToChoices s;
  optionsByChrModel := optionsByChrModel s;
  choiceToGeoset := choiceToGeoset s;
  geosetMap := geosetMap s;
  chrCustMatMap := chrCustMatMap s;
  chrModelTexLayer := chrModelTexLayer s;
  charComponentTextureSectionMap := charComponentTextureSectionMap s;
  chrCustomizationAvailable := f (chrCustomizationAvailable s)
|}.

(** ** The state-and-exception monad

    A computation takes the module state and returns the state it leaves
    together with either a value or the exception thrown. *)

Inductive outcome (A : Type) : Type :=
  | Ret (a : A)
  | Throw (e : JS.exn).
Arguments Ret {A} a.
Arguments Throw {A} e.

Definition M (A : Type) : Type := Catalog → outcome A * Catalog.

#[global] Instance M_ret : MRet M := λ A a s, (Ret a, s).

#[global] Instance M_bind : MBind M := λ A B f m s,
  match m s with
  | (Ret a, s') => f a s'
  | (Throw e, s') => (Throw e, s')
  end.

Definition gets {A} (f : Catalog → A) : M A := λ s, (Ret (f s), s).

Definition modify (f : Catalog → Catalog) : M unit := λ s, (Ret tt, f s).

Definition throw {A} (e : JS.exn) : M A := λ s, (Throw e, s).

(** [for (const a of l) body(a)]. *)
Fixpoint forEach {A} (l : list A) (body : A → M unit) : M unit :=
  match l with
  | [] => mret tt
  | a :: l' => body a ;; forEach l' body
  end.

(** A loop that updates a local variable [b]. *)
Fixpoint foldM {A B} (body : B → A → M B) (l : list A) (b : B) : M B :=
  match l with
  | [] => mret b
  | a :: l' => b' ← body b a; foldM body l' b'
  end.

(** The idiom [if (!m.has(k)) m.set(k, []); m.get(k).push(v)] (also written
    [if (m.has(k)) m.get(k).push(v) else m.set(k, [v])]). *)
Definition map_push {A} (k : Z) (v : A) (m : gmap Z (list A)) : gmap Z (list A) :=
  <[k := default [] (m !! k) ++ [v]]> m.

(** Truthiness of a number-or-undefined. *)
Definition truthy (o : option Z) : bool :=
  match o with
  | Some n => negb (n =? 0)
  | None => false
  end.

(** ** [loadTables] (DBLogic.js, lines 47-227)

    The tables are given parsed ([await reader.parse()] has returned for
    each); [log.write] is not modelled.  The function is one body in the
    source; it is cut here at its top-level loops. *)

(** Lines 50-61: the local [creatureGeosetMap]. *)
Definition build_creatureGeosetMap (T : Tables) : gmap Z (list Z) :=
  foldl (λ m geosetRow,
           map_push (DB_CreatureDisplayInfoGeosetData.CreatureDisplayInfoID geosetRow)
             ((DB_CreatureDisplayInfoGeosetData.GeosetIndex geosetRow + 1) * 100
              + DB_CreatureDisplayInfoGeosetData.GeosetValue geosetRow) m)
        ∅ (map snd (WDCReader.getAllRows (creatureDisplayInfoGeosetData T))).

(** Lines 66-76: the locals [creatureDisplayInfoMap] and
    [modelIDToDisplayInfoMap]. *)
Definition build_displayInfoMaps (T : Tables)
    : gmap Z Display.t * gmap Z (list Z) :=
  foldl (λ acc r,
           let '(displayID, displayRow) := r in
           (<[displayID := {|
                Display.ID := displayID;
                Display.modelID := DB_CreatureDisplayInfo.ModelID displayRow;
                Display.textures :=
                  List.filter (λ e, e >? 0)
                    (DB_CreatureDisplayInfo.TextureVariationFileDataID displayRow);
                Display.extraGeosets := None |}]> (fst acc),
            map_push (DB_CreatureDisplayInfo.ModelID displayRow) displayID (snd acc)))
        (∅, ∅) (WDCReader.getAllRows (creatureDisplayInfo T)).

(** Lines 82-105.  [creatureDisplayInfoMap.get(displayID)] always finds
    the display, since both local maps were filled by the same loop; each
    display is visited once (row ids are unique), so assigning
    [display.extraGeosets] on the stored object is modelled by value. *)
Definition load_creatureDisplays (T : Tables) : M unit :=
  let creatureGeosetMap := build_creatureGeosetMap T in
  let creatureDisplayInfoMap := fst (build_displayInfoMaps T) in
  let modelIDToDisplayInfoMap := snd (build_displayInfoMaps T) in
  forEach (WDCReader.getAllRows (creatureModelData T)) (λ r,
    let '(modelID, modelRow) := r in
    match modelIDToDisplayInfoMap !! modelID with
    | Some displayIDs =>
        let fileDataID := DB_CreatureModelData.FileDataID modelRow in
        let modelIDHasExtraGeosets :=
          DB_CreatureModelData.CreatureGeosetDataID modelRow >? 0 in
        forEach displayIDs (λ displayID,
          match creatureDisplayInfoMap !! displayID with
          | None => throw JS.TypeError
          | Some display =>
              let display :=
                if modelIDHasExtraGeosets then {|
                  Display.ID := Display.ID display;
                  Display.modelID := Display.modelID display;
                  Display.textures := Display.textures display;
                  Display.extraGeosets :=
                    Some (default [] (creatureGeosetMap !! displayID)) |}
                else display in
              modify (set_creatureDisplays (map_push fileDataID display))
          end)
    | None => mret tt
    end).

(** Lines 113-120. *)
Definition load_textureFileData (T : Tables) : M unit :=
  forEach (WDCReader.getAllRows (textureFileData T)) (λ r,
    let '(textureFileDataID, textureFileDataRow) := r in
    if negb (DB_TextureFileData.UsageType textureFileDataRow =? 0) then mret tt
    else
      modify (set_matResIDToFileDataID
                (<[DB_TextureFileData.MaterialResourcesID textureFileDataRow
                   := textureFileDataID]>))).

(** Lines 146, 154-167: the local [choiceList] of one option. *)
Definition build_choiceList (T : Tables) (chrCustomizationOptionID : Z)
    : list ChoiceEntry.t :=
  foldl (λ choiceList r,
           let '(chrCustomizationChoiceID, chrCustomizationChoiceRow) := r in
           if negb (DB_ChrCustomizationChoice.ChrCustomizationOptionID
                      chrCustomizationChoiceRow =? chrCustomizationOptionID)
           then choiceList
           else
             let name :=
               if negb (String.eqb
                          (DB_ChrCustomizationChoice.Name_lang chrCustomizationChoiceRow) "")
               then DB_ChrCustomizationChoice.Name_lang chrCustomizationChoiceRow
               else String.append "Choice "
                      (JS.toString
                         (DB_ChrCustomizationChoice.OrderIndex chrCustomizationChoiceRow)) in
             choiceList ++ [{| ChoiceEntry.id := chrCustomizationChoiceID;
                               ChoiceEntry.label := name |}])
        [] (WDCReader.getAllRows (chrCustomizationChoice T)).

(** Lines 136-171.  [displayRow.ModelID] and [modelRow.FileDataID] throw
    when [getRow] found no row. *)
Definition load_chrModel (T : Tables) : M unit :=
  forEach (WDCReader.getAllRows (chrModel T)) (λ r,
    let '(chrModelID, chrModelRow) := r in
    match WDCReader.getRow (creatureDisplayInfo T)
            (DB_ChrModel.DisplayID chrModelRow) with
    | None => throw JS.TypeError
    | Some displayRow =>
        match WDCReader.getRow (creatureModelData T)
                (DB_CreatureDisplayInfo.ModelID displayRow) with
        | None => throw JS.TypeError
        | Some modelRow =>
            modify (set_fdidToChrModel
                      (<[DB_CreatureModelData.FileDataID modelRow := chrModelID]>)) ;;
            modify (set_chrModelIDToTextureLayoutID
                      (<[chrModelID
                         := DB_ChrModel.CharComponentTextureLayoutID chrModelRow]>)) ;;
            forEach (WDCReader.getAllRows (chrCustomizationOption T)) (λ o,
              let '(chrCustomizationOptionID, chrCustomizationOptionRow) := o in
              if negb (DB_ChrCustomizationOption.ChrModelID chrCustomizationOptionRow
                       =? chrModelID)
              then mret tt
              else
                modify (set_optionsByChrModel
                          (map_push
                             (DB_ChrCustomizationOption.ChrModelID chrCustomizationOptionRow)
                             {| OptionEntry.id := chrCustomizationOptionID;
                                OptionEntry.name :=
                                  DB_ChrCustomizationOption.Name_lang
                                    chrCustomizationOptionRow |})) ;;
                modify (set_optionToChoices
                          (<[chrCustomizationOptionID
                             := build_choiceList T chrCustomizationOptionID]>)))
        end
    end).

(** Lines 178-192.  [matRow.ID] throws when the material row is missing,
    after the element was appended to the choice's list. *)
Definition load_chrCustomizationElement (T : Tables) : M unit :=
  forEach (WDCReader.getAllRows (chrCustomizationElement T)) (λ r,
    let '(chrCustomizationElementID, chrCustomizationElementRow) := r in
    let choiceID :=
      DB_ChrCustomizationElement.ChrCustomizationChoiceID chrCustomizationElementRow in
    (if negb (DB_ChrCustomizationElement.ChrCustomizationGeosetID
                chrCustomizationElementRow =? 0)
     then modify (set_choiceToGeoset
                    (<[choiceID
                       := DB_ChrCustomizationElement.ChrCustomizationGeosetID
                            chrCustomizationElementRow]>))
     else mret tt) ;;
    if negb (DB_ChrCustomizationElement.ChrCustomizationMaterialID
               chrCustomizationElementRow =? 0)
    then
      modify (set_choiceToChrCustMaterialID
                (map_push choiceID chrCustomizationElementRow)) ;;
      match WDCReader.getRow (chrCustomizationMaterial T)
              (DB_ChrCustomizationElement.ChrCustomizationMaterialID
                 chrCustomizationElementRow) with
      | None => throw JS.TypeError
      | Some matRow =>
          modify (set_chrCustMatMap
                    (<[DB_ChrCustomizationMaterial.ID matRow := {|
                         ChrCustMat.ChrModelTextureTargetID :=
                           DB_ChrCustomizationMaterial.ChrModelTextureTargetID matRow;
                         ChrCustMat.MaterialResourcesID :=
                           DB_ChrCustomizationMaterial.MaterialResourcesID matRow |}]>))
      end
    else mret tt).

(** Line 198 and the [Number(geoset)] of line 200. *)
Definition encodeGeoset (GeosetType GeosetID : Z) : JS.num :=
  JS.Number (String.append (JS.padStart 2 "0" (JS.toString GeosetType))
                           (JS.padStart 2 "0" (JS.toString GeosetID))).

(** Lines 197-201. *)
Definition load_chrCustomizationGeoset (T : Tables) : M unit :=
  forEach (WDCReader.getAllRows (chrCustomizationGeoset T)) (λ r,
    let '(chrCustomizationGeosetID, chrCustomizationGeosetRow) := r in
    modify (set_geosetMap
              (<[chrCustomizationGeosetID
                 := encodeGeoset
                      (DB_ChrCustomizationGeoset.GeosetType chrCustomizationGeosetRow)
                      (DB_ChrCustomizationGeoset.GeosetID chrCustomizationGeosetRow)]>))).

(** Lines 206-212: [chrModelTexLayer] is an array used as a map from the
    layout id to an array used as a map from the first texture target. *)
Definition load_chrModelTextureLayer (T : Tables) : M unit :=
  forEach (WDCReader.getAllRows (chrModelTextureLayer T)) (λ r,
    let '(chrModelTextureLayerID, chrModelTextureLayerRow) := r in
    let layout :=
      DB_ChrModelTextureLayer.CharComponentTextureLayoutsID chrModelTextureLayerRow in
    modify (set_chrModelTexLayer (λ m,
      <[layout
        := <[fst (DB_ChrModelTextureLayer.ChrModelTextureTargetID chrModelTextureLayerRow)
             := chrModelTextureLayerRow]> (default ∅ (m !! layout))]> m))).

(** Lines 217-223. *)
Definition load_charComponentTextureSections (T : Tables) : M unit :=
  forEach (WDCReader.getAllRows (charComponentTextureSections T)) (λ r,
    let '(charComponentTextureSectionsID, charComponentTextureSectionsRow) := r in
    let layout :=
      DB_CharComponentTextureSections.CharComponentTextureLayoutID
        charComponentTextureSectionsRow in
    modify (set_charComponentTextureSectionMap (λ m,
      <[layout
        := array_set (default [] (m !! layout))
             (DB_CharComponentTextureSections.SectionType charComponentTextureSectionsRow)
             charComponentTextureSectionsRow]> m))).

(** Line 123: the gate of the customization tables. *)
Definition customizationGate (env : Env) : bool :=
  enableCharacterCustomization env && truthy (listfile_ChrModel_db2 env).

Definition loadTables (env : Env) (T : Tables) : M unit :=
  load_creatureDisplays T ;;
  load_textureFileData T ;;
  if customizationGate env then
    modify (set_chrCustomizationAvailable (λ _, true)) ;;
    load_chrModel T ;;
    load_chrCustomizationElement T ;;
    load_chrCustomizationGeoset T ;;
    load_chrModelTextureLayer T ;;
    load_charComponentTextureSections T
  else mret tt.

(** ** The exported queries (DBLogic.js, lines 234-424)

    [console.log] calls are not modelled. *)

(** Lines 261-263.  The argument may be [undefined] (the result of a
    failed [fdidToChrModel.get]); no key of the map is. *)
Definition getChrComponentTextureLayoutIDByChrModelID (chrModelID : option Z)
    : M (option Z) :=
  gets (λ s, chrModelID ≫= λ k, chrModelIDToTextureLayoutID s !! k).

(** Lines 269-271. *)
Definition isCharacterCustomizationAvailable : M bool :=
  gets chrCustomizationAvailable.

(** Lines 293-299.  [JVal None] is the [undefined] of a failed
    [geosetMap.get]. *)
Definition getGeosetForChoice (choiceID : Z) : M (JS.orFalse (option JS.num)) :=
  geoset ← gets (λ s, choiceToGeoset s !! choiceID);
  match geoset with
  | Some geosetID =>
      v ← gets (λ s, geosetMap s !! geosetID);
      mret (JS.JVal v)
  | None => mret JS.JFalse
  end.

(** Lines 350-363: the loop over the sections of the layout for one
    texture layer, updating the local [skinMats]. *)
Definition skinMats_sectionLoop
    (textureLayer : DB_ChrModelTextureLayer.row) (chrCustMatRow : ChrCustMat.t)
    (textureSections : SparseArray DB_CharComponentTextureSections.row)
    (skinMats : gmap Z SkinMat.t) : M (gmap Z SkinMat.t) :=
  foldM (λ skinMats textureSection,
    match textureSection with
    | None => mret skinMats
    | Some textureSection =>
        if DB_ChrModelTextureLayer.TextureSectionTypeBitMask textureLayer =? -1 then
          fileDataID ← gets (λ s, matResIDToFileDataID s
                                    !! ChrCustMat.MaterialResourcesID chrCustMatRow);
          mret (<[DB_ChrModelTextureLayer.Layer textureLayer := {|
                    SkinMat.TextureType := DB_ChrModelTextureLayer.TextureType textureLayer;
                    SkinMat.FileDataID := fileDataID;
                    SkinMat.size := JS.mkVector2 1024 512;
                    SkinMat.position := JS.mkVector2 0 0 |}]> skinMats)
        else if negb (JS.band
                        (DB_ChrModelTextureLayer.TextureSectionTypeBitMask textureLayer)
                        (JS.shl 1 (DB_CharComponentTextureSections.SectionType
                                     textureSection)) =? 0)
        then
          fileDataID ← gets (λ s, matResIDToFileDataID s
                                    !! ChrCustMat.MaterialResourcesID chrCustMatRow);
          mret (<[DB_ChrModelTextureLayer.Layer textureLayer := {|
                    SkinMat.TextureType := DB_ChrModelTextureLayer.TextureType textureLayer;
                    SkinMat.FileDataID := fileDataID;
                    SkinMat.size :=
                      JS.mkVector2 (DB_CharComponentTextureSections.Width textureSection)
                                   (DB_CharComponentTextureSections.Height textureSection);
                    SkinMat.position :=
                      JS.mkVector2 (DB_CharComponentTextureSections.X textureSection)
                                   (DB_CharComponentTextureSections.Y textureSection) |}]>
                  skinMats)
        else mret skinMats
    end) textureSections skinMats.

(** Lines 342-364: the loop over [chrCustMatRows].  An element of
    [chrCustMatRows] is [undefined] when [chrCustMatMap] had no record for
    the material; reading its [ChrModelTextureTargetID] throws, and so does
    indexing [chrModelTexLayer[textureLayout]] when it is [undefined]. *)
Definition skinMats_materialLoop (textureLayout : Z)
    (textureSections : SparseArray DB_CharComponentTextureSections.row)
    (chrCustMatRows : list (option ChrCustMat.t))
    (skinMats : gmap Z SkinMat.t) : M (gmap Z SkinMat.t) :=
  foldM (λ skinMats chrCustMatRow,
    match chrCustMatRow with
    | None => throw JS.TypeError
    | Some chrCustMatRow =>
        let textureTarget := ChrCustMat.ChrModelTextureTargetID chrCustMatRow in
        layers ← gets (λ s, chrModelTexLayer s !! textureLayout);
        match layers with
        | None => throw JS.TypeError
        | Some layers =>
            match layers !! textureTarget with
            | None => mret skinMats
            | Some textureLayer =>
                skinMats_sectionLoop textureLayer chrCustMatRow textureSections skinMats
            end
        end
    end) chrCustMatRows skinMats.

(** Lines 318-368.  The returned array [skinMats] is written by index
    only and is modelled as the map from index to element. *)
Definition getSkinMaterialsForChoice (modelFileDataID choiceID : Z)
    : M (JS.orFalse (gmap Z SkinMat.t)) :=
  chrModelID ← gets (λ s, fdidToChrModel s !! modelFileDataID);
  textureLayout ← getChrComponentTextureLayoutIDByChrModelID chrModelID;
  if negb (truthy textureLayout) then mret JS.JFalse
  else
    let textureLayout := default 0 textureLayout in
    materials ← gets (λ s, choiceToChrCustMaterialID s !! choiceID);
    match materials with
    | None => throw JS.TypeError
    | Some materials =>
        chrCustMatRows ←
          foldM (λ chrCustMatRows material,
                   row ← gets (λ s, chrCustMatMap s
                                      !! DB_ChrCustomizationElement.ChrCustomizationMaterialID
                                           material);
                   mret (chrCustMatRows ++ [row]))
                materials [];
        if (length chrCustMatRows =? 0)%nat then mret JS.JFalse
        else
          textureSections ← gets (λ s, charComponentTextureSectionMap s !! textureLayout);
          match textureSections with
          | None => mret JS.JFalse
          | Some textureSections =>
              skinMats ← skinMats_materialLoop textureLayout textureSections
                           chrCustMatRows ∅;
              mret (JS.JVal skinMats)
          end
    end.

(** Lines 381-392: the local [chrCustMatID] after the two nested
    [forEach] over the current selections and the available choices. *)
Definition select_chrCustMatID (modelViewerChrCustCurrent : list Z)
    (availableChoices : list DB_ChrCustomizationElement.row) : Z :=
  foldl (λ chrCustMatID entry,
           foldl (λ chrCustMatID availableChoice,
                    if DB_ChrCustomizationElement.RelatedChrCustomizationChoiceID
                         availableChoice =? entry
                    then DB_ChrCustomizationElement.ChrCustomizationMaterialID
                           availableChoice
                    else chrCustMatID)
                 chrCustMatID availableChoices)
        0 modelViewerChrCustCurrent.

(** Lines 399-423: the resolution of the chosen material id. *)
Definition texture_of_chrCustMatID (chrModelID : option Z) (chrCustMatID : Z)
    : M (JS.orFalse TextureInfo.t) :=
  chrCustMatRow ← gets (λ s, chrCustMatMap s !! chrCustMatID);
  match chrCustMatRow with
  | None => mret JS.JFalse
  | Some chrCustMatRow =>
      textureLayout ← getChrComponentTextureLayoutIDByChrModelID chrModelID;
      if negb (truthy textureLayout) then mret JS.JFalse
      else
        let textureLayout := default 0 textureLayout in
        let textureTarget := ChrCustMat.ChrModelTextureTargetID chrCustMatRow in
        layers ← gets (λ s, chrModelTexLayer s !! textureLayout);
        match layers with
        | None => throw JS.TypeError
        | Some layers =>
            match layers !! textureTarget with
            | None => mret JS.JFalse
            | Some textureLayer =>
                let textureType := DB_ChrModelTextureLayer.TextureType textureLayer in
                fileDataID ← gets (λ s, matResIDToFileDataID s
                                          !! ChrCustMat.MaterialResourcesID chrCustMatRow);
                match fileDataID with
                | Some fileDataID =>
                    mret (JS.JVal {|
                      TextureInfo.TextureType := textureType;
                      TextureInfo.FileDataID := fileDataID;
                      TextureInfo.TextureSectionTypeBitMask :=
                        DB_ChrModelTextureLayer.TextureSectionTypeBitMask textureLayer |})
                | None => mret JS.JFalse
                end
            end
        end
  end.

(** Lines 374-424.  [modelViewerChrCustCurrent] is the global
    [core.view.modelViewerChrCustCurrent], the choice ids currently
    selected, in the order its [forEach] visits them.
    [availableChoices[0].ChrCustomizationMaterialID] throws on an empty
    array. *)
Definition getTextureForFileDataIDAndChoice (modelViewerChrCustCurrent : list Z)
    (modelFileDataID choiceID : Z) : M (JS.orFalse TextureInfo.t) :=
  chrModelID ← gets (λ s, fdidToChrModel s !! modelFileDataID);
  availableChoices ← gets (λ s, choiceToChrCustMaterialID s !! choiceID);
  match availableChoices with
  | None => mret JS.JFalse
  | Some availableChoices =>
      let chrCustMatID :=
        select_chrCustMatID modelViewerChrCustCurrent availableChoices in
      chrCustMatID ←
        (if chrCustMatID =? 0 then
           match availableChoices with
           | [] => throw JS.TypeError
           | first :: _ =>
               mret (DB_ChrCustomizationElement.ChrCustomizationMaterialID first)
           end
         else mret chrCustMatID);
      texture_of_chrCustMatID chrModelID chrCustMatID
  end.

(** ** States the program can be in *)

(** The states reached from the initial one by running [loadTables] any
    number of times, whether a run returned or threw. *)
Inductive loaded : Catalog → Prop :=
  | loaded_initial : loaded initial
  | loaded_loadTables env T s :
      loaded s → loaded (snd (loadTables env T s)).

(** What [loadTables] keeps true of [choiceToChrCustMaterialID]: a list is
    created with its first element, and only elements with a non-zero
    material id are put in one. *)
Definition choice_lists_ok (s : Catalog) : Prop :=
  ∀ choiceID l, choiceToChrCustMaterialID s !! choiceID = Some l →
    l ≠ [] ∧
    Forall (λ e, DB_ChrCustomizationElement.ChrCustomizationMaterialID e ≠ 0) l.

(** A computation that leaves the module state as it found it. *)
Definition readonly {A} (m : M A) : Prop := ∀ s, snd (m s) = s.

(** A computation that keeps a property of the module state, whatever its
    outcome. *)
Definition preserves {A} (P : Catalog → Prop) (m : M A) : Prop :=
  ∀ s, P s → P (snd (m s)).

(** The customization maps and the flag, all as in the initial state. *)
Definition customization_empty (s : Catalog) : Prop :=
  choiceToChrCustMaterialID s = ∅ ∧ chrModelIDToTextureLayoutID s = ∅ ∧
  fdidToChrModel s = ∅ ∧ optionToChoices s = ∅ ∧ optionsByChrModel s = ∅ ∧
  choiceToGeoset s = ∅ ∧ geosetMap s = ∅ ∧ chrCustMatMap s = ∅ ∧
  chrModelTexLayer s = ∅ ∧ charComponentTextureSectionMap s = ∅ ∧
  chrCustomizationAvailable s = false.

(** ** Notions the properties are stated with *)

(** The material ids of the candidates whose related choice is one of the
    current selections, listed selection by selection and, for one
    selection, in the order of the candidates. *)
Definition related_matches (current : list Z)
    (availableChoices : list DB_ChrCustomizationElement.row) : list Z :=
  flat_map (λ entry,
    map DB_ChrCustomizationElement.ChrCustomizationMaterialID
      (List.filter
         (λ a, DB_ChrCustomizationElement.RelatedChrCustomizationChoiceID a =? entry)
         availableChoices))
    current.

(** "The first match supplies the material id used for resolution", for
    every reachable state and every input. *)
Definition first_match_supplies_material : Prop :=
  ∀ (s : Catalog) (current : list Z) (modelFileDataID choiceID : Z)
    (availableChoices : list DB_ChrCustomizationElement.row) (chrCustMatID : Z),
    loaded s →
    choiceToChrCustMaterialID s !! choiceID = Some availableChoices →
    head (related_matches current availableChoices) = Some chrCustMatID →
    getTextureForFileDataIDAndChoice current modelFileDataID choiceID s
    = texture_of_chrCustMatID (fdidToChrModel s !! modelFileDataID) chrCustMatID s.

(** The elements of an array that are not holes, in index order. *)
Definition defined_elements {A} (arr : SparseArray A) : list A := omap id arr.

(** The entry written for a layer whose bit-mask is -1. *)
Definition default_entry (textureLayer : DB_ChrModelTextureLayer.row)
    (fileDataID : option Z) : SkinMat.t := {|
  SkinMat.TextureType := DB_ChrModelTextureLayer.TextureType textureLayer;
  SkinMat.FileDataID := fileDataID;
  SkinMat.size := JS.mkVector2 1024 512;
  SkinMat.position := JS.mkVector2 0 0
|}.

(** The entry written for a layer at one section: the section's authored
    rectangle. *)
Definition section_entry (textureLayer : DB_ChrModelTextureLayer.row)
    (fileDataID : option Z)
    (textureSection : DB_CharComponentTextureSections.row) : SkinMat.t := {|
  SkinMat.TextureType := DB_ChrModelTextureLayer.TextureType textureLayer;
  SkinMat.FileDataID := fileDataID;
  SkinMat.size :=
    JS.mkVector2 (DB_CharComponentTextureSections.Width textureSection)
                 (DB_CharComponentTextureSections.Height textureSection);
  SkinMat.position :=
    JS.mkVector2 (DB_CharComponentTextureSections.X textureSection)
                 (DB_CharComponentTextureSections.Y textureSection)
|}.

(** The test [mask & (1 << sectionType)]. *)
Definition section_bit_set (mask : Z)
    (textureSection : DB_CharComponentTextureSections.row) : bool :=
  negb (JS.band mask
          (JS.shl 1 (DB_CharComponentTextureSections.SectionType textureSection))
        =? 0).

(** A sequence of writes [skinMats[k] = v], applied in order: a later
    write to an index replaces an earlier one. *)
Definition write_all (writes : list (Z * SkinMat.t)) (skinMats : gmap Z SkinMat.t)
    : gmap Z SkinMat.t :=
  foldl (λ m w, <[fst w := snd w]> m) skinMats writes.

(** The writes of one texture layer, each at the layer's ordinal: for the
    bit-mask -1 one write of the default rectangle, provided the layout
    has a section at all; otherwise one write per section whose bit is set
    in the mask, with that section's rectangle, in the order of the
    sections. *)
Definition layer_writes (fileDataID : option Z)
    (textureLayer : DB_ChrModelTextureLayer.row)
    (textureSections : SparseArray DB_CharComponentTextureSections.row)
    : list (Z * SkinMat.t) :=
  if DB_ChrModelTextureLayer.TextureSectionTypeBitMask textureLayer =? -1 then
    match defined_elements textureSections with
    | [] => []
    | _ :: _ =>
        [(DB_ChrModelTextureLayer.Layer textureLayer,
          default_entry textureLayer fileDataID)]
    end
  else
    map (λ textureSection,
           (DB_ChrModelTextureLayer.Layer textureLayer,
            section_entry textureLayer fileDataID textureSection))
        (List.filter
           (section_bit_set
              (DB_ChrModelTextureLayer.TextureSectionTypeBitMask textureLayer))
           (defined_elements textureSections)).

(** The writes of one material element: those of the layer its material
    resolves to, none when there is no such layer. *)
Definition element_writes (s : Catalog)
    (layers : gmap Z DB_ChrModelTextureLayer.row)
    (textureSections : SparseArray DB_CharComponentTextureSections.row)
    (material : DB_ChrCustomizationElement.row) : list (Z * SkinMat.t) :=
  match chrCustMatMap s
          !! DB_ChrCustomizationElement.ChrCustomizationMaterialID material with
  | None => []
  | Some chrCustMatRow =>
      match layers !! ChrCustMat.ChrModelTextureTargetID chrCustMatRow with
      | None => []
      | Some textureLayer =>
          layer_writes
            (matResIDToFileDataID s !! ChrCustMat.MaterialResourcesID chrCustMatRow)
            textureLayer textureSections
      end
  end.

(** "A layer with bit-mask -1 yields exactly one entry, with the default
    rectangle, however many sections its layout has", for every reachable
    state: the element [material] of the choice resolves to the layer
    [textureLayer] of the model's layout. *)
Definition sentinel_always_one_entry : Prop :=
  ∀ (s : Catalog) (modelFileDataID chrModelID textureLayout choiceID : Z)
    (materials : list DB_ChrCustomizationElement.row)
    (material : DB_ChrCustomizationElement.row)
    (chrCustMatRow : ChrCustMat.t)
    (layers : gmap Z DB_ChrModelTextureLayer.row)
    (textureLayer : DB_ChrModelTextureLayer.row),
    loaded s →
    fdidToChrModel s !! modelFileDataID = Some chrModelID →
    chrModelIDToTextureLayoutID s !! chrModelID = Some textureLayout →
    textureLayout ≠ 0 →
    choiceToChrCustMaterialID s !! choiceID = Some materials →
    material ∈ materials →
    chrCustMatMap s
      !! DB_ChrCustomizationElement.ChrCustomizationMaterialID material
      = Some chrCustMatRow →
    chrModelTexLayer s !! textureLayout = Some layers →
    layers !! ChrCustMat.ChrModelTextureTargetID chrCustMatRow = Some textureLayer →
    DB_ChrModelTextureLayer.TextureSectionTypeBitMask textureLayer = -1 →
    ∃ skinMats,
      getSkinMaterialsForChoice modelFileDataID choiceID s
      = (Ret (JS.JVal skinMats), s) ∧
      skinMats !! DB_ChrModelTextureLayer.Layer textureLayer
      = Some (default_entry textureLayer
                (matResIDToFileDataID s
                   !! ChrCustMat.MaterialResourcesID chrCustMatRow)).

(** The geoset id the element table binds to a choice: that of the last
    element row of the choice whose geoset id is not 0, if there is one. *)
Definition bound_geoset (T : Tables) (choiceID : Z) : option Z :=
  last (map DB_ChrCustomizationElement.ChrCustomizationGeosetID
          (List.filter
             (λ row,
                (DB_ChrCustomizationElement.ChrCustomizationChoiceID row =? choiceID)
                && negb (DB_ChrCustomizationElement.ChrCustomizationGeosetID row =? 0))
             (map snd (WDCReader.getAllRows (chrCustomizationElement T))))).

(** What one iteration of the element loop and of the geoset loop of
    [loadTables] does to [choiceToGeoset] and to [geosetMap]. *)
Definition choiceToGeoset_step (m : gmap Z Z)
    (r : Z * DB_ChrCustomizationElement.row) : gmap Z Z :=
  if negb (DB_ChrCustomizationElement.ChrCustomizationGeosetID (snd r) =? 0)
  then <[DB_ChrCustomizationElement.ChrCustomizationChoiceID (snd r)
         := DB_ChrCustomizationElement.ChrCustomizationGeosetID (snd r)]> m
  else m.

Definition geosetMap_step (m : gmap Z JS.num)
    (r : Z * DB_ChrCustomizationGeoset.row) : gmap Z JS.num :=
  <[fst r := encodeGeoset (DB_ChrCustomizationGeoset.GeosetType (snd r))
               (DB_ChrCustomizationGeoset.GeosetID (snd r))]> m.

(** ** A small data set

    Four character models: model 1 (mesh file 1000) with layout 3, which
    has two layers and three sections; model 2 (mesh file 1001) with
    layout 4, which has no layer and no section; model 3 (mesh file 1002)
    with layout 0, under which a layer and a section are registered;
    model 4 (mesh file 1003) with layout 5, which has a layer and no
    section.  Choice 5 is bound to materials 10 (related choice 7) and 11
    (related choice 9); choices 7 and 9 are bound to geosets only. *)

Definition demo_layer (ID TextureType Layer mask target layout : Z)
    : DB_ChrModelTextureLayer.row := {|
  DB_ChrModelTextureLayer.ID := ID;
  DB_ChrModelTextureLayer.TextureType := TextureType;
  DB_ChrModelTextureLayer.Layer := Layer;
  DB_ChrModelTextureLayer.Flags := 0;
  DB_ChrModelTextureLayer.Field_9_0_1_34365_004 := 0;
  DB_ChrModelTextureLayer.TextureSectionTypeBitMask := mask;
  DB_ChrModelTextureLayer.Field_9_0_1_34365_006 := (0, 0);
  DB_ChrModelTextureLayer.ChrModelTextureTargetID := (target, 0);
  DB_ChrModelTextureLayer.CharComponentTextureLayoutsID := layout
|}.

Definition demo_section (layout SectionType X Y Width Height : Z)
    : DB_CharComponentTextureSections.row := {|
  DB_CharComponentTextureSections.CharComponentTextureLayoutID := layout;
  DB_CharComponentTextureSections.SectionType := SectionType;
  DB_CharComponentTextureSections.X := X;
  DB_CharComponentTextureSections.Y := Y;
  DB_CharComponentTextureSections.Width := Width;
  DB_CharComponentTextureSections.Height := Height
|}.

Definition demo_element (choice related geoset material : Z)
    : DB_ChrCustomizationElement.row := {|
  DB_ChrCustomizationElement.ChrCustomizationChoiceID := choice;
  DB_ChrCustomizationElement.RelatedChrCustomizationChoiceID := related;
  DB_ChrCustomizationElement.ChrCustomizationGeosetID := geoset;
  DB_ChrCustomizationElement.ChrCustomizationMaterialID := material
|}.

Definition demo_tables : Tables := {|
  creatureDisplayInfoGeosetData :=
    [(1, {| DB_CreatureDisplayInfoGeosetData.CreatureDisplayInfoID := 100;
            DB_CreatureDisplayInfoGeosetData.GeosetIndex := 0;
            DB_CreatureDisplayInfoGeosetData.GeosetValue := 2 |})];
  creatureDisplayInfo :=
    [(100, {| DB_CreatureDisplayInfo.ModelID := 50;
              DB_CreatureDisplayInfo.TextureVariationFileDataID := [0; 777] |});
     (101, {| DB_CreatureDisplayInfo.ModelID := 51;
              DB_CreatureDisplayInfo.TextureVariationFileDataID := [] |});
     (102, {| DB_CreatureDisplayInfo.ModelID := 52;
              DB_CreatureDisplayInfo.TextureVariationFileDataID := [] |});
     (103, {| DB_CreatureDisplayInfo.ModelID := 53;
              DB_CreatureDisplayInfo.TextureVariationFileDataID := [] |})];
  creatureModelData :=
    [(50, {| DB_CreatureModelData.FileDataID := 1000;
             DB_CreatureModelData.CreatureGeosetDataID := 1 |});
     (51, {| DB_CreatureModelData.FileDataID := 1001;
             DB_CreatureModelData.CreatureGeosetDataID := 0 |});
     (52, {| DB_CreatureModelData.FileDataID := 1002;
             DB_CreatureModelData.CreatureGeosetDataID := 0 |});
     (53, {| DB_CreatureModelData.FileDataID := 1003;
             DB_CreatureModelData.CreatureGeosetDataID := 0 |})];
  textureFileData :=
    [(9001, {| DB_TextureFileData.UsageType := 0;
               DB_TextureFileData.MaterialResourcesID := 300 |});
     (9002, {| DB_TextureFileData.UsageType := 0;
               DB_TextureFileData.MaterialResourcesID := 301 |});
     (9003, {| DB_TextureFileData.UsageType := 1;
               DB_TextureFileData.MaterialResourcesID := 302 |})];
  chrModel :=
    [(1, {| DB_ChrModel.DisplayID := 100;
            DB_ChrModel.CharComponentTextureLayoutID := 3 |});
     (2, {| DB_ChrModel.DisplayID := 101;
            DB_ChrModel.CharComponentTextureLayoutID := 4 |});
     (3, {| DB_ChrModel.DisplayID := 102;
            DB_ChrModel.CharComponentTextureLayoutID := 0 |});
     (4, {| DB_ChrModel.DisplayID := 103;
            DB_ChrModel.CharComponentTextureLayoutID := 5 |})];
  chrCustomizationOption :=
    [(20, {| DB_ChrCustomizationOption.ChrModelID := 1;
             DB_ChrCustomizationOption.Name_lang := "Skin Color" |});
     (21, {| DB_ChrCustomizationOption.ChrModelID := 1;
             DB_ChrCustomizationOption.Name_lang := "Face" |})];
  chrCustomizationChoice :=
    [(5, {| DB_ChrCustomizationChoice.ChrCustomizationOptionID := 21;
            DB_ChrCustomizationChoice.Name_lang := "";
            DB_ChrCustomizationChoice.OrderIndex := 1 |});
     (7, {| DB_ChrCustomizationChoice.ChrCustomizationOptionID := 20;
            DB_ChrCustomizationChoice.Name_lang := "Pale";
            DB_ChrCustomizationChoice.OrderIndex := 0 |});
     (9, {| DB_ChrCustomizationChoice.ChrCustomizationOptionID := 20;
            DB_ChrCustomizationChoice.Name_lang := "";
            DB_ChrCustomizationChoice.OrderIndex := 1 |})];
  chrCustomizationMaterial :=
    [(10, {| DB_ChrCustomizationMaterial.ID := 10;
             DB_ChrCustomizationMaterial.ChrModelTextureTargetID := 1;
             DB_ChrCustomizationMaterial.MaterialResourcesID := 300 |});
     (11, {| DB_ChrCustomizationMaterial.ID := 11;
             DB_ChrCustomizationMaterial.ChrModelTextureTargetID := 2;
             DB_ChrCustomizationMaterial.MaterialResourcesID := 301 |})];
  chrCustomizationElement :=
    [(1, demo_element 5 7 0 10);
     (2, demo_element 5 9 0 11);
     (3, demo_element 7 0 40 0);
     (4, demo_element 9 0 41 0)];
  chrCustomizationGeoset :=
    [(40, {| DB_ChrCustomizationGeoset.GeosetType := 1;
             DB_ChrCustomizationGeoset.GeosetID := 5 |});
     (41, {| DB_ChrCustomizationGeoset.GeosetType := 12;
             DB_ChrCustomizationGeoset.GeosetID := 3 |})];
  chrModelTextureLayer :=
    [(60, demo_layer 60 1 0 (-1) 1 3);
     (61, demo_layer 61 2 1 5 2 3);
     (62, demo_layer 62 1 0 (-1) 1 0);
     (63, demo_layer 63 1 0 (-1) 1 5)];
  charComponentTextureSections :=
    [(70, demo_section 3 0 0 0 256 512);
     (71, demo_section 3 2 256 0 128 64);
     (72, demo_section 3 1 512 0 64 64);
     (73, demo_section 0 0 0 0 256 512)]
|}.

Definition env_on : Env :=
  {| enableCharacterCustomization := true; listfile_ChrModel_db2 := Some 1 |}.

Definition env_off : Env :=
  {| enableCharacterCustomization := false; listfile_ChrModel_db2 := Some 1 |}.

(** The module state after [loadTables] on the data set. *)
Definition demo_catalog : Catalog := snd (loadTables env_on demo_tables initial).

(** ** The remaining exported queries (DBLogic.js, lines 234-311) *)

(** Lines 234-236. *)
Definition getCreatureDisplaysByFileDataID (fileDataID : Z)
    : M (option (list Display.t)) :=
  gets (λ s, creatureDisplays s !! fileDataID).

(** Lines 243-245: [fdidToChrModel.has(fileDataID)]. *)
Definition isFileDataIDCharacterModel (fileDataID : Z) : M bool :=
  gets (λ s, bool_decide (is_Some (fdidToChrModel s !! fileDataID))).

(** Lines 252-254. *)
Definition getChrModelIDByFileDataID (fileDataID : Z) : M (option Z) :=
  gets (λ s, fdidToChrModel s !! fileDataID).

(** Lines 277-279. *)
Definition getOptionsByChrModelID (chrModelID : Z)
    : M (option (list OptionEntry.t)) :=
  gets (λ s, optionsByChrModel s !! chrModelID).

(** Lines 285-287. *)
Definition getChoicesByOption (optionID : Z) : M (option (list ChoiceEntry.t)) :=
  gets (λ s, optionToChoices s !! optionID).

(** Lines 305-311. *)
Definition getTextureTargetByChrCustomizationMaterialID (chrModelMaterialID : Z)
    : M (JS.orFalse Z) :=
  has ← gets (λ s, chrCustMatMap s !! chrModelMaterialID);
  match has with
  | Some chrCustMat => mret (JS.JVal (ChrCustMat.ChrModelTextureTargetID chrCustMat))
  | None => mret JS.JFalse
  end.

(** Lines 123-226 of [loadTables]: what follows the creature and texture
    tables. *)
Definition load_customization (env : Env) (T : Tables) : M unit :=
  if customizationGate env then
    modify (set_chrCustomizationAvailable (λ _, true)) ;;
    load_chrModel T ;;
    load_chrCustomizationElement T ;;
    load_chrCustomizationGeoset T ;;
    load_chrModelTextureLayer T ;;
    load_charComponentTextureSections T
  else mret tt.

(** What one iteration of the TextureFileData loop does to
    [matResIDToFileDataID]. *)
Definition matRes_step (m : gmap Z Z) (r : Z * DB_TextureFileData.row) : gmap Z Z :=
  if negb (DB_TextureFileData.UsageType (snd r) =? 0) then m
  else <[DB_TextureFileData.MaterialResourcesID (snd r) := fst r]> m.

(** The file a TextureFileData table gives a material resource: the id of
    the last row of usage type 0 that names the resource. *)
Definition texture_file_of (T : Tables) (materialResourcesID : Z) : option Z :=
  last (map fst
          (List.filter
             (λ r, (DB_TextureFileData.UsageType (snd r) =? 0)
                   && (DB_TextureFileData.MaterialResourcesID (snd r)
                       =? materialResourcesID))
             (WDCReader.getAllRows (textureFileData T)))).

(** What [loadTables] keeps true of [charComponentTextureSectionMap]: the
    element at index [i] of a layout's array is a hole or a section row of
    that layout whose section type is [i]. *)
Definition sections_ok (s : Catalog) : Prop :=
  ∀ (layout : Z) (arr : SparseArray DB_CharComponentTextureSections.row)
    (i : nat) (textureSection : DB_CharComponentTextureSections.row),
    charComponentTextureSectionMap s !! layout = Some arr →
    arr !! i = Some (Some textureSection) →
    DB_CharComponentTextureSections.SectionType textureSection = Z.of_nat i ∧
    DB_CharComponentTextureSections.CharComponentTextureLayoutID textureSection
    = layout.

(** What [loadTables] keeps true of [chrModelTexLayer]: a layout that has
    an entry has at least one layer, and the layer found at a layout and a
    target is a row of that layout whose first texture target is that
    target. *)
Definition layers_ok (s : Catalog) : Prop :=
  ∀ (layout : Z) (layers : gmap Z DB_ChrModelTextureLayer.row),
    chrModelTexLayer s !! layout = Some layers →
    layers ≠ ∅ ∧
    ∀ (textureTarget : Z) (textureLayer : DB_ChrModelTextureLayer.row),
      layers !! textureTarget = Some textureLayer →
      DB_ChrModelTextureLayer.CharComponentTextureLayoutsID textureLayer = layout ∧
      fst (DB_ChrModelTextureLayer.ChrModelTextureTargetID textureLayer)
      = textureTarget.

(** The choice rows of an option, in table order. *)
Definition choice_rows_of (T : Tables) (chrCustomizationOptionID : Z)
    : list (Z * DB_ChrCustomizationChoice.row) :=
  List.filter
    (λ r, DB_ChrCustomizationChoice.ChrCustomizationOptionID (snd r)
          =? chrCustomizationOptionID)
    (WDCReader.getAllRows (chrCustomizationChoice T)).

(** The label shown for a choice row: the authored name, or "Choice "
    followed by the order index when there is none. *)
Definition choice_label (row : DB_ChrCustomizationChoice.row) : string :=
  if String.eqb (DB_ChrCustomizationChoice.Name_lang row) ""
  then String.append "Choice " (JS.toString (DB_ChrCustomizationChoice.OrderIndex row))
  else DB_ChrCustomizationChoice.Name_lang row.

(** The option rows of a model, in table order. *)
Definition option_rows_of (T : Tables) (chrModelID : Z)
    : list (Z * DB_ChrCustomizationOption.row) :=
  List.filter
    (λ r, DB_ChrCustomizationOption.ChrModelID (snd r) =? chrModelID)
    (WDCReader.getAllRows (chrCustomizationOption T)).

Definition option_entry (r : Z * DB_ChrCustomizationOption.row) : OptionEntry.t :=
  {| OptionEntry.id := fst r;
     OptionEntry.name := DB_ChrCustomizationOption.Name_lang (snd r) |}.

(** One iteration of the ChrModel loop of [loadTables] (lines 137-170):
    the body of [load_chrModel]. *)
Definition load_chrModel_row (T : Tables) (r : Z * DB_ChrModel.row) : M unit :=
  let '(chrModelID, chrModelRow) := r in
  match WDCReader.getRow (creatureDisplayInfo T)
          (DB_ChrModel.DisplayID chrModelRow) with
  | None => throw JS.TypeError
  | Some displayRow =>
      match WDCReader.getRow (creatureModelData T)
              (DB_CreatureDisplayInfo.ModelID displayRow) with
      | None => throw JS.TypeError
      | Some modelRow =>
          modify (set_fdidToChrModel
                    (<[DB_CreatureModelData.FileDataID modelRow := chrModelID]>)) ;;
          modify (set_chrModelIDToTextureLayoutID
                    (<[chrModelID
                       := DB_ChrModel.CharComponentTextureLayoutID chrModelRow]>)) ;;
          forEach (WDCReader.getAllRows (chrCustomizationOption T)) (λ o,
            let '(chrCustomizationOptionID, chrCustomizationOptionRow) := o in
            if negb (DB_ChrCustomizationOption.ChrModelID chrCustomizationOptionRow
                     =? chrModelID)
            then mret tt
            else
              modify (set_optionsByChrModel
                        (map_push
                           (DB_ChrCustomizationOption.ChrModelID chrCustomizationOptionRow)
                           {| OptionEntry.id := chrCustomizationOptionID;
                              OptionEntry.name :=
                                DB_ChrCustomizationOption.Name_lang
                                  chrCustomizationOptionRow |})) ;;
              modify (set_optionToChoices
                        (<[chrCustomizationOptionID
                           := build_choiceList T chrCustomizationOptionID]>)))
      end
  end.

(** The mesh file a ChrModel row resolves to, through its display row and
    that row's model-data row; nothing when either row is missing. *)
Definition mesh_file_of (T : Tables) (chrModelRow : DB_ChrModel.row) : option Z :=
  match WDCReader.getRow (creatureDisplayInfo T)
          (DB_ChrModel.DisplayID chrModelRow) with
  | None => None
  | Some displayRow =>
      match WDCReader.getRow (creatureModelData T)
              (DB_CreatureDisplayInfo.ModelID displayRow) with
      | None => None
      | Some modelRow => Some (DB_CreatureModelData.FileDataID modelRow)
      end
  end.

(** What one option row does to [optionsByChrModel] while the ChrModel
    loop is at model [chrModelID]. *)
Definition options_step (chrModelID : Z) (m : gmap Z (list OptionEntry.t))
    (o : Z * DB_ChrCustomizationOption.row) : gmap Z (list OptionEntry.t) :=
  if negb (DB_ChrCustomizationOption.ChrModelID (snd o) =? chrModelID) then m
  else map_push (DB_ChrCustomizationOption.ChrModelID (snd o)) (option_entry o) m.

(** What one ChrModel row does to [fdidToChrModel] when it resolves. *)
Definition fdid_step (T : Tables) (m : gmap Z Z) (r : Z * DB_ChrModel.row)
    : gmap Z Z :=
  match mesh_file_of T (snd r) with
  | Some fileDataID => <[fileDataID := fst r]> m
  | None => m
  end.

Definition layout_step (m : gmap Z Z) (r : Z * DB_ChrModel.row) : gmap Z Z :=
  <[fst r := DB_ChrModel.CharComponentTextureLayoutID (snd r)]> m.

(** The model a ChrModel table gives a mesh file: the id of the last row
    that resolves to the file. *)
Definition model_of_mesh_file (T : Tables) (fileDataID : Z) : option Z :=
  last (map fst
          (List.filter
             (λ r, bool_decide (mesh_file_of T (snd r) = Some fileDataID))
             (WDCReader.getAllRows (chrModel T)))).

(** The options [getOptionsByChrModelID] lists for a model: the option
    rows of the model in table order when the model has a row and at least
    one option, nothing ([undefined]) otherwise. *)
Definition options_of_model (T : Tables) (chrModelID : Z)
    : option (list OptionEntry.t) :=
  if bool_decide (chrModelID ∈ map fst (WDCReader.getAllRows (chrModel T))) then
    match option_rows_of T chrModelID with
    | [] => None
    | rows => Some (map option_entry rows)
    end
  else None.

(** What one element row does to [choiceToChrCustMaterialID] and, when
    its material row is found, to [chrCustMatMap]. *)
Definition choiceList_step
    (m : gmap Z (list DB_ChrCustomizationElement.row))
    (r : Z * DB_ChrCustomizationElement.row)
    : gmap Z (list DB_ChrCustomizationElement.row) :=
  if negb (DB_ChrCustomizationElement.ChrCustomizationMaterialID (snd r) =? 0)
  then map_push (DB_ChrCustomizationElement.ChrCustomizationChoiceID (snd r)) (snd r) m
  else m.

Definition flatten_material (matRow : DB_ChrCustomizationMaterial.row)
    : ChrCustMat.t := {|
  ChrCustMat.ChrModelTextureTargetID :=
    DB_ChrCustomizationMaterial.ChrModelTextureTargetID matRow;
  ChrCustMat.MaterialResourcesID :=
    DB_ChrCustomizationMaterial.MaterialResourcesID matRow
|}.

Definition chrCustMat_step (T : Tables) (m : gmap Z ChrCustMat.t)
    (r : Z * DB_ChrCustomizationElement.row) : gmap Z ChrCustMat.t :=
  if negb (DB_ChrCustomizationElement.ChrCustomizationMaterialID (snd r) =? 0)
  then
    match WDCReader.getRow (chrCustomizationMaterial T)
            (DB_ChrCustomizationElement.ChrCustomizationMaterialID (snd r)) with
    | Some matRow => <[DB_ChrCustomizationMaterial.ID matRow := flatten_material matRow]> m
    | None => m
    end
  else m.

(** The material elements of a choice: the element rows of the choice
    that name a material, in table order. *)
Definition material_elements_of (T : Tables) (choiceID : Z)
    : list DB_ChrCustomizationElement.row :=
  List.filter
    (λ row,
       (DB_ChrCustomizationElement.ChrCustomizationChoiceID row =? choiceID)
       && negb (DB_ChrCustomizationElement.ChrCustomizationMaterialID row =? 0))
    (map snd (WDCReader.getAllRows (chrCustomizationElement T))).

(** Whether some element row names the material. *)
Definition material_referenced (T : Tables) (chrCustMatID : Z) : bool :=
  existsb
    (λ row,
       (DB_ChrCustomizationElement.ChrCustomizationMaterialID row =? chrCustMatID)
       && negb (DB_ChrCustomizationElement.ChrCustomizationMaterialID row =? 0))
    (map snd (WDCReader.getAllRows (chrCustomizationElement T))).

(** Every material row carries its own row id in its [ID] column. *)
Definition materials_own_id (T : Tables) : Prop :=
  Forall (λ r, DB_ChrCustomizationMaterial.ID (snd r) = fst r)
    (WDCReader.getAllRows (chrCustomizationMaterial T)).

(** The element row names no material, or its material row exists. *)
Definition element_resolves (T : Tables) (row : DB_ChrCustomizationElement.row)
    : Prop :=
  DB_ChrCustomizationElement.ChrCustomizationMaterialID row = 0 ∨
  is_Some (WDCReader.getRow (chrCustomizationMaterial T)
             (DB_ChrCustomizationElement.ChrCustomizationMaterialID row)).

(** Every join [loadTables] dereferences has its row: each ChrModel row
    its display row and model-data row, each element row its material
    row. *)
Definition joins_resolve (T : Tables) : Prop :=
  Forall (λ r, is_Some (mesh_file_of T (snd r)))
    (WDCReader.getAllRows (chrModel T)) ∧
  Forall (λ r, element_resolves T (snd r))
    (WDCReader.getAllRows (chrCustomizationElement T)).

(** The data set with its ChrModel table replaced by one row whose
    display row does not exist. *)
Definition broken_tables : Tables := {|
  creatureDisplayInfoGeosetData := creatureDisplayInfoGeosetData demo_tables;
  creatureDisplayInfo := creatureDisplayInfo demo_tables;
  creatureModelData := creatureModelData demo_tables;
  textureFileData := textureFileData demo_tables;
  chrModel :=
    [(1, {| DB_ChrModel.DisplayID := 999;
            DB_ChrModel.CharComponentTextureLayoutID := 3 |})];
  chrCustomizationOption := chrCustomizationOption demo_tables;
  chrCustomizationChoice := chrCustomizationChoice demo_tables;
  chrCustomizationMaterial := chrCustomizationMaterial demo_tables;
  chrCustomizationElement := chrCustomizationElement demo_tables;
  chrCustomizationGeoset := chrCustomizationGeoset demo_tables;
  chrModelTextureLayer := chrModelTextureLayer demo_tables;
  charComponentTextureSections := charComponentTextureSections demo_tables
|}.

(** The data set with the geoset row 41 removed: choice 9 is bound to a
    geoset that has no row. *)
Definition dangling_tables : Tables := {|
  creatureDisplayInfoGeosetData := creatureDisplayInfoGeosetData demo_tables;
  creatureDisplayInfo := creatureDisplayInfo demo_tables;
  creatureModelData := creatureModelData demo_tables;
  textureFileData := textureFileData demo_tables;
  chrModel := chrModel demo_tables;
  chrCustomizationOption := chrCustomizationOption demo_tables;
  chrCustomizationChoice := chrCustomizationChoice demo_tables;
  chrCustomizationMaterial := chrCustomizationMaterial demo_tables;
  chrCustomizationElement := chrCustomizationElement demo_tables;
  chrCustomizationGeoset :=
    [(40, {| DB_ChrCustomizationGeoset.GeosetType := 1;
             DB_ChrCustomizationGeoset.GeosetID := 5 |})];
  chrModelTextureLayer := chrModelTextureLayer demo_tables;
  charComponentTextureSections := charComponentTextureSections demo_tables
|}.

(** The extra geosets of a display: [(GeosetIndex + 1) * 100 + GeosetValue]
    for each CreatureDisplayInfoGeosetData row of the display, in table
    order. *)
Definition extra_geosets_of (T : Tables) (displayID : Z) : list Z :=
  map (λ geosetRow,
         (DB_CreatureDisplayInfoGeosetData.GeosetIndex geosetRow + 1) * 100
         + DB_CreatureDisplayInfoGeosetData.GeosetValue geosetRow)
      (List.filter
         (λ geosetRow,
            DB_CreatureDisplayInfoGeosetData.CreatureDisplayInfoID geosetRow
            =? displayID)
         (map snd (WDCReader.getAllRows (creatureDisplayInfoGeosetData T)))).

(** What holds of a display listed for a mesh file: it has a display row
    whose model has a model-data row with that file; its textures are
    positive file ids; and its extra geosets are set, to those of its
    display id, exactly when that model-data row has
    [CreatureGeosetDataID > 0]. *)
Definition display_of_mesh (T : Tables) (fileDataID : Z) (display : Display.t)
    : Prop :=
  Forall (λ e, 0 < e) (Display.textures display) ∧
  ∃ (displayRow : DB_CreatureDisplayInfo.row)
    (modelRow : DB_CreatureModelData.row),
    (Display.ID display, displayRow) ∈ WDCReader.getAllRows (creatureDisplayInfo T) ∧
    (DB_CreatureDisplayInfo.ModelID displayRow, modelRow)
      ∈ WDCReader.getAllRows (creatureModelData T) ∧
    DB_CreatureModelData.FileDataID modelRow = fileDataID ∧
    Display.extraGeosets display
    = if DB_CreatureModelData.CreatureGeosetDataID modelRow >? 0
      then Some (extra_geosets_of T (Display.ID display))
      else None.

(** [m'] is [m] after the lists [app] have been pushed: a key with nothing
    to push keeps its entry, any other has its list (the empty one when it
    was absent) extended. *)
Definition appends (m m' : gmap Z (list Display.t))
    (app : Z → list Display.t) : Prop :=
  ∀ fileDataID,
    m' !! fileDataID
    = match app fileDataID with
      | [] => m !! fileDataID
      | l => Some (default [] (m !! fileDataID) ++ l)
      end.

(** A computation that returns and whose only effect on [creatureDisplays]
    is to push the lists [app], whatever the state it starts in. *)
Definition pushes (c : M unit) (app : Z → list Display.t) : Prop :=
  ∀ s, ∃ s', c s = (Ret tt, s') ∧
             appends (creatureDisplays s) (creatureDisplays s') app.

(** ** The bone child lookup of the glTF writer

    src/js/3D/writers/GLTFWriter.js, lines 213-221: the loop of [write]
    that links every bone to its parent before the bone nodes are added.
    Of a bone only [parentBone] and [children] take part; [children] is
    absent until the first child is pushed. *)

Module GLTFWriter.

Record Bone : Type := {
  parentBone : Z;
  children : option (list Z)
}.

(** Line 219:
    [parent.children ? parent.children.push(parentIndex)
                     : parent.children = [parentIndex]]. *)
Definition add_child (parentIndex : Z) (parent : Bone) : Bone := {|
  parentBone := parentBone parent;
  children := Some (match children parent with
                    | Some c => c ++ [parentIndex]
                    | None => [parentIndex]
                    end)
|}.

(** Lines 215-220, the body of the loop at index [i].  Reading a property
    of [bones[bone.parentBone]] raises a TypeError when the array has no
    such element. *)
Definition link_bone (boneOffset : Z) (i : nat) (bones : list Bone)
    : outcome (list Bone) :=
  match bones !! i with
  | None => Throw JS.TypeError
  | Some bone =>
      if parentBone bone >? -1 then
        match bones !! Z.to_nat (parentBone bone) with
        | None => Throw JS.TypeError
        | Some parent =>
            let parentIndex := boneOffset + Z.of_nat i in
            Ret (<[Z.to_nat (parentBone bone) := add_child parentIndex parent]> bones)
        end
      else Ret bones
  end.

Fixpoint link_bones (boneOffset : Z) (indices : list nat) (bones : list Bone)
    : outcome (list Bone) :=
  match indices with
  | [] => Ret bones
  | i :: indices' =>
      match link_bone boneOffset i bones with
      | Ret bones' => link_bones boneOffset indices' bones'
      | Throw e => Throw e
      end
  end.

(** Lines 214-221: [for (let i = 0, n = bones.length; i < n; i++)]. *)
Definition bone_child_lookup (boneOffset : Z) (bones : list Bone)
    : outcome (list Bone) :=
  link_bones boneOffset (seq 0 (length bones)) bones.

(** Bone [i] names bone [p] as its parent. *)
Definition child_of (bones : list Bone) (p i : nat) : bool :=
  match bones !! i with
  | Some bone => (parentBone bone >? -1) && (parentBone bone =? Z.of_nat p)
  | None => false
  end.

(** The node indices of the bones that name [p] as their parent, in the
    order of the array. *)
Definition child_nodes (boneOffset : Z) (bones : list Bone) (p : nat)
    (indices : list nat) : list Z :=
  map (λ i, boneOffset + Z.of_nat i) (List.filter (child_of bones p) indices).

(** A [children] property after the node indices [l] have been added to
    it: untouched when there is none to add. *)
Definition with_children (c : option (list Z)) (l : list Z) : option (list Z) :=
  match l with
  | [] => c
  | _ => Some (default [] c ++ l)
  end.

Definition demo_bones : list Bone :=
  [ {| parentBone := -1; children := None |};
    {| parentBone := 0; children := None |};
    {| parentBone := 0; children := None |};
    {| parentBone := 2; children := None |} ].

End GLTFWriter.

(** ** Further notions and data *)

(** The integer a decimal numeral stands for: decimal digits after an
    optional minus sign; nothing else is a numeral. *)
Definition decimal_reading (s : string) : option Z :=
  match s with
  | EmptyString => None
  | String "-" EmptyString => None
  | String "-" s' => Z.opp <$> JS.parse_digits 0 s'
  | _ => JS.parse_digits 0 s
  end.

(** "For every choice with a bound geoset element whose geoset row exists,
    [getGeosetForChoice] returns the integer obtained by concatenating the
    group tag and the variant tag, each padded with zeros to two digits,
    and reading the result as a decimal number; for every choice with no
    bound geoset element it returns [false]", after a run of [loadTables]
    that returned. *)
Definition geoset_key_is_decimal_reading : Prop :=
  ∀ (env : Env) (T : Tables) (s : Catalog) (choiceID : Z),
    customizationGate env = true →
    loadTables env T initial = (Ret tt, s) →
    NoDup (map fst (WDCReader.getAllRows (chrCustomizationGeoset T))) →
    (∀ (geosetID : Z) (row : DB_ChrCustomizationGeoset.row),
       bound_geoset T choiceID = Some geosetID →
       WDCReader.getRow (chrCustomizationGeoset T) geosetID = Some row →
       ∃ n : Z,
         decimal_reading
           (String.append
              (JS.padStart 2 "0"
                 (JS.toString (DB_ChrCustomizationGeoset.GeosetType row)))
              (JS.padStart 2 "0"
                 (JS.toString (DB_ChrCustomizationGeoset.GeosetID row))))
         = Some n ∧
         getGeosetForChoice choiceID s = (Ret (JS.JVal (Some (JS.Num n))), s)) ∧
    (bound_geoset T choiceID = None →
     getGeosetForChoice choiceID s = (Ret JS.JFalse, s)).

(** The data set with other geoset tags and another bit-mask: geoset 40
    has a negative variant tag and geoset 41 has the largest 32-bit tags;
    the layer at texture target 2 of layout 3 has bit-mask 3 (bits 0 and
    1), so the section of type 2, the last of the layout, has its bit
    unset. *)
Definition edge_tables : Tables := {|
  creatureDisplayInfoGeosetData := creatureDisplayInfoGeosetData demo_tables;
  creatureDisplayInfo := creatureDisplayInfo demo_tables;
  creatureModelData := creatureModelData demo_tables;
  textureFileData := textureFileData demo_tables;
  chrModel := chrModel demo_tables;
  chrCustomizationOption := chrCustomizationOption demo_tables;
  chrCustomizationChoice := chrCustomizationChoice demo_tables;
  chrCustomizationMaterial := chrCustomizationMaterial demo_tables;
  chrCustomizationElement := chrCustomizationElement demo_tables;
  chrCustomizationGeoset :=
    [(40, {| DB_ChrCustomizationGeoset.GeosetType := 1;
             DB_ChrCustomizationGeoset.GeosetID := -5 |});
     (41, {| DB_ChrCustomizationGeoset.GeosetType := 2147483647;
             DB_ChrCustomizationGeoset.GeosetID := 2147483647 |})];
  chrModelTextureLayer :=
    [(60, demo_layer 60 1 0 (-1) 1 3);
     (61, demo_layer 61 2 1 3 2 3)];
  charComponentTextureSections := charComponentTextureSections demo_tables
|}.

Definition edge_catalog : Catalog := snd (loadTables env_on edge_tables initial).

(** The data set with one section row only, whose section type -1 is not
    an array index: layout 3 has a section array, with no element. *)
Definition offindex_tables : Tables := {|
  creatureDisplayInfoGeosetData := creatureDisplayInfoGeosetData demo_tables;
  creatureDisplayInfo := creatureDisplayInfo demo_tables;
  creatureModelData := creatureModelData demo_tables;
  textureFileData := textureFileData demo_tables;
  chrModel := chrModel demo_tables;
  chrCustomizationOption := chrCustomizationOption demo_tables;
  chrCustomizationChoice := chrCustomizationChoice demo_tables;
  chrCustomizationMaterial := chrCustomizationMaterial demo_tables;
  chrCustomizationElement := chrCustomizationElement demo_tables;
  chrCustomizationGeoset := chrCustomizationGeoset demo_tables;
  chrModelTextureLayer := chrModelTextureLayer demo_tables;
  charComponentTextureSections := [(70, demo_section 3 (-1) 0 0 256 512)]
|}.

Definition offindex_catalog : Catalog :=
  snd (loadTables env_on offindex_tables initial).

(** "One entry is emitted per section of the layout whose bit is set in
    the mask, each with that section's rectangle": for a material element
    of the choice that resolves to a layer whose bit-mask is not -1, the
    returned array holds, for every section of the layout whose bit is
    set, an entry with that section's rectangle. *)
Definition one_entry_per_set_section : Prop :=
  ∀ (s : Catalog) (modelFileDataID chrModelID textureLayout choiceID : Z)
    (materials : list DB_ChrCustomizationElement.row)
    (material : DB_ChrCustomizationElement.row)
    (chrCustMatRow : ChrCustMat.t)
    (layers : gmap Z DB_ChrModelTextureLayer.row)
    (textureSections : SparseArray DB_CharComponentTextureSections.row)
    (textureLayer : DB_ChrModelTextureLayer.row)
    (textureSection : DB_CharComponentTextureSections.row),
    loaded s →
    fdidToChrModel s !! modelFileDataID = Some chrModelID →
    chrModelIDToTextureLayoutID s !! chrModelID = Some textureLayout →
    textureLayout ≠ 0 →
    choiceToChrCustMaterialID s !! choiceID = Some materials →
    material ∈ materials →
    Forall (λ material,
       is_Some (chrCustMatMap s
                  !! DB_ChrCustomizationElement.ChrCustomizationMaterialID material))
      materials →
    charComponentTextureSectionMap s !! textureLayout = Some textureSections →
    chrModelTexLayer s !! textureLayout = Some layers →
    chrCustMatMap s
      !! DB_ChrCustomizationElement.ChrCustomizationMaterialID material
      = Some chrCustMatRow →
    layers !! ChrCustMat.ChrModelTextureTargetID chrCustMatRow = Some textureLayer →
    DB_ChrModelTextureLayer.TextureSectionTypeBitMask textureLayer ≠ -1 →
    textureSection ∈ defined_elements textureSections →
    Z.testbit (DB_ChrModelTextureLayer.TextureSectionTypeBitMask textureLayer)
      (DB_CharComponentTextureSections.SectionType textureSection mod 32) = true →
    ∃ (skinMats : gmap Z SkinMat.t) (k : Z),
      getSkinMaterialsForChoice modelFileDataID choiceID s
      = (Ret (JS.JVal skinMats), s) ∧
      skinMats !! k
      = Some (section_entry textureLayer
                (matResIDToFileDataID s
                   !! ChrCustMat.MaterialResourcesID chrCustMatRow)
                textureSection).


(** * Properties *)

(** ** The JavaScript primitives on examples *)

Example toString_105 : JS.toString 105 = "105".
Proof. reflexivity. Qed.

Example toString_neg : JS.toString (-17) = "-17".
Proof. reflexivity. Qed.

Example padStart_5 : JS.padStart 2 "0" (JS.toString 5) = "05".
Proof. reflexivity. Qed.

Example padStart_123 : JS.padStart 2 "0" (JS.toString 123) = "123".
Proof. reflexivity. Qed.

Example Number_0105 : JS.Number "0105" = JS.Num 105.
Proof. reflexivity. Qed.

Example Number_bad : JS.Number "01-1" = JS.NaN.
Proof. reflexivity. Qed.

Example shl_31 : JS.shl 1 31 = - 2 ^ 31.
Proof. reflexivity. Qed.

Example shl_wraps : JS.shl 1 32 = 1.
Proof. reflexivity. Qed.

Example band_sign : JS.band (-1) (JS.shl 1 31) = - 2 ^ 31.
Proof. reflexivity. Qed.

(** ** The bit test [mask & (1 << sectionType)] *)

Lemma toInt32_mod (z : Z) : JS.toInt32 z mod 2 ^ 32 = z mod 2 ^ 32.
Proof. unfold JS.toInt32. rewrite Zminus_mod_idemp_l. f_equal. lia. Qed.

Lemma toInt32_testbit (z i : Z) :
  0 ≤ i < 32 → Z.testbit (JS.toInt32 z) i = Z.testbit z i.
Proof.
  intros Hi.
  rewrite <- (Z.mod_pow2_bits_low (JS.toInt32 z) 32 i) by lia.
  rewrite toInt32_mod. apply Z.mod_pow2_bits_low. lia.
Qed.

Lemma toInt32_zero (z : Z) :
  JS.toInt32 z = 0 ↔ ∀ i : Z, 0 ≤ i < 32 → Z.testbit z i = false.
Proof.
  split.
  - intros Hz i Hi. rewrite <- toInt32_testbit by done. rewrite Hz.
    apply Z.bits_0.
  - intros Hbits.
    assert (Hmod : z mod 2 ^ 32 = 0).
    { apply Z.bits_inj'. intros i Hi. rewrite Z.bits_0.
      destruct (Z.lt_ge_cases i 32).
      - rewrite Z.mod_pow2_bits_low by lia. apply Hbits. lia.
      - apply Z.mod_pow2_bits_high. lia. }
    unfold JS.toInt32. change (2 ^ 32) with 4294967296 in *.
    change (2 ^ 31) with 2147483648.
    Z.div_mod_to_equations. lia.
Qed.

(** The test is non-zero exactly when bit [sectionType mod 32] of the
    mask is set: the shift count wraps at 32. *)
Lemma band_shl_zero (mask sectionType : Z) :
  JS.band mask (JS.shl 1 sectionType) = 0
  ↔ Z.testbit mask (sectionType mod 32) = false.
Proof.
  assert (Hk : 0 ≤ sectionType mod 32 < 32) by (apply Z.mod_pos_bound; lia).
  unfold JS.band. rewrite toInt32_zero.
  assert (Hbit : ∀ i : Z, 0 ≤ i < 32 →
    Z.testbit (Z.land (JS.toInt32 mask) (JS.toInt32 (JS.shl 1 sectionType))) i
    = Z.testbit mask i && (sectionType mod 32 =? i)).
  { intros i Hi. rewrite Z.land_spec, !toInt32_testbit by done.
    unfold JS.shl. rewrite toInt32_testbit by done.
    change (JS.toInt32 1) with 1. rewrite Z.shiftl_1_l.
    by rewrite Z.pow2_bits_eqb by lia. }
  split.
  - intros H. specialize (H _ Hk). rewrite Hbit in H by done.
    by rewrite Z.eqb_refl, andb_true_r in H.
  - intros H i Hi. rewrite Hbit by done.
    destruct (Z.eqb_spec (sectionType mod 32) i) as [<-|]; [by rewrite H|].
    apply andb_false_r.
Qed.

Lemma section_bit_set_testbit mask textureSection :
  section_bit_set mask textureSection
  = Z.testbit mask
      (DB_CharComponentTextureSections.SectionType textureSection mod 32).
Proof.
  unfold section_bit_set.
  destruct (Z.testbit mask _) eqn:E.
  - apply negb_true_iff, Z.eqb_neq. rewrite band_shl_zero. congruence.
  - apply negb_false_iff, Z.eqb_eq. by apply band_shl_zero.
Qed.

(** ** Running computations *)

Lemma run_ret {A : Type} (a : A) s : (mret a : M A) s = (Ret a, s).
Proof. reflexivity. Qed.

Lemma run_gets {A : Type} (f : Catalog → A) s : gets f s = (Ret (f s), s).
Proof. reflexivity. Qed.

Lemma run_bind_ret {A B : Type} (m : M A) (k : A → M B) s a s' :
  m s = (Ret a, s') → (m ≫= k) s = k a s'.
Proof. intros H. unfold mbind, M_bind. by rewrite H. Qed.

Lemma run_bind_throw {A B : Type} (m : M A) (k : A → M B) s e s' :
  m s = (Throw e, s') → (m ≫= k) s = (Throw e, s').
Proof. intros H. unfold mbind, M_bind. by rewrite H. Qed.

Lemma run_bind_gets {A B : Type} (f : Catalog → A) (k : A → M B) s :
  (gets f ≫= k) s = k (f s) s.
Proof. reflexivity. Qed.

Lemma run_bind_modify {A B : Type} (f : Catalog → Catalog) (k : unit → M B) s :
  (modify f ≫= k) s = k tt (f s).
Proof. reflexivity. Qed.

Lemma readonly_ret {A : Type} (a : A) : readonly (mret a : M A).
Proof. by intros s. Qed.

Lemma readonly_gets {A : Type} (f : Catalog → A) : readonly (gets f).
Proof. by intros s. Qed.

Lemma readonly_throw {A : Type} e : readonly (throw e : M A).
Proof. by intros s. Qed.

Lemma readonly_bind {A B : Type} (m : M A) (k : A → M B) :
  readonly m → (∀ a, readonly (k a)) → readonly (m ≫= k).
Proof.
  intros Hm Hk s. unfold mbind, M_bind.
  specialize (Hm s). destruct (m s) as [[a|e] s']; simpl in *; subst.
  - apply Hk.
  - reflexivity.
Qed.

Lemma readonly_foldM {A B : Type} (body : B → A → M B) l b :
  (∀ b a, readonly (body b a)) → readonly (foldM body l b).
Proof.
  intros Hbody. revert b.
  induction l as [|a l IH]; intros b; simpl.
  - apply readonly_ret.
  - apply readonly_bind; [apply Hbody | intros b'; apply IH].
Qed.

Lemma preserves_ret {A : Type} P (a : A) : preserves P (mret a : M A).
Proof. by intros s. Qed.

Lemma preserves_throw {A : Type} P e : preserves P (throw e : M A).
Proof. by intros s. Qed.

Lemma preserves_bind {A B : Type} P (m : M A) (k : A → M B) :
  preserves P m → (∀ a, preserves P (k a)) → preserves P (m ≫= k).
Proof.
  intros Hm Hk s Hs. unfold mbind, M_bind.
  specialize (Hm s Hs). destruct (m s) as [[a|e] s']; simpl in *.
  - by apply Hk.
  - done.
Qed.

Lemma preserves_forEach {A : Type} P (l : list A) (body : A → M unit) :
  (∀ a, preserves P (body a)) → preserves P (forEach l body).
Proof.
  intros Hbody. induction l as [|a l IH]; simpl.
  - apply preserves_ret.
  - apply preserves_bind; [apply Hbody | intros _; apply IH].
Qed.

Lemma preserves_modify P (f : Catalog → Catalog) :
  (∀ s, P s → P (f s)) → preserves P (modify f).
Proof. intros Hf s Hs. by apply Hf. Qed.

Lemma readonly_run {A} (m : M A) s : readonly m → m s = (fst (m s), s).
Proof. intros H. specialize (H s). destruct (m s); simpl in *; by subst. Qed.

(** ** The queries only read the module state *)

Lemma readonly_getChrComponentTextureLayoutIDByChrModelID chrModelID :
  readonly (getChrComponentTextureLayoutIDByChrModelID chrModelID).
Proof. apply readonly_gets. Qed.

Ltac readonly_step :=
  first
    [ apply readonly_ret
    | apply readonly_gets
    | apply readonly_throw
    | apply readonly_getChrComponentTextureLayoutIDByChrModelID
    | apply readonly_foldM; intros
    | apply readonly_bind; [|intros]
    | match goal with
      | |- readonly (match ?x with _ => _ end) => destruct x
      | |- readonly (if ?b then _ else _) => destruct b
      end ].

Lemma readonly_getGeosetForChoice choiceID :
  readonly (getGeosetForChoice choiceID).
Proof. unfold getGeosetForChoice. repeat readonly_step. Qed.

Lemma readonly_skinMats_sectionLoop textureLayer row textureSections skinMats :
  readonly (skinMats_sectionLoop textureLayer row textureSections skinMats).
Proof. unfold skinMats_sectionLoop. repeat readonly_step. Qed.

Lemma readonly_skinMats_materialLoop textureLayout textureSections rows skinMats :
  readonly (skinMats_materialLoop textureLayout textureSections rows skinMats).
Proof.
  unfold skinMats_materialLoop.
  repeat first [apply readonly_skinMats_sectionLoop | readonly_step].
Qed.

Lemma readonly_getSkinMaterialsForChoice modelFileDataID choiceID :
  readonly (getSkinMaterialsForChoice modelFileDataID choiceID).
Proof.
  unfold getSkinMaterialsForChoice.
  repeat first [apply readonly_skinMats_materialLoop | readonly_step].
Qed.

Lemma readonly_texture_of_chrCustMatID chrModelID chrCustMatID :
  readonly (texture_of_chrCustMatID chrModelID chrCustMatID).
Proof. unfold texture_of_chrCustMatID. repeat readonly_step. Qed.

Lemma readonly_getTextureForFileDataIDAndChoice current modelFileDataID choiceID :
  readonly (getTextureForFileDataIDAndChoice current modelFileDataID choiceID).
Proof.
  unfold getTextureForFileDataIDAndChoice.
  repeat first [apply readonly_texture_of_chrCustMatID | readonly_step].
Qed.

(** C9.  [getSkinMaterialsForChoice] and
    [getTextureForFileDataIDAndChoice] leave the module state, hence every
    map and index of the catalog, as they found it, whatever their inputs
    and whether they return or throw; so a second call with the same
    inputs (and the same current selections) has the same outcome as the
    first. *)
Theorem queries_leave_catalog_unchanged :
  ∀ (s : Catalog) (current : list Z) (modelFileDataID choiceID : Z),
    let skin1 := getSkinMaterialsForChoice modelFileDataID choiceID s in
    let skin2 := getSkinMaterialsForChoice modelFileDataID choiceID (snd skin1) in
    let tex1 :=
      getTextureForFileDataIDAndChoice current modelFileDataID choiceID s in
    let tex2 :=
      getTextureForFileDataIDAndChoice current modelFileDataID choiceID (snd tex1) in
    snd skin1 = s ∧ snd tex1 = s ∧
    fst skin2 = fst skin1 ∧ snd skin2 = s ∧
    fst tex2 = fst tex1 ∧ snd tex2 = s.
Proof.
  intros s current modelFileDataID choiceID skin1 skin2 tex1 tex2.
  assert (Hskin : snd skin1 = s)
    by apply readonly_getSkinMaterialsForChoice.
  assert (Htex : snd tex1 = s)
    by apply readonly_getTextureForFileDataIDAndChoice.
  subst skin2 tex2. rewrite Hskin, Htex. done.
Qed.

(** ** Loops that cannot throw *)

Lemma foldl_invariant {A B} (P : A → Prop) (f : A → B → A) (l : list B) a :
  P a → (∀ a b, P a → P (f a b)) → P (foldl f a l).
Proof.
  intros Ha Hf. revert a Ha.
  induction l as [|b l IH]; intros a Ha; simpl; [done|].
  apply IH. by apply Hf.
Qed.

Lemma forEach_returns {A} (l : list A) (body : A → M unit) :
  (∀ a s, a ∈ l → ∃ s', body a s = (Ret tt, s')) →
  ∀ s, ∃ s', forEach l body s = (Ret tt, s').
Proof.
  induction l as [|a l IH]; intros Hbody s; simpl.
  - by exists s.
  - destruct (Hbody a s) as [s1 H1]; [left|].
    erewrite run_bind_ret by exact H1.
    apply IH. intros a' s' Ha'. apply Hbody. by right.
Qed.

Lemma build_displayInfoMaps_lookup T modelID displayIDs displayID :
  snd (build_displayInfoMaps T) !! modelID = Some displayIDs →
  displayID ∈ displayIDs →
  is_Some (fst (build_displayInfoMaps T) !! displayID).
Proof.
  unfold build_displayInfoMaps.
  revert modelID displayIDs displayID.
  apply (foldl_invariant
    (λ acc, ∀ modelID displayIDs displayID,
       acc.2 !! modelID = Some displayIDs → displayID ∈ displayIDs →
       is_Some (acc.1 !! displayID))).
  - intros modelID displayIDs displayID H. simpl in H.
    by rewrite lookup_empty in H.
  - intros [dm mm] [k row] IH modelID displayIDs displayID Hlk Hin.
    simpl in *. unfold map_push in Hlk.
    destruct (decide (k = displayID)) as [->|Hne].
    + rewrite lookup_insert_eq. by eexists.
    + rewrite lookup_insert_ne by done.
      destruct (decide (DB_CreatureDisplayInfo.ModelID row = modelID)) as [Hm|Hm].
      * rewrite Hm, lookup_insert_eq in Hlk. injection Hlk as <-.
        apply elem_of_app in Hin as [Hin|Hin].
        -- destruct (mm !! modelID) as [ids|] eqn:E; simpl in Hin.
           ++ by eapply IH.
           ++ by apply elem_of_nil in Hin.
        -- apply list_elem_of_singleton in Hin. congruence.
      * rewrite lookup_insert_ne in Hlk by done. by eapply IH.
Qed.

Lemma load_creatureDisplays_returns T s :
  ∃ s', load_creatureDisplays T s = (Ret tt, s').
Proof.
  unfold load_creatureDisplays.
  apply forEach_returns. intros [modelID modelRow] s1 _.
  destruct (snd (build_displayInfoMaps T) !! modelID) as [displayIDs|] eqn:E.
  - apply forEach_returns. intros displayID s2 Hin.
    destruct (build_displayInfoMaps_lookup T _ _ _ E Hin) as [display ->].
    by eexists.
  - by eexists.
Qed.

Lemma load_textureFileData_returns T s :
  ∃ s', load_textureFileData T s = (Ret tt, s').
Proof.
  unfold load_textureFileData.
  apply forEach_returns. intros [id row] s1 _.
  destruct (negb _); by eexists.
Qed.

(** ** The creature tables do not touch the customization maps *)

Lemma load_creatureDisplays_preserves (P : Catalog → Prop) T :
  (∀ f s, P s → P (set_creatureDisplays f s)) →
  preserves P (load_creatureDisplays T).
Proof.
  intros HP. unfold load_creatureDisplays.
  apply preserves_forEach. intros [modelID modelRow].
  destruct (_ !! modelID); [|apply preserves_ret].
  apply preserves_forEach. intros displayID.
  destruct (_ !! displayID); [|apply preserves_throw].
  apply preserves_modify. intros s. apply HP.
Qed.

Lemma load_textureFileData_preserves (P : Catalog → Prop) T :
  (∀ f s, P s → P (set_matResIDToFileDataID f s)) →
  preserves P (load_textureFileData T).
Proof.
  intros HP. unfold load_textureFileData.
  apply preserves_forEach. intros [id row].
  destruct (negb _); [apply preserves_ret|].
  apply preserves_modify. intros s. apply HP.
Qed.

Lemma loadTables_gate_closed env T s :
  customizationGate env = false →
  ∃ s', loadTables env T s = (Ret tt, s') ∧
        (∀ P : Catalog → Prop,
           (∀ f s, P s → P (set_creatureDisplays f s)) →
           (∀ f s, P s → P (set_matResIDToFileDataID f s)) →
           P s → P s').
Proof.
  intros Hgate. unfold loadTables. rewrite Hgate.
  destruct (load_creatureDisplays_returns T s) as [s1 H1].
  destruct (load_textureFileData_returns T s1) as [s2 H2].
  exists s2. split.
  - erewrite run_bind_ret by exact H1.
    erewrite run_bind_ret by exact H2. reflexivity.
  - intros P Hc Hm Hs.
    pose proof (load_creatureDisplays_preserves P T Hc s Hs) as P1.
    rewrite H1 in P1. simpl in P1.
    pose proof (load_textureFileData_preserves P T Hm s1 P1) as P2.
    by rewrite H2 in P2.
Qed.

(** ** Queries on an empty customization catalog *)

Lemma getGeosetForChoice_empty s choiceID :
  choiceToGeoset s = ∅ →
  getGeosetForChoice choiceID s = (Ret JS.JFalse, s).
Proof.
  intros H. unfold getGeosetForChoice.
  rewrite run_bind_gets, H, lookup_empty. reflexivity.
Qed.

Lemma getSkinMaterialsForChoice_no_model s modelFileDataID choiceID :
  fdidToChrModel s !! modelFileDataID = None →
  getSkinMaterialsForChoice modelFileDataID choiceID s = (Ret JS.JFalse, s).
Proof.
  intros H. unfold getSkinMaterialsForChoice.
  rewrite run_bind_gets, H.
  unfold getChrComponentTextureLayoutIDByChrModelID.
  rewrite run_bind_gets. reflexivity.
Qed.

Lemma getTextureForFileDataIDAndChoice_no_list s current modelFileDataID choiceID :
  choiceToChrCustMaterialID s !! choiceID = None →
  getTextureForFileDataIDAndChoice current modelFileDataID choiceID s
  = (Ret JS.JFalse, s).
Proof.
  intros H. unfold getTextureForFileDataIDAndChoice.
  rewrite run_bind_gets, run_bind_gets, H. reflexivity.
Qed.

(** C8.  With the configuration flag unset, or with no ChrModel.db2 in the
    listfile, [loadTables] run from the initial state returns normally and
    leaves every customization map empty and the availability flag false;
    in that state [isCharacterCustomizationAvailable] returns [false] and
    [getGeosetForChoice], [getSkinMaterialsForChoice] and
    [getTextureForFileDataIDAndChoice] return [false] for every input,
    without throwing. *)
Theorem customization_gate_closed :
  ∀ (env : Env) (T : Tables),
    enableCharacterCustomization env = false
    ∨ truthy (listfile_ChrModel_db2 env) = false →
    let s := snd (loadTables env T initial) in
    fst (loadTables env T initial) = Ret tt ∧
    customization_empty s ∧
    isCharacterCustomizationAvailable s = (Ret false, s) ∧
    ∀ (current : list Z) (modelFileDataID choiceID : Z),
      getGeosetForChoice choiceID s = (Ret JS.JFalse, s) ∧
      getSkinMaterialsForChoice modelFileDataID choiceID s = (Ret JS.JFalse, s) ∧
      getTextureForFileDataIDAndChoice current modelFileDataID choiceID s
      = (Ret JS.JFalse, s).
Proof.
  intros env T Hflag.
  assert (Hgate : customizationGate env = false).
  { unfold customizationGate. destruct Hflag as [-> | ->]; [done|].
    by destruct (enableCharacterCustomization env). }
  destruct (loadTables_gate_closed env T initial Hgate) as (s' & Hrun & Hframe).
  rewrite Hrun. simpl.
  assert (Hempty : customization_empty s').
  { apply Hframe; [by intros f s| by intros f s |].
    unfold customization_empty. simpl. tauto. }
  split; [done|]. split; [done|].
  destruct Hempty as (Hc & Hl & Hf & _ & _ & Hg & _ & _ & _ & _ & Ha).
  split.
  - unfold isCharacterCustomizationAvailable. by rewrite run_gets, Ha.
  - intros current modelFileDataID choiceID. split; [|split].
    + by apply getGeosetForChoice_empty.
    + apply getSkinMaterialsForChoice_no_model. by rewrite Hf, lookup_empty.
    + apply getTextureForFileDataIDAndChoice_no_list.
      by rewrite Hc, lookup_empty.
Qed.

Lemma customization_gate_closed_witness :
  fst (loadTables env_off demo_tables initial) = Ret tt ∧
  isCharacterCustomizationAvailable (snd (loadTables env_off demo_tables initial))
  = (Ret false, snd (loadTables env_off demo_tables initial)) ∧
  getTextureForFileDataIDAndChoice [7] 1000 5
    (snd (loadTables env_off demo_tables initial))
  = (Ret JS.JFalse, snd (loadTables env_off demo_tables initial)).
Proof.
  destruct (customization_gate_closed env_off demo_tables)
    as (Hret & _ & Havail & Hqueries).
  - left. reflexivity.
  - split; [exact Hret|]. split; [exact Havail|].
    apply (Hqueries [7] 1000 5).
Defined.

Example gate_closed_keeps_creature_tables :
  matResIDToFileDataID (snd (loadTables env_off demo_tables initial)) !! 300
  = Some 9001.
Proof. vm_compute. reflexivity. Qed.

(** ** What each loop of [loadTables] can change

    Each lemma says: a property kept by the updaters the loop uses is kept
    by the loop, whether it returns or throws. *)

Ltac preserves_step :=
  first
    [ apply preserves_ret
    | apply preserves_throw
    | apply preserves_forEach; intros
    | apply preserves_bind; [|intros]
    | match goal with
      | |- preserves _ (let '(_, _) := ?x in _) => destruct x
      | |- preserves _ (match ?x with _ => _ end) => destruct x
      | |- preserves _ (if ?b then _ else _) => destruct b
      end ].

Lemma load_chrModel_preserves (P : Catalog → Prop) T :
  (∀ f s, P s → P (set_fdidToChrModel f s)) →
  (∀ f s, P s → P (set_chrModelIDToTextureLayoutID f s)) →
  (∀ f s, P s → P (set_optionsByChrModel f s)) →
  (∀ f s, P s → P (set_optionToChoices f s)) →
  preserves P (load_chrModel T).
Proof.
  intros H1 H2 H3 H4. unfold load_chrModel.
  repeat first [preserves_step | apply preserves_modify; intros s; auto].
Qed.

Lemma load_chrCustomizationGeoset_preserves (P : Catalog → Prop) T :
  (∀ f s, P s → P (set_geosetMap f s)) →
  preserves P (load_chrCustomizationGeoset T).
Proof.
  intros H1. unfold load_chrCustomizationGeoset.
  repeat first [preserves_step | apply preserves_modify; intros s; auto].
Qed.

Lemma load_chrModelTextureLayer_preserves (P : Catalog → Prop) T :
  (∀ f s, P s → P (set_chrModelTexLayer f s)) →
  preserves P (load_chrModelTextureLayer T).
Proof.
  intros H1. unfold load_chrModelTextureLayer.
  repeat first [preserves_step | apply preserves_modify; intros s; auto].
Qed.

Lemma load_charComponentTextureSections_preserves (P : Catalog → Prop) T :
  (∀ f s, P s → P (set_charComponentTextureSectionMap f s)) →
  preserves P (load_charComponentTextureSections T).
Proof.
  intros H1. unfold load_charComponentTextureSections.
  repeat first [preserves_step | apply preserves_modify; intros s; auto].
Qed.

Lemma load_chrCustomizationElement_preserves (P : Catalog → Prop) T :
  (∀ f s, P s → P (set_choiceToGeoset f s)) →
  (∀ row s,
     DB_ChrCustomizationElement.ChrCustomizationMaterialID row ≠ 0 →
     P s →
     P (set_choiceToChrCustMaterialID
          (map_push (DB_ChrCustomizationElement.ChrCustomizationChoiceID row) row) s)) →
  (∀ f s, P s → P (set_chrCustMatMap f s)) →
  preserves P (load_chrCustomizationElement T).
Proof.
  intros H1 H2 H3. unfold load_chrCustomizationElement.
  apply preserves_forEach. intros [id row].
  apply preserves_bind.
  { destruct (negb _); [apply preserves_modify; intros s; auto
                       | apply preserves_ret]. }
  intros _.
  destruct (DB_ChrCustomizationElement.ChrCustomizationMaterialID row =? 0) eqn:E;
    simpl; [apply preserves_ret|].
  apply Z.eqb_neq in E.
  apply preserves_bind; [apply preserves_modify; intros s; auto|].
  intros _. destruct (WDCReader.getRow _ _); [|apply preserves_throw].
  apply preserves_modify; intros s; auto.
Qed.

(** ** The invariant of the choice lists *)

Lemma map_push_lookup {A} (k k' : Z) (v : A) m :
  map_push k v m !! k' =
  if decide (k = k') then Some (default [] (m !! k) ++ [v]) else m !! k'.
Proof. unfold map_push. by rewrite lookup_insert. Qed.

Lemma choice_lists_ok_push row s :
  DB_ChrCustomizationElement.ChrCustomizationMaterialID row ≠ 0 →
  choice_lists_ok s →
  choice_lists_ok
    (set_choiceToChrCustMaterialID
       (map_push (DB_ChrCustomizationElement.ChrCustomizationChoiceID row) row) s).
Proof.
  intros Hrow Hs choiceID l. simpl. rewrite map_push_lookup.
  case_decide as Hk; [|apply Hs].
  intros [= <-]. split.
  - by destruct (default [] _).
  - apply Forall_app. split; [|by apply Forall_singleton].
    destruct (choiceToChrCustMaterialID s !! _) as [l0|] eqn:E; simpl.
    + by apply (Hs _ _ E).
    + constructor.
Qed.

Lemma loadTables_preserves_choice_lists_ok env T :
  preserves choice_lists_ok (loadTables env T).
Proof.
  unfold loadTables.
  apply preserves_bind; [by apply load_creatureDisplays_preserves|intros _].
  apply preserves_bind; [by apply load_textureFileData_preserves|intros _].
  destruct (customizationGate env); [|apply preserves_ret].
  apply preserves_bind; [by apply preserves_modify|intros _].
  apply preserves_bind; [by apply load_chrModel_preserves|intros _].
  apply preserves_bind;
    [apply load_chrCustomizationElement_preserves;
       [done | apply choice_lists_ok_push | done]|intros _].
  apply preserves_bind; [by apply load_chrCustomizationGeoset_preserves|intros _].
  apply preserves_bind; [by apply load_chrModelTextureLayer_preserves|intros _].
  by apply load_charComponentTextureSections_preserves.
Qed.

Lemma loaded_choice_lists_ok s : loaded s → choice_lists_ok s.
Proof.
  induction 1 as [|env T s _ IH].
  - intros choiceID l H. simpl in H. by rewrite lookup_empty in H.
  - by apply loadTables_preserves_choice_lists_ok.
Qed.

(** ** A model whose texture layout is 0 *)

Lemma texture_of_chrCustMatID_no_layout s chrModelID chrCustMatID :
  truthy (chrModelID ≫= λ k, chrModelIDToTextureLayoutID s !! k) = false →
  texture_of_chrCustMatID chrModelID chrCustMatID s = (Ret JS.JFalse, s).
Proof.
  intros H. unfold texture_of_chrCustMatID.
  rewrite run_bind_gets. destruct (chrCustMatMap s !! chrCustMatID); [|done].
  unfold getChrComponentTextureLayoutIDByChrModelID.
  rewrite run_bind_gets, H. reflexivity.
Qed.

Lemma getSkinMaterialsForChoice_no_layout s modelFileDataID choiceID :
  truthy (fdidToChrModel s !! modelFileDataID
            ≫= λ k, chrModelIDToTextureLayoutID s !! k) = false →
  getSkinMaterialsForChoice modelFileDataID choiceID s = (Ret JS.JFalse, s).
Proof.
  intros H. unfold getSkinMaterialsForChoice.
  rewrite run_bind_gets.
  unfold getChrComponentTextureLayoutIDByChrModelID.
  rewrite run_bind_gets, H. reflexivity.
Qed.

(** C10.  In every state the program can reach, for a model file whose
    model has texture layout 0, [getSkinMaterialsForChoice] and
    [getTextureForFileDataIDAndChoice] return [false] for every choice id
    and every current selection: the test [!textureLayout] treats 0 like a
    missing layout, whatever is registered under layout 0. *)
Theorem layout_zero_is_unavailable :
  ∀ (s : Catalog) (current : list Z) (modelFileDataID chrModelID choiceID : Z),
    loaded s →
    fdidToChrModel s !! modelFileDataID = Some chrModelID →
    chrModelIDToTextureLayoutID s !! chrModelID = Some 0 →
    getSkinMaterialsForChoice modelFileDataID choiceID s = (Ret JS.JFalse, s) ∧
    getTextureForFileDataIDAndChoice current modelFileDataID choiceID s
    = (Ret JS.JFalse, s).
Proof.
  intros s current modelFileDataID chrModelID choiceID Hloaded Hmodel Hlayout.
  assert (Hfalsy : truthy (fdidToChrModel s !! modelFileDataID
                             ≫= λ k, chrModelIDToTextureLayoutID s !! k) = false).
  { rewrite Hmodel. simpl. by rewrite Hlayout. }
  split; [by apply getSkinMaterialsForChoice_no_layout|].
  unfold getTextureForFileDataIDAndChoice.
  rewrite run_bind_gets, run_bind_gets.
  destruct (choiceToChrCustMaterialID s !! choiceID) as [l|] eqn:El; [|done].
  destruct (loaded_choice_lists_ok s Hloaded _ _ El) as [Hne _].
  destruct l as [|first rest]; [done|].
  destruct (select_chrCustMatID current (first :: rest) =? 0);
    (erewrite run_bind_ret by reflexivity);
    by apply texture_of_chrCustMatID_no_layout.
Qed.

Example demo_loads : fst (loadTables env_on demo_tables initial) = Ret tt.
Proof. vm_compute. reflexivity. Qed.

Example demo_choice_5 :
  choiceToChrCustMaterialID demo_catalog !! 5
  = Some [demo_element 5 7 0 10; demo_element 5 9 0 11].
Proof. vm_compute. reflexivity. Qed.

Example demo_options :
  optionsByChrModel demo_catalog !! 1
  = Some [{| OptionEntry.id := 20; OptionEntry.name := "Skin Color" |};
          {| OptionEntry.id := 21; OptionEntry.name := "Face" |}].
Proof. vm_compute. reflexivity. Qed.

Example demo_choices :
  optionToChoices demo_catalog !! 20
  = Some [{| ChoiceEntry.id := 7; ChoiceEntry.label := "Pale" |};
          {| ChoiceEntry.id := 9; ChoiceEntry.label := "Choice 1" |}].
Proof. vm_compute. reflexivity. Qed.

Example demo_displays :
  creatureDisplays demo_catalog !! 1000
  = Some [{| Display.ID := 100; Display.modelID := 50;
             Display.textures := [777];
             Display.extraGeosets := Some [102] |}].
Proof. vm_compute. reflexivity. Qed.

Example demo_sections :
  charComponentTextureSectionMap demo_catalog !! 3
  = Some [Some (demo_section 3 0 0 0 256 512);
          Some (demo_section 3 1 512 0 64 64);
          Some (demo_section 3 2 256 0 128 64)].
Proof. vm_compute. reflexivity. Qed.

Lemma layout_zero_is_unavailable_witness :
  getSkinMaterialsForChoice 1002 5 demo_catalog = (Ret JS.JFalse, demo_catalog) ∧
  getTextureForFileDataIDAndChoice [7] 1002 5 demo_catalog
  = (Ret JS.JFalse, demo_catalog).
Proof.
  apply (layout_zero_is_unavailable demo_catalog [7] 1002 3 5).
  - apply loaded_loadTables, loaded_initial.
  - vm_compute. reflexivity.
  - vm_compute. reflexivity.
Defined.

Example demo_layout_zero_registered :
  chrModelTexLayer demo_catalog !! 0 = Some {[ 1 := demo_layer 62 1 0 (-1) 1 0 ]} ∧
  charComponentTextureSectionMap demo_catalog !! 0
  = Some [Some (demo_section 0 0 0 0 256 512)].
Proof. split; vm_compute; reflexivity. Qed.

(** ** The choice of the material id *)

Lemma select_inner_last (entry : Z) availableChoices chrCustMatID :
  foldl (λ chrCustMatID availableChoice,
           if DB_ChrCustomizationElement.RelatedChrCustomizationChoiceID
                availableChoice =? entry
           then DB_ChrCustomizationElement.ChrCustomizationMaterialID availableChoice
           else chrCustMatID)
        chrCustMatID availableChoices
  = default chrCustMatID
      (last (map DB_ChrCustomizationElement.ChrCustomizationMaterialID
               (List.filter
                  (λ a, DB_ChrCustomizationElement.RelatedChrCustomizationChoiceID a
                        =? entry)
                  availableChoices))).
Proof.
  revert chrCustMatID.
  induction availableChoices as [|a l IH]; intros chrCustMatID; simpl; [done|].
  rewrite IH.
  destruct (_ =? entry); simpl; [|done].
  rewrite last_cons. by destruct (last _).
Qed.

Lemma select_outer_last current availableChoices chrCustMatID :
  foldl (λ chrCustMatID entry,
           foldl (λ chrCustMatID availableChoice,
                    if DB_ChrCustomizationElement.RelatedChrCustomizationChoiceID
                         availableChoice =? entry
                    then DB_ChrCustomizationElement.ChrCustomizationMaterialID
                           availableChoice
                    else chrCustMatID)
                 chrCustMatID availableChoices)
        chrCustMatID current
  = default chrCustMatID (last (related_matches current availableChoices)).
Proof.
  revert chrCustMatID.
  induction current as [|entry l IH]; intros chrCustMatID; simpl; [done|].
  rewrite IH, select_inner_last, last_app.
  destruct (last (related_matches l availableChoices)); simpl; [done|].
  reflexivity.
Qed.

(** The nested [forEach] leave in [chrCustMatID] the material id of the
    last match, or 0 when nothing matched. *)
Lemma select_chrCustMatID_last current availableChoices :
  select_chrCustMatID current availableChoices
  = default 0 (last (related_matches current availableChoices)).
Proof. apply select_outer_last. Qed.

Lemma related_matches_none current availableChoices :
  Forall (λ a, Forall (λ entry,
     DB_ChrCustomizationElement.RelatedChrCustomizationChoiceID a ≠ entry) current)
    availableChoices →
  related_matches current availableChoices = [].
Proof.
  intros H. unfold related_matches.
  induction current as [|entry l IH]; simpl; [done|].
  rewrite IH.
  - rewrite app_nil_r.
    assert (Hl : Forall (λ a,
      DB_ChrCustomizationElement.RelatedChrCustomizationChoiceID a ≠ entry)
      availableChoices).
    { eapply Forall_impl; [exact H|]. intros a Ha. by inversion Ha. }
    clear -Hl. induction Hl as [|a l' Ha _ IHl]; simpl; [done|].
    apply Z.eqb_neq in Ha. by rewrite Ha.
  - eapply Forall_impl; [exact H|]. intros a Ha. by inversion Ha.
Qed.

Lemma related_matches_elem current availableChoices chrCustMatID :
  chrCustMatID ∈ related_matches current availableChoices →
  ∃ a, a ∈ availableChoices ∧
       DB_ChrCustomizationElement.ChrCustomizationMaterialID a = chrCustMatID.
Proof.
  unfold related_matches. rewrite list_elem_of_In, in_flat_map.
  intros (entry & _ & Hin).
  apply in_map_iff in Hin as (a & <- & Ha).
  apply filter_In in Ha as [Ha _].
  exists a. by rewrite list_elem_of_In.
Qed.




Example fallback_scenario :
  fst (getTextureForFileDataIDAndChoice [8] 1000 5 demo_catalog)
  = Ret (JS.JVal {| TextureInfo.TextureType := 1;
                    TextureInfo.FileDataID := 9001;
                    TextureInfo.TextureSectionTypeBitMask := -1 |}).
Proof. vm_compute. reflexivity. Qed.

(** C2 (as the code has it).  In every state the program can reach, when
    at least one candidate's related choice is among the current
    selections, [getTextureForFileDataIDAndChoice] resolves the material id
    of the last match, taking the selections in order and, for each, the
    candidates in order: every match overwrites [chrCustMatID]. *)
Theorem last_match_supplies_material :
  ∀ (s : Catalog) (current : list Z) (modelFileDataID choiceID : Z)
    (availableChoices : list DB_ChrCustomizationElement.row) (chrCustMatID : Z),
    loaded s →
    choiceToChrCustMaterialID s !! choiceID = Some availableChoices →
    last (related_matches current availableChoices) = Some chrCustMatID →
    getTextureForFileDataIDAndChoice current modelFileDataID choiceID s
    = texture_of_chrCustMatID (fdidToChrModel s !! modelFileDataID) chrCustMatID s.
Proof.
  intros s current modelFileDataID choiceID availableChoices chrCustMatID
    Hloaded Hlist Hlast.
  assert (Hnz : chrCustMatID ≠ 0).
  { destruct (loaded_choice_lists_ok s Hloaded _ _ Hlist) as [_ Hall].
    assert (Hin : chrCustMatID ∈ related_matches current availableChoices).
    { apply last_Some in Hlast as [l' ->]. apply elem_of_app. right.
      by apply list_elem_of_singleton. }
    apply related_matches_elem in Hin as (a & Ha & <-).
    rewrite Forall_forall in Hall. by apply Hall. }
  unfold getTextureForFileDataIDAndChoice.
  rewrite run_bind_gets, run_bind_gets, Hlist.
  rewrite select_chrCustMatID_last, Hlast. simpl.
  apply Z.eqb_neq in Hnz. rewrite Hnz. reflexivity.
Qed.

Lemma demo_catalog_loaded : loaded demo_catalog.
Proof. apply loaded_loadTables, loaded_initial. Qed.

Lemma last_match_supplies_material_witness :
  getTextureForFileDataIDAndChoice [7; 9] 1000 5 demo_catalog
  = texture_of_chrCustMatID (fdidToChrModel demo_catalog !! 1000) 11 demo_catalog.
Proof.
  apply (last_match_supplies_material demo_catalog [7; 9] 1000 5
           [demo_element 5 7 0 10; demo_element 5 9 0 11] 11).
  - apply loaded_loadTables, loaded_initial.
  - vm_compute. reflexivity.
  - vm_compute. reflexivity.
Defined.

(** C2 as stated fails: with choice 5 bound to materials 10 (related
    choice 7) and 11 (related choice 9) and both 7 and 9 selected, the
    first match is material 10, and the function resolves material 11. *)
Lemma first_match_refuted : ¬ first_match_supplies_material.
Proof.
  intros H.
  specialize (H demo_catalog [7; 9] 1000 5
                [demo_element 5 7 0 10; demo_element 5 9 0 11] 10
                demo_catalog_loaded).
  assert (Hlist : choiceToChrCustMaterialID demo_catalog !! 5
                  = Some [demo_element 5 7 0 10; demo_element 5 9 0 11])
    by (vm_compute; reflexivity).
  assert (Hhead : head (related_matches [7; 9]
                          [demo_element 5 7 0 10; demo_element 5 9 0 11]) = Some 10)
    by (vm_compute; reflexivity).
  specialize (H Hlist Hhead).
  apply (f_equal fst) in H. vm_compute in H. discriminate H.
Qed.

Example disambiguation_scenario :
  fst (getTextureForFileDataIDAndChoice [9] 1000 5 demo_catalog)
  = Ret (JS.JVal {| TextureInfo.TextureType := 2;
                    TextureInfo.FileDataID := 9002;
                    TextureInfo.TextureSectionTypeBitMask := 5 |}).
Proof. vm_compute. reflexivity. Qed.

(** ** [getSkinMaterialsForChoice]: the list of the choice *)

Lemma run_layout s modelFileDataID chrModelID textureLayout :
  fdidToChrModel s !! modelFileDataID = Some chrModelID →
  chrModelIDToTextureLayoutID s !! chrModelID = Some textureLayout →
  getChrComponentTextureLayoutIDByChrModelID
    (fdidToChrModel s !! modelFileDataID) s = (Ret (Some textureLayout), s).
Proof.
  intros Hm Hl. unfold getChrComponentTextureLayoutIDByChrModelID.
  rewrite run_gets, Hm. simpl. by rewrite Hl.
Qed.

(** The list is iterated before anything is tested: without a list the
    [for ... of] throws. *)
Lemma getSkinMaterialsForChoice_missing_list s modelFileDataID chrModelID
    textureLayout choiceID :
  fdidToChrModel s !! modelFileDataID = Some chrModelID →
  chrModelIDToTextureLayoutID s !! chrModelID = Some textureLayout →
  textureLayout ≠ 0 →
  choiceToChrCustMaterialID s !! choiceID = None →
  getSkinMaterialsForChoice modelFileDataID choiceID s = (Throw JS.TypeError, s).
Proof.
  intros Hm Hl Hnz Hlist. unfold getSkinMaterialsForChoice.
  rewrite run_bind_gets.
  erewrite run_bind_ret by (by eapply run_layout).
  apply Z.eqb_neq in Hnz. simpl. rewrite Hnz. simpl.
  rewrite run_bind_gets, Hlist. reflexivity.
Qed.

(** An empty list gives [false]. *)
Lemma getSkinMaterialsForChoice_empty_list s modelFileDataID choiceID :
  choiceToChrCustMaterialID s !! choiceID = Some [] →
  getSkinMaterialsForChoice modelFileDataID choiceID s = (Ret JS.JFalse, s).
Proof.
  intros Hlist. unfold getSkinMaterialsForChoice.
  rewrite run_bind_gets.
  unfold getChrComponentTextureLayoutIDByChrModelID. rewrite run_bind_gets.
  destruct (negb _); [done|].
  rewrite run_bind_gets, Hlist. reflexivity.
Qed.

(** C1 (the code departs from it).  In the state loaded from the data
    set, mesh file 1000 resolves to model 1 with texture layout 3, and
    choice 7 has no material-elements list; [getSkinMaterialsForChoice]
    throws a [TypeError] there instead of returning [false]. *)
Theorem getSkinMaterialsForChoice_throws_without_list :
  loaded demo_catalog ∧
  fdidToChrModel demo_catalog !! 1000 = Some 1 ∧
  chrModelIDToTextureLayoutID demo_catalog !! 1 = Some 3 ∧
  choiceToChrCustMaterialID demo_catalog !! 7 = None ∧
  getSkinMaterialsForChoice 1000 7 demo_catalog
  = (Throw JS.TypeError, demo_catalog).
Proof.
  split; [apply demo_catalog_loaded|].
  assert (H1 : fdidToChrModel demo_catalog !! 1000 = Some 1)
    by (vm_compute; reflexivity).
  assert (H2 : chrModelIDToTextureLayoutID demo_catalog !! 1 = Some 3)
    by (vm_compute; reflexivity).
  assert (H3 : choiceToChrCustMaterialID demo_catalog !! 7 = None)
    by (vm_compute; reflexivity).
  refine (conj H1 (conj H2 (conj H3 _))).
  by eapply getSkinMaterialsForChoice_missing_list.
Qed.

(** ** [getTextureForFileDataIDAndChoice]: the resolution steps *)

Lemma texture_of_chrCustMatID_no_record s chrModelID chrCustMatID :
  chrCustMatMap s !! chrCustMatID = None →
  texture_of_chrCustMatID chrModelID chrCustMatID s = (Ret JS.JFalse, s).
Proof.
  intros H. unfold texture_of_chrCustMatID. by rewrite run_bind_gets, H.
Qed.

Lemma texture_of_chrCustMatID_layers s chrModelID chrCustMatID chrCustMatRow
    textureLayout layers :
  chrCustMatMap s !! chrCustMatID = Some chrCustMatRow →
  (chrModelID ≫= λ k, chrModelIDToTextureLayoutID s !! k) = Some textureLayout →
  textureLayout ≠ 0 →
  chrModelTexLayer s !! textureLayout = Some layers →
  texture_of_chrCustMatID chrModelID chrCustMatID s
  = (match layers !! ChrCustMat.ChrModelTextureTargetID chrCustMatRow with
     | None => Ret JS.JFalse
     | Some textureLayer =>
         match matResIDToFileDataID s
                 !! ChrCustMat.MaterialResourcesID chrCustMatRow with
         | None => Ret JS.JFalse
         | Some fileDataID =>
             Ret (JS.JVal {|
               TextureInfo.TextureType :=
                 DB_ChrModelTextureLayer.TextureType textureLayer;
               TextureInfo.FileDataID := fileDataID;
               TextureInfo.TextureSectionTypeBitMask :=
                 DB_ChrModelTextureLayer.TextureSectionTypeBitMask textureLayer |})
         end
     end, s).
Proof.
  intros Hrow Hlayout Hnz Hlayers. unfold texture_of_chrCustMatID.
  rewrite run_bind_gets, Hrow.
  unfold getChrComponentTextureLayoutIDByChrModelID.
  rewrite run_bind_gets, Hlayout. apply Z.eqb_neq in Hnz. simpl.
  rewrite Hnz. simpl. rewrite run_bind_gets, Hlayers.
  destruct (layers !! _); [|done].
  rewrite run_bind_gets. by destruct (matResIDToFileDataID s !! _).
Qed.

(** A layout under which no layer row was registered has no entry in
    [chrModelTexLayer], and [textureTarget in undefined] throws. *)
Lemma texture_of_chrCustMatID_no_layers s chrModelID chrCustMatID chrCustMatRow
    textureLayout :
  chrCustMatMap s !! chrCustMatID = Some chrCustMatRow →
  (chrModelID ≫= λ k, chrModelIDToTextureLayoutID s !! k) = Some textureLayout →
  textureLayout ≠ 0 →
  chrModelTexLayer s !! textureLayout = None →
  texture_of_chrCustMatID chrModelID chrCustMatID s = (Throw JS.TypeError, s).
Proof.
  intros Hrow Hlayout Hnz Hlayers. unfold texture_of_chrCustMatID.
  rewrite run_bind_gets, Hrow.
  unfold getChrComponentTextureLayoutIDByChrModelID.
  rewrite run_bind_gets, Hlayout. apply Z.eqb_neq in Hnz. simpl.
  rewrite Hnz. simpl. by rewrite run_bind_gets, Hlayers.
Qed.

(** C3 (the code departs from it).  In the state loaded from the data
    set, mesh file 1001 resolves to model 2 with texture layout 4, choice 5
    falls back to material 10, which has a flattened record, and no layer
    is registered under layout 4: no TextureLayer exists at (4, 1).
    [getTextureForFileDataIDAndChoice] throws a [TypeError] there instead
    of returning [false]. *)
Theorem getTextureForFileDataIDAndChoice_throws_without_layers :
  loaded demo_catalog ∧
  fdidToChrModel demo_catalog !! 1001 = Some 2 ∧
  chrModelIDToTextureLayoutID demo_catalog !! 2 = Some 4 ∧
  chrModelTexLayer demo_catalog !! 4 = None ∧
  choiceToChrCustMaterialID demo_catalog !! 5
  = Some [demo_element 5 7 0 10; demo_element 5 9 0 11] ∧
  chrCustMatMap demo_catalog !! 10
  = Some {| ChrCustMat.ChrModelTextureTargetID := 1;
            ChrCustMat.MaterialResourcesID := 300 |} ∧
  getTextureForFileDataIDAndChoice [] 1001 5 demo_catalog
  = (Throw JS.TypeError, demo_catalog).
Proof.
  split; [apply demo_catalog_loaded|].
  assert (H1 : fdidToChrModel demo_catalog !! 1001 = Some 2)
    by (vm_compute; reflexivity).
  assert (H2 : chrModelIDToTextureLayoutID demo_catalog !! 2 = Some 4)
    by (vm_compute; reflexivity).
  assert (H3 : chrModelTexLayer demo_catalog !! 4 = None)
    by (vm_compute; reflexivity).
  assert (H4 : choiceToChrCustMaterialID demo_catalog !! 5
               = Some [demo_element 5 7 0 10; demo_element 5 9 0 11])
    by (vm_compute; reflexivity).
  assert (H5 : chrCustMatMap demo_catalog !! 10
               = Some {| ChrCustMat.ChrModelTextureTargetID := 1;
                         ChrCustMat.MaterialResourcesID := 300 |})
    by (vm_compute; reflexivity).
  refine (conj H1 (conj H2 (conj H3 (conj H4 (conj H5 _))))).
  unfold getTextureForFileDataIDAndChoice.
  rewrite run_bind_gets, run_bind_gets, H4.
  change (select_chrCustMatID [] _) with 0. simpl (0 =? 0).
  erewrite run_bind_ret by reflexivity.
  eapply (texture_of_chrCustMatID_no_layers demo_catalog _ 10 _ 4);
    [exact H5 | rewrite H1; simpl; exact H2 | done | exact H3].
Qed.

(** ** [getSkinMaterialsForChoice]: the writes to [skinMats] *)

Lemma write_all_app ws1 ws2 skinMats :
  write_all (ws1 ++ ws2) skinMats = write_all ws2 (write_all ws1 skinMats).
Proof. unfold write_all. apply foldl_app. Qed.

Lemma write_all_lookup_other ws skinMats (k : Z) :
  Forall (λ w, fst w ≠ k) ws →
  write_all ws skinMats !! k = skinMats !! k.
Proof.
  intros H. revert skinMats.
  induction H as [|w ws Hw _ IH]; intros skinMats; simpl; [done|].
  unfold write_all in *. simpl. rewrite IH. by rewrite lookup_insert_ne.
Qed.

(** The section loop of a layer with bit-mask -1 writes the same entry at
    the same index for each section that is not a hole. *)
Lemma sectionLoop_sentinel s textureLayer chrCustMatRow textureSections skinMats :
  DB_ChrModelTextureLayer.TextureSectionTypeBitMask textureLayer = -1 →
  skinMats_sectionLoop textureLayer chrCustMatRow textureSections skinMats s
  = (Ret (match defined_elements textureSections with
          | [] => skinMats
          | _ :: _ =>
              <[DB_ChrModelTextureLayer.Layer textureLayer
                := default_entry textureLayer
                     (matResIDToFileDataID s
                        !! ChrCustMat.MaterialResourcesID chrCustMatRow)]> skinMats
          end), s).
Proof.
  intros Hmask. unfold skinMats_sectionLoop. rewrite Hmask. simpl (-1 =? -1).
  cbv iota. revert skinMats.
  induction textureSections as [|[sec|] l IH]; intros skinMats; simpl.
  - reflexivity.
  - erewrite run_bind_ret by reflexivity. rewrite IH.
    unfold defined_elements. simpl.
    fold (defined_elements l). unfold default_entry.
    destruct (defined_elements l); [done|].
    by rewrite insert_insert_eq.
  - erewrite run_bind_ret by reflexivity. by rewrite IH.
Qed.

(** The section loop of any other layer writes once per section whose bit
    is set. *)
Lemma sectionLoop_masked s textureLayer chrCustMatRow textureSections skinMats :
  DB_ChrModelTextureLayer.TextureSectionTypeBitMask textureLayer ≠ -1 →
  skinMats_sectionLoop textureLayer chrCustMatRow textureSections skinMats s
  = (Ret (write_all
            (map (λ textureSection,
                    (DB_ChrModelTextureLayer.Layer textureLayer,
                     section_entry textureLayer
                       (matResIDToFileDataID s
                          !! ChrCustMat.MaterialResourcesID chrCustMatRow)
                       textureSection))
                 (List.filter
                    (section_bit_set
                       (DB_ChrModelTextureLayer.TextureSectionTypeBitMask textureLayer))
                    (defined_elements textureSections)))
            skinMats), s).
Proof.
  intros Hmask. apply Z.eqb_neq in Hmask.
  unfold skinMats_sectionLoop. rewrite Hmask. cbv iota. revert skinMats.
  induction textureSections as [|[sec|] l IH]; intros skinMats; simpl.
  - reflexivity.
  - unfold defined_elements. simpl. fold (defined_elements l).
    unfold section_bit_set at 1.
    destruct (negb _); simpl.
    + erewrite run_bind_ret by reflexivity. by rewrite IH.
    + erewrite run_bind_ret by reflexivity. by rewrite IH.
  - erewrite run_bind_ret by reflexivity. by rewrite IH.
Qed.

Lemma sectionLoop_writes s textureLayer chrCustMatRow textureSections skinMats :
  skinMats_sectionLoop textureLayer chrCustMatRow textureSections skinMats s
  = (Ret (write_all
            (layer_writes
               (matResIDToFileDataID s
                  !! ChrCustMat.MaterialResourcesID chrCustMatRow)
               textureLayer textureSections)
            skinMats), s).
Proof.
  unfold layer_writes.
  destruct (DB_ChrModelTextureLayer.TextureSectionTypeBitMask textureLayer =? -1)
    eqn:E.
  - apply Z.eqb_eq in E. rewrite sectionLoop_sentinel by done.
    by destruct (defined_elements textureSections).
  - apply Z.eqb_neq in E. by apply sectionLoop_masked.
Qed.

Lemma chrCustMatRows_loop s materials acc :
  foldM (λ chrCustMatRows material,
           row ← gets (λ s, chrCustMatMap s
                              !! DB_ChrCustomizationElement.ChrCustomizationMaterialID
                                   material);
           mret (chrCustMatRows ++ [row]))
        materials acc s
  = (Ret (acc ++ map (λ material,
                        chrCustMatMap s
                          !! DB_ChrCustomizationElement.ChrCustomizationMaterialID
                               material) materials), s).
Proof.
  revert acc. induction materials as [|m l IH]; intros acc; simpl.
  - by rewrite app_nil_r.
  - erewrite run_bind_ret by reflexivity. rewrite IH.
    by rewrite <- app_assoc.
Qed.

Lemma materialLoop_writes s textureLayout layers textureSections materials skinMats :
  chrModelTexLayer s !! textureLayout = Some layers →
  Forall (λ material,
     is_Some (chrCustMatMap s
                !! DB_ChrCustomizationElement.ChrCustomizationMaterialID material))
    materials →
  skinMats_materialLoop textureLayout textureSections
    (map (λ material,
            chrCustMatMap s
              !! DB_ChrCustomizationElement.ChrCustomizationMaterialID material)
         materials)
    skinMats s
  = (Ret (write_all (flat_map (element_writes s layers textureSections) materials)
            skinMats), s).
Proof.
  intros Hlayers Hrows. revert skinMats. unfold skinMats_materialLoop.
  induction Hrows as [|m l [row Hrow] _ IH]; intros skinMats; simpl.
  - reflexivity.
  - rewrite write_all_app. unfold element_writes at 2. rewrite Hrow.
    destruct (layers !! ChrCustMat.ChrModelTextureTargetID row) as [layer|] eqn:E.
    + erewrite run_bind_ret; [apply IH|].
      rewrite run_bind_gets, Hlayers, E. apply sectionLoop_writes.
    + erewrite run_bind_ret; [apply IH|].
      by rewrite run_bind_gets, Hlayers, E.
Qed.

(** The array [getSkinMaterialsForChoice] returns is the result of the
    writes of the choice's material elements, in the order of the list. *)
Lemma getSkinMaterialsForChoice_writes s modelFileDataID chrModelID textureLayout
    choiceID materials layers textureSections :
  fdidToChrModel s !! modelFileDataID = Some chrModelID →
  chrModelIDToTextureLayoutID s !! chrModelID = Some textureLayout →
  textureLayout ≠ 0 →
  choiceToChrCustMaterialID s !! choiceID = Some materials →
  materials ≠ [] →
  Forall (λ material,
     is_Some (chrCustMatMap s
                !! DB_ChrCustomizationElement.ChrCustomizationMaterialID material))
    materials →
  charComponentTextureSectionMap s !! textureLayout = Some textureSections →
  chrModelTexLayer s !! textureLayout = Some layers →
  getSkinMaterialsForChoice modelFileDataID choiceID s
  = (Ret (JS.JVal
            (write_all (flat_map (element_writes s layers textureSections) materials)
               ∅)), s).
Proof.
  intros Hm Hl Hnz Hlist Hne Hrows Hsecs Hlayers.
  unfold getSkinMaterialsForChoice.
  rewrite run_bind_gets.
  erewrite run_bind_ret by (by eapply run_layout).
  apply Z.eqb_neq in Hnz. simpl. rewrite Hnz. simpl.
  rewrite run_bind_gets, Hlist.
  erewrite run_bind_ret by apply chrCustMatRows_loop.
  simpl. rewrite length_map.
  destruct materials as [|m l]; [done|]. simpl (length _ =? 0)%nat. cbv iota.
  rewrite run_bind_gets, Hsecs.
  erewrite run_bind_ret by (by apply materialLoop_writes).
  reflexivity.
Qed.

Lemma element_writes_resolved s layers textureSections material chrCustMatRow
    textureLayer :
  chrCustMatMap s
    !! DB_ChrCustomizationElement.ChrCustomizationMaterialID material
    = Some chrCustMatRow →
  layers !! ChrCustMat.ChrModelTextureTargetID chrCustMatRow = Some textureLayer →
  element_writes s layers textureSections material
  = layer_writes
      (matResIDToFileDataID s !! ChrCustMat.MaterialResourcesID chrCustMatRow)
      textureLayer textureSections.
Proof. intros Hrow Hlayer. unfold element_writes. by rewrite Hrow, Hlayer. Qed.

Lemma flat_map_middle {A B} (f : A → list B) pre x post :
  flat_map f (pre ++ x :: post) = flat_map f pre ++ f x ++ flat_map f post.
Proof. by rewrite flat_map_app. Qed.

Lemma layer_writes_no_element fileDataID textureLayer
    (textureSections : SparseArray DB_CharComponentTextureSections.row) :
  defined_elements textureSections = [] →
  layer_writes fileDataID textureLayer textureSections = [].
Proof.
  intros H. unfold layer_writes. rewrite H.
  by destruct (DB_ChrModelTextureLayer.TextureSectionTypeBitMask textureLayer =? -1).
Qed.

Lemma element_writes_no_element s layers
    (textureSections : SparseArray DB_CharComponentTextureSections.row) materials :
  defined_elements textureSections = [] →
  flat_map (element_writes s layers textureSections) materials = [].
Proof.
  intros H. induction materials as [|m l IH]; simpl; [done|].
  rewrite IH, app_nil_r. unfold element_writes.
  destruct (chrCustMatMap s !! _) as [row|]; [|done].
  destruct (layers !! _); [|done].
  by apply layer_writes_no_element.
Qed.

(** Line 335: with no section array registered for the layout the function
    returns [false], whatever the layers. *)
Lemma getSkinMaterialsForChoice_no_sections s modelFileDataID chrModelID
    textureLayout choiceID materials :
  fdidToChrModel s !! modelFileDataID = Some chrModelID →
  chrModelIDToTextureLayoutID s !! chrModelID = Some textureLayout →
  textureLayout ≠ 0 →
  choiceToChrCustMaterialID s !! choiceID = Some materials →
  materials ≠ [] →
  charComponentTextureSectionMap s !! textureLayout = None →
  getSkinMaterialsForChoice modelFileDataID choiceID s = (Ret JS.JFalse, s).
Proof.
  intros Hm Hl Hnz Hlist Hne Hsecs.
  unfold getSkinMaterialsForChoice.
  rewrite run_bind_gets.
  erewrite run_bind_ret by (by eapply run_layout).
  apply Z.eqb_neq in Hnz. simpl. rewrite Hnz. simpl.
  rewrite run_bind_gets, Hlist.
  erewrite run_bind_ret by apply chrCustMatRows_loop.
  simpl. rewrite length_map.
  destruct materials as [|m l]; [done|]. simpl (length _ =? 0)%nat. cbv iota.
  by rewrite run_bind_gets, Hsecs.
Qed.

(** C4 (as the code has it).  Let the model's layout be non-zero and the
    choice's list be [pre ++ material :: post].  If no section array is
    registered for the layout, [getSkinMaterialsForChoice] returns
    [false].  Otherwise, let every element of the list have a flattened
    material record and [material] resolve to a layer of the layout whose
    bit-mask is -1.  The function returns the array obtained by the writes
    of [pre], then, if the section array has at least one element that is
    not a hole, one write at the layer's ordinal of the entry with
    position (0,0) and size 1024x512, however many such elements there
    are, then the writes of [post]; so that entry is the one found at the
    layer's ordinal unless a later element writes the same ordinal.  If
    the section array has no element (every section row of the layout had
    a section type that is not an array index), the returned array is
    empty. *)
Theorem sentinel_layer_one_entry :
  ∀ (s : Catalog) (modelFileDataID chrModelID textureLayout choiceID : Z)
    (pre post : list DB_ChrCustomizationElement.row)
    (material : DB_ChrCustomizationElement.row),
    fdidToChrModel s !! modelFileDataID = Some chrModelID →
    chrModelIDToTextureLayoutID s !! chrModelID = Some textureLayout →
    textureLayout ≠ 0 →
    choiceToChrCustMaterialID s !! choiceID = Some (pre ++ material :: post) →
    (charComponentTextureSectionMap s !! textureLayout = None →
     getSkinMaterialsForChoice modelFileDataID choiceID s = (Ret JS.JFalse, s)) ∧
    (∀ (chrCustMatRow : ChrCustMat.t)
       (layers : gmap Z DB_ChrModelTextureLayer.row)
       (textureSections : SparseArray DB_CharComponentTextureSections.row)
       (textureLayer : DB_ChrModelTextureLayer.row),
       Forall (λ material,
          is_Some (chrCustMatMap s
                     !! DB_ChrCustomizationElement.ChrCustomizationMaterialID material))
         (pre ++ material :: post) →
       charComponentTextureSectionMap s !! textureLayout = Some textureSections →
       chrModelTexLayer s !! textureLayout = Some layers →
       chrCustMatMap s
         !! DB_ChrCustomizationElement.ChrCustomizationMaterialID material
         = Some chrCustMatRow →
       layers !! ChrCustMat.ChrModelTextureTargetID chrCustMatRow = Some textureLayer →
       DB_ChrModelTextureLayer.TextureSectionTypeBitMask textureLayer = -1 →
       let entry :=
         {| SkinMat.TextureType := DB_ChrModelTextureLayer.TextureType textureLayer;
            SkinMat.FileDataID :=
              matResIDToFileDataID s !! ChrCustMat.MaterialResourcesID chrCustMatRow;
            SkinMat.size := JS.mkVector2 1024 512;
            SkinMat.position := JS.mkVector2 0 0 |} in
       let before :=
         write_all (flat_map (element_writes s layers textureSections) pre) ∅ in
       let skinMats :=
         write_all (flat_map (element_writes s layers textureSections) post)
           (match defined_elements textureSections with
            | [] => before
            | _ :: _ => <[DB_ChrModelTextureLayer.Layer textureLayer := entry]> before
            end) in
       getSkinMaterialsForChoice modelFileDataID choiceID s
       = (Ret (JS.JVal skinMats), s) ∧
       (defined_elements textureSections ≠ [] →
        Forall (λ w, fst w ≠ DB_ChrModelTextureLayer.Layer textureLayer)
          (flat_map (element_writes s layers textureSections) post) →
        skinMats !! DB_ChrModelTextureLayer.Layer textureLayer = Some entry) ∧
       (defined_elements textureSections = [] → skinMats = ∅)).
Proof.
  intros s modelFileDataID chrModelID textureLayout choiceID pre post material
    Hm Hl Hnz Hlist.
  split.
  - intros Hnone.
    eapply getSkinMaterialsForChoice_no_sections; try eassumption.
    by destruct pre.
  - intros chrCustMatRow layers textureSections textureLayer
      Hrows Hsecs Hlayers Hrow Hlayer Hmask entry before skinMats.
    split; [|split].
    + erewrite getSkinMaterialsForChoice_writes; try eassumption;
        [|by destruct pre].
      rewrite flat_map_middle, !write_all_app.
      rewrite (element_writes_resolved _ _ _ _ _ _ Hrow Hlayer).
      unfold layer_writes. rewrite Hmask. simpl (-1 =? -1). cbv iota.
      subst skinMats before.
      by destruct (defined_elements textureSections).
    + intros Hdef Hpost. subst skinMats.
      rewrite write_all_lookup_other by done.
      destruct (defined_elements textureSections); [done|].
      apply lookup_insert_eq.
    + intros Hdef. subst skinMats before.
      rewrite !element_writes_no_element by done. by rewrite Hdef.
Qed.

Lemma sentinel_layer_one_entry_witness :
  (∃ skinMats,
     getSkinMaterialsForChoice 1000 5 demo_catalog
     = (Ret (JS.JVal skinMats), demo_catalog) ∧
     skinMats !! 0
     = Some {| SkinMat.TextureType := 1;
               SkinMat.FileDataID := Some 9001;
               SkinMat.size := JS.mkVector2 1024 512;
               SkinMat.position := JS.mkVector2 0 0 |}) ∧
  getSkinMaterialsForChoice 1000 5 offindex_catalog
  = (Ret (JS.JVal ∅), offindex_catalog) ∧
  getSkinMaterialsForChoice 1003 5 demo_catalog = (Ret JS.JFalse, demo_catalog).
Proof.
  split; [|split].
  - destruct (sentinel_layer_one_entry demo_catalog 1000 1 3 5
                [] [demo_element 5 9 0 11] (demo_element 5 7 0 10)
                ltac:(vm_compute; reflexivity) ltac:(vm_compute; reflexivity)
                ltac:(lia) ltac:(vm_compute; reflexivity)) as [_ Hsome].
    destruct (Hsome
                {| ChrCustMat.ChrModelTextureTargetID := 1;
                   ChrCustMat.MaterialResourcesID := 300 |}
                {[ 1 := demo_layer 60 1 0 (-1) 1 3; 2 := demo_layer 61 2 1 5 2 3 ]}
                [Some (demo_section 3 0 0 0 256 512);
                 Some (demo_section 3 1 512 0 64 64);
                 Some (demo_section 3 2 256 0 128 64)]
                (demo_layer 60 1 0 (-1) 1 3)
                ltac:(compute_done) ltac:(vm_compute; reflexivity)
                ltac:(vm_compute; reflexivity) ltac:(vm_compute; reflexivity)
                ltac:(vm_compute; reflexivity) ltac:(vm_compute; reflexivity))
      as (Hrun & Hlookup & _).
    eexists. split; [exact Hrun|].
    refine (Hlookup _ _); [vm_compute; discriminate | compute_done].
  - destruct (sentinel_layer_one_entry offindex_catalog 1000 1 3 5
                [] [demo_element 5 9 0 11] (demo_element 5 7 0 10)
                ltac:(vm_compute; reflexivity) ltac:(vm_compute; reflexivity)
                ltac:(lia) ltac:(vm_compute; reflexivity)) as [_ Hsome].
    destruct (Hsome
                {| ChrCustMat.ChrModelTextureTargetID := 1;
                   ChrCustMat.MaterialResourcesID := 300 |}
                {[ 1 := demo_layer 60 1 0 (-1) 1 3; 2 := demo_layer 61 2 1 5 2 3 ]}
                [] (demo_layer 60 1 0 (-1) 1 3)
                ltac:(compute_done) ltac:(vm_compute; reflexivity)
                ltac:(vm_compute; reflexivity) ltac:(vm_compute; reflexivity)
                ltac:(vm_compute; reflexivity) ltac:(vm_compute; reflexivity))
      as (Hrun & _ & Hempty).
    rewrite Hrun. by rewrite (Hempty eq_refl).
  - destruct (sentinel_layer_one_entry demo_catalog 1003 4 5 5
                [] [demo_element 5 9 0 11] (demo_element 5 7 0 10)
                ltac:(vm_compute; reflexivity) ltac:(vm_compute; reflexivity)
                ltac:(lia) ltac:(vm_compute; reflexivity)) as [Hnone _].
    apply Hnone. vm_compute. reflexivity.
Defined.

(** C4 as stated fails: mesh file 1003 resolves to model 4 with layout 5,
    element (choice 5, material 10) resolves to the layer registered at
    (5, 1), whose bit-mask is -1, and no section is registered under
    layout 5; [getSkinMaterialsForChoice] returns [false], no entry. *)
Lemma sentinel_always_one_entry_refuted : ¬ sentinel_always_one_entry.
Proof.
  intros H.
  destruct (H demo_catalog 1003 4 5 5
              [demo_element 5 7 0 10; demo_element 5 9 0 11]
              (demo_element 5 7 0 10)
              {| ChrCustMat.ChrModelTextureTargetID := 1;
                 ChrCustMat.MaterialResourcesID := 300 |}
              {[ 1 := demo_layer 63 1 0 (-1) 1 5 ]}
              (demo_layer 63 1 0 (-1) 1 5)) as (skinMats & Hrun & _).
  - apply demo_catalog_loaded.
  - vm_compute. reflexivity.
  - vm_compute. reflexivity.
  - lia.
  - vm_compute. reflexivity.
  - left.
  - vm_compute. reflexivity.
  - vm_compute. reflexivity.
  - vm_compute. reflexivity.
  - reflexivity.
  - apply (f_equal fst) in Hrun. vm_compute in Hrun. discriminate Hrun.
Qed.

Example no_sections_gives_false :
  getSkinMaterialsForChoice 1003 5 demo_catalog = (Ret JS.JFalse, demo_catalog).
Proof. vm_compute. reflexivity. Qed.

(** Writes that all go to one index leave there the last of them. *)
Lemma write_all_same_index {A} (k : Z) (f : A → SkinMat.t) (l : list A) skinMats :
  write_all (map (λ a, (k, f a)) l) skinMats !! k
  = match last l with
    | Some a => Some (f a)
    | None => skinMats !! k
    end.
Proof.
  revert skinMats. induction l as [|a l IH]; intros skinMats; [done|].
  unfold write_all in *. simpl. rewrite IH, last_cons.
  destruct (last l); [done|]. apply lookup_insert_eq.
Qed.

(** C5 (as the code has it).  Let the choice's list be
    [pre ++ material :: post], every element of it with a flattened
    material record, and let [material] resolve to a layer of the model's
    layout whose bit-mask is not -1.  [getSkinMaterialsForChoice] returns
    the array obtained by the writes of [pre], then, in the order of the
    layout's section array, one write per section whose bit is set in the
    mask and none for the others, each at the layer's ordinal and with
    that section's X, Y, Width and Height, then the writes of [post].  The
    bit of a section is bit number [SectionType mod 32] of the mask in
    two's complement, which is what [mask & (1 << SectionType)] tests.
    All these writes go to one index, so the array has one entry for the
    layer, not one per section: unless a later element writes the same
    ordinal, the entry there is that of the last section whose bit is set,
    and when no section has its bit set the layer leaves the array as the
    elements before left it. *)
Theorem masked_layer_one_write_per_section :
  ∀ (s : Catalog) (modelFileDataID chrModelID textureLayout choiceID : Z)
    (pre post : list DB_ChrCustomizationElement.row)
    (material : DB_ChrCustomizationElement.row)
    (chrCustMatRow : ChrCustMat.t)
    (layers : gmap Z DB_ChrModelTextureLayer.row)
    (textureSections : SparseArray DB_CharComponentTextureSections.row)
    (textureLayer : DB_ChrModelTextureLayer.row),
    fdidToChrModel s !! modelFileDataID = Some chrModelID →
    chrModelIDToTextureLayoutID s !! chrModelID = Some textureLayout →
    textureLayout ≠ 0 →
    choiceToChrCustMaterialID s !! choiceID = Some (pre ++ material :: post) →
    Forall (λ material,
       is_Some (chrCustMatMap s
                  !! DB_ChrCustomizationElement.ChrCustomizationMaterialID material))
      (pre ++ material :: post) →
    charComponentTextureSectionMap s !! textureLayout = Some textureSections →
    chrModelTexLayer s !! textureLayout = Some layers →
    chrCustMatMap s
      !! DB_ChrCustomizationElement.ChrCustomizationMaterialID material
      = Some chrCustMatRow →
    layers !! ChrCustMat.ChrModelTextureTargetID chrCustMatRow = Some textureLayer →
    DB_ChrModelTextureLayer.TextureSectionTypeBitMask textureLayer ≠ -1 →
    let entry (textureSection : DB_CharComponentTextureSections.row) :=
      {| SkinMat.TextureType := DB_ChrModelTextureLayer.TextureType textureLayer;
         SkinMat.FileDataID :=
           matResIDToFileDataID s !! ChrCustMat.MaterialResourcesID chrCustMatRow;
         SkinMat.size :=
           JS.mkVector2 (DB_CharComponentTextureSections.Width textureSection)
                        (DB_CharComponentTextureSections.Height textureSection);
         SkinMat.position :=
           JS.mkVector2 (DB_CharComponentTextureSections.X textureSection)
                        (DB_CharComponentTextureSections.Y textureSection) |} in
    let sections_set :=
      List.filter
        (λ textureSection,
           Z.testbit
             (DB_ChrModelTextureLayer.TextureSectionTypeBitMask textureLayer)
             (DB_CharComponentTextureSections.SectionType textureSection mod 32))
        (defined_elements textureSections) in
    let before :=
      write_all (flat_map (element_writes s layers textureSections) pre) ∅ in
    let skinMats :=
      write_all (flat_map (element_writes s layers textureSections) post)
        (write_all
           (map (λ textureSection,
                   (DB_ChrModelTextureLayer.Layer textureLayer, entry textureSection))
                sections_set)
           before) in
    getSkinMaterialsForChoice modelFileDataID choiceID s
    = (Ret (JS.JVal skinMats), s) ∧
    (Forall (λ w, fst w ≠ DB_ChrModelTextureLayer.Layer textureLayer)
       (flat_map (element_writes s layers textureSections) post) →
     skinMats !! DB_ChrModelTextureLayer.Layer textureLayer
     = match last sections_set with
       | Some textureSection => Some (entry textureSection)
       | None => before !! DB_ChrModelTextureLayer.Layer textureLayer
       end).
Proof.
  intros s modelFileDataID chrModelID textureLayout choiceID pre post material
    chrCustMatRow layers textureSections textureLayer
    Hm Hl Hnz Hlist Hrows Hsecs Hlayers Hrow Hlayer Hmask
    entry sections_set before skinMats.
  split.
  - erewrite getSkinMaterialsForChoice_writes; try eassumption;
      [|by destruct pre].
    rewrite flat_map_middle, !write_all_app.
    rewrite (element_writes_resolved _ _ _ _ _ _ Hrow Hlayer).
    unfold layer_writes. apply Z.eqb_neq in Hmask. rewrite Hmask.
    assert (Hf : List.filter
                   (section_bit_set
                      (DB_ChrModelTextureLayer.TextureSectionTypeBitMask textureLayer))
                   (defined_elements textureSections)
                 = sections_set).
    { apply List.filter_ext. intros textureSection.
      apply section_bit_set_testbit. }
    rewrite Hf. reflexivity.
  - intros Hpost. subst skinMats.
    rewrite write_all_lookup_other by done.
    apply write_all_same_index.
Qed.

Lemma masked_layer_one_write_per_section_witness :
  getSkinMaterialsForChoice 1000 5 edge_catalog
  = (Ret (JS.JVal
            (<[1 := {| SkinMat.TextureType := 2;
                       SkinMat.FileDataID := Some 9002;
                       SkinMat.size := JS.mkVector2 64 64;
                       SkinMat.position := JS.mkVector2 512 0 |}]>
               (<[1 := {| SkinMat.TextureType := 2;
                          SkinMat.FileDataID := Some 9002;
                          SkinMat.size := JS.mkVector2 256 512;
                          SkinMat.position := JS.mkVector2 0 0 |}]>
                  (<[0 := {| SkinMat.TextureType := 1;
                             SkinMat.FileDataID := Some 9001;
                             SkinMat.size := JS.mkVector2 1024 512;
                             SkinMat.position := JS.mkVector2 0 0 |}]> ∅)))),
     edge_catalog) ∧
  (<[1 := {| SkinMat.TextureType := 2;
             SkinMat.FileDataID := Some 9002;
             SkinMat.size := JS.mkVector2 64 64;
             SkinMat.position := JS.mkVector2 512 0 |}]>
     (<[1 := {| SkinMat.TextureType := 2;
                SkinMat.FileDataID := Some 9002;
                SkinMat.size := JS.mkVector2 256 512;
                SkinMat.position := JS.mkVector2 0 0 |}]>
        (<[0 := {| SkinMat.TextureType := 1;
                   SkinMat.FileDataID := Some 9001;
                   SkinMat.size := JS.mkVector2 1024 512;
                   SkinMat.position := JS.mkVector2 0 0 |}]> ∅))
     : gmap Z SkinMat.t) !! 1
  = Some {| SkinMat.TextureType := 2;
            SkinMat.FileDataID := Some 9002;
            SkinMat.size := JS.mkVector2 64 64;
            SkinMat.position := JS.mkVector2 512 0 |}.
Proof.
  destruct (masked_layer_one_write_per_section edge_catalog 1000 1 3 5
              [demo_element 5 7 0 10] [] (demo_element 5 9 0 11)
              {| ChrCustMat.ChrModelTextureTargetID := 2;
                 ChrCustMat.MaterialResourcesID := 301 |}
              {[ 1 := demo_layer 60 1 0 (-1) 1 3; 2 := demo_layer 61 2 1 3 2 3 ]}
              [Some (demo_section 3 0 0 0 256 512);
               Some (demo_section 3 1 512 0 64 64);
               Some (demo_section 3 2 256 0 128 64)]
              (demo_layer 61 2 1 3 2 3)
              ltac:(vm_compute; reflexivity) ltac:(vm_compute; reflexivity)
              ltac:(lia) ltac:(vm_compute; reflexivity) ltac:(compute_done)
              ltac:(vm_compute; reflexivity) ltac:(vm_compute; reflexivity)
              ltac:(vm_compute; reflexivity) ltac:(vm_compute; reflexivity)
              ltac:(vm_compute; discriminate)) as [Hrun Hlast].
  split.
  - exact Hrun.
  - exact (Hlast ltac:(constructor)).
Defined.

(** C5 as stated fails: in the data set the layer at texture target 2 of
    layout 3 has bit-mask 5 and the sections of types 0 and 2 have their
    bits set; the array returned for mesh file 1000 and choice 5 has one
    entry for the layer, with the rectangle of section 2, and none with
    the rectangle of section 0. *)
Lemma one_entry_per_set_section_refuted : ¬ one_entry_per_set_section.
Proof.
  intros H.
  destruct (H demo_catalog 1000 1 3 5
              [demo_element 5 7 0 10; demo_element 5 9 0 11]
              (demo_element 5 9 0 11)
              {| ChrCustMat.ChrModelTextureTargetID := 2;
                 ChrCustMat.MaterialResourcesID := 301 |}
              {[ 1 := demo_layer 60 1 0 (-1) 1 3; 2 := demo_layer 61 2 1 5 2 3 ]}
              [Some (demo_section 3 0 0 0 256 512);
               Some (demo_section 3 1 512 0 64 64);
               Some (demo_section 3 2 256 0 128 64)]
              (demo_layer 61 2 1 5 2 3)
              (demo_section 3 0 0 0 256 512))
    as (skinMats & k & Hrun & Hk).
  - apply demo_catalog_loaded.
  - vm_compute. reflexivity.
  - vm_compute. reflexivity.
  - lia.
  - vm_compute. reflexivity.
  - right. left.
  - compute_done.
  - vm_compute. reflexivity.
  - vm_compute. reflexivity.
  - vm_compute. reflexivity.
  - vm_compute. reflexivity.
  - vm_compute. discriminate.
  - left.
  - reflexivity.
  - assert (E : fst (getSkinMaterialsForChoice 1000 5 demo_catalog)
                = Ret (JS.JVal
                         {[ 0 := {| SkinMat.TextureType := 1;
                                    SkinMat.FileDataID := Some 9001;
                                    SkinMat.size := JS.mkVector2 1024 512;
                                    SkinMat.position := JS.mkVector2 0 0 |};
                            1 := {| SkinMat.TextureType := 2;
                                    SkinMat.FileDataID := Some 9002;
                                    SkinMat.size := JS.mkVector2 128 64;
                                    SkinMat.position := JS.mkVector2 256 0 |} ]}))
      by (vm_compute; reflexivity).
    rewrite Hrun in E. simpl in E. injection E as ->.
    destruct (decide (k = 0)) as [->|H0].
    { vm_compute in Hk. discriminate Hk. }
    destruct (decide (k = 1)) as [->|H1].
    { vm_compute in Hk. discriminate Hk. }
    rewrite lookup_insert_ne, lookup_singleton_ne in Hk by done.
    discriminate Hk.
Qed.

Example bit_mask_scenario :
  fst (getSkinMaterialsForChoice 1000 5 demo_catalog)
  = Ret (JS.JVal
           {[ 0 := {| SkinMat.TextureType := 1;
                      SkinMat.FileDataID := Some 9001;
                      SkinMat.size := JS.mkVector2 1024 512;
                      SkinMat.position := JS.mkVector2 0 0 |};
              1 := {| SkinMat.TextureType := 2;
                      SkinMat.FileDataID := Some 9002;
                      SkinMat.size := JS.mkVector2 128 64;
                      SkinMat.position := JS.mkVector2 256 0 |} ]}).
Proof. vm_compute. reflexivity. Qed.

(** ** Decimal strings *)

#[local] Arguments JS.ascii_of_digit : simpl never.
#[local] Arguments JS.digit_of_ascii : simpl never.
#[local] Arguments Z.pow : simpl never.
#[local] Arguments Z.mul : simpl never.

Lemma digit_roundtrip d :
  0 ≤ d ≤ 9 → JS.digit_of_ascii (JS.ascii_of_digit d) = Some d.
Proof.
  intros H.
  assert (Hd : d = 0 ∨ d = 1 ∨ d = 2 ∨ d = 3 ∨ d = 4 ∨ d = 5 ∨ d = 6 ∨ d = 7
               ∨ d = 8 ∨ d = 9) by lia.
  repeat (destruct Hd as [->|Hd]; [reflexivity|]). by subst.
Qed.

Lemma string_app_cons c (s t : string) :
  String.append (String c s) t = String c (String.append s t).
Proof. reflexivity. Qed.

Lemma string_app_assoc (s1 s2 s3 : string) :
  String.append (String.append s1 s2) s3 = String.append s1 (String.append s2 s3).
Proof.
  induction s1 as [|c s1 IH]; [reflexivity|].
  rewrite !string_app_cons. by rewrite IH.
Qed.

Lemma string_length_app (s1 s2 : string) :
  String.length (String.append s1 s2) = (String.length s1 + String.length s2)%nat.
Proof.
  induction s1 as [|c s1 IH]; [reflexivity|].
  rewrite string_app_cons. simpl. by rewrite IH.
Qed.

Lemma digits_acc fuel n acc :
  JS.digits fuel n acc = String.append (JS.digits fuel n "") acc.
Proof.
  revert n acc. induction fuel as [|fuel IH]; intros n acc; simpl; [reflexivity|].
  destruct (n / 10 =? 0); [reflexivity|].
  rewrite IH, (IH _ (String _ "")), string_app_assoc. reflexivity.
Qed.

Lemma pos_lt_pow10 p : Z.pos p < 10 ^ Z.of_nat (Pos.size_nat p).
Proof.
  assert (H2 : Z.pos p < 2 ^ Z.of_nat (Pos.size_nat p)).
  { induction p as [p IH|p IH|]; simpl Pos.size_nat;
      rewrite ?Nat2Z.inj_succ, ?Z.pow_succ_r by lia; lia. }
  eapply Z.lt_le_trans; [exact H2|].
  apply Z.pow_le_mono_l. lia.
Qed.

Lemma parse_digits_cons a c s :
  JS.parse_digits a (String c s)
  = match JS.digit_of_ascii c with
    | Some d => JS.parse_digits (10 * a + d) s
    | None => None
    end.
Proof. reflexivity. Qed.

Lemma parse_digits_digit a d s :
  0 ≤ d ≤ 9 →
  JS.parse_digits a (String (JS.ascii_of_digit d) s)
  = JS.parse_digits (10 * a + d) s.
Proof. intros Hd. by rewrite parse_digits_cons, digit_roundtrip. Qed.

(** Parsing the digits of [n] multiplies what was read so far by the
    power of ten of their number and adds [n]. *)
Lemma parse_digits_digits fuel n acc a :
  0 ≤ n < 10 ^ Z.of_nat fuel →
  JS.parse_digits a (JS.digits fuel n acc)
  = JS.parse_digits (a * 10 ^ Z.of_nat (String.length (JS.digits fuel n "")) + n) acc.
Proof.
  revert n acc a. induction fuel as [|fuel IH]; intros n acc a Hn.
  - change (10 ^ Z.of_nat 0) with 1 in Hn.
    change (JS.digits 0 n acc) with acc. change (JS.digits 0 n "") with "".
    f_equal. change (10 ^ Z.of_nat (String.length "")) with 1. lia.
  - rewrite Nat2Z.inj_succ, Z.pow_succ_r in Hn by lia.
    cbn [JS.digits].
    assert (Hmod : 0 ≤ n mod 10 ≤ 9) by (pose proof (Z.mod_pos_bound n 10); lia).
    pose proof (Z.div_mod n 10 ltac:(lia)) as Hdiv.
    destruct (n / 10 =? 0) eqn:E.
    + apply Z.eqb_eq in E. rewrite parse_digits_digit by done.
      f_equal. change (10 ^ Z.of_nat (String.length (String _ ""))) with 10. lia.
    + apply Z.eqb_neq in E.
      rewrite IH by (split; [apply Z.div_pos; lia | apply Z.div_lt_upper_bound; lia]).
      rewrite (digits_acc fuel (n / 10) (String _ "")), string_length_app.
      rewrite parse_digits_digit by done.
      f_equal. change (String.length (String _ "")) with 1%nat.
      rewrite Nat2Z.inj_add, Z.pow_add_r by lia.
      change (10 ^ Z.of_nat 1) with 10. lia.
Qed.

(** The digits of a positive [n] are as many as its decimal size. *)
Lemma digits_length_bounds fuel n :
  0 < n < 10 ^ Z.of_nat fuel →
  let k := Z.of_nat (String.length (JS.digits fuel n "")) in
  1 ≤ k ∧ 10 ^ (k - 1) ≤ n < 10 ^ k.
Proof.
  revert n. induction fuel as [|fuel IH]; intros n Hn.
  - simpl in Hn. lia.
  - rewrite Nat2Z.inj_succ, Z.pow_succ_r in Hn by lia.
    simpl JS.digits.
    pose proof (Z.mod_pos_bound n 10 ltac:(lia)) as Hmod.
    pose proof (Z.div_mod n 10 ltac:(lia)) as Hdiv.
    destruct (n / 10 =? 0) eqn:E.
    + apply Z.eqb_eq in E. simpl. lia.
    + apply Z.eqb_neq in E.
      assert (Hq : 0 < n / 10 < 10 ^ Z.of_nat fuel).
      { split; [|apply Z.div_lt_upper_bound; lia].
        pose proof (Z.div_pos n 10 ltac:(lia) ltac:(lia)). lia. }
      specialize (IH _ Hq). simpl in IH.
      rewrite (digits_acc fuel (n / 10) (String _ "")), string_length_app.
      simpl String.length. rewrite Nat2Z.inj_add. change (Z.of_nat 1) with 1.
      set (k := Z.of_nat (String.length (JS.digits fuel (n / 10) ""))) in *.
      simpl. replace (k + 1 - 1) with (Z.succ (k - 1)) by lia.
      replace (k + 1) with (Z.succ k) by lia.
      rewrite !Z.pow_succ_r by lia. lia.
Qed.

Lemma toString_nonneg_parse z a :
  0 ≤ z →
  JS.parse_digits a (JS.toString z)
  = Some (a * 10 ^ Z.of_nat (String.length (JS.toString z)) + z).
Proof.
  intros Hz. destruct z as [|p|p]; [| |lia].
  - change (JS.toString 0) with "0".
    change (JS.parse_digits a "0") with (Some (10 * a + 0)).
    change (10 ^ Z.of_nat (String.length "0")) with 10. f_equal. lia.
  - unfold JS.toString.
    rewrite parse_digits_digits by (pose proof (pos_lt_pow10 p); lia).
    reflexivity.
Qed.

Lemma toString_length_bounds z :
  0 ≤ z →
  let k := Z.of_nat (String.length (JS.toString z)) in
  1 ≤ k ∧ z < 10 ^ k ∧ (k = 1 ∨ 10 ^ (k - 1) ≤ z).
Proof.
  intros Hz. destruct z as [|p|p]; [| |lia].
  - simpl. lia.
  - unfold JS.toString.
    pose proof (digits_length_bounds (Pos.size_nat p) (Z.pos p)
                  ltac:(pose proof (pos_lt_pow10 p); lia)) as H.
    simpl in H. simpl. lia.
Qed.

Lemma parse_digits_zeros k s a :
  JS.parse_digits a (String.append (JS.repeat_char "0" k) s)
  = JS.parse_digits (a * 10 ^ Z.of_nat k) s.
Proof.
  revert a. induction k as [|k IH]; intros a.
  - change (String.append (JS.repeat_char "0" 0) s) with s.
    change (10 ^ Z.of_nat 0) with 1. f_equal. lia.
  - change (String.append (JS.repeat_char "0" (S k)) s)
      with (String "0" (String.append (JS.repeat_char "0" k) s)).
    change "0"%char with (JS.ascii_of_digit 0) at 1.
    rewrite parse_digits_digit by lia.
    rewrite IH. f_equal. rewrite Nat2Z.inj_succ, Z.pow_succ_r by lia. lia.
Qed.

Lemma padStart_length s :
  String.length (JS.padStart 2 "0" s) = Nat.max 2 (String.length s).
Proof.
  unfold JS.padStart. rewrite string_length_app.
  assert (Hr : ∀ n, String.length (JS.repeat_char "0" n) = n)
    by (induction n as [|n IH]; simpl; [done | by rewrite IH]).
  rewrite Hr. lia.
Qed.

Lemma padStart_parse z a :
  0 ≤ z →
  JS.parse_digits a (JS.padStart 2 "0" (JS.toString z))
  = Some (a * 10 ^ Z.of_nat (String.length (JS.padStart 2 "0" (JS.toString z)))
          + z).
Proof.
  intros Hz. rewrite padStart_length. unfold JS.padStart.
  rewrite parse_digits_zeros, toString_nonneg_parse by done.
  f_equal. rewrite <- Z.mul_assoc, <- Z.pow_add_r by lia.
  do 3 f_equal. lia.
Qed.

Lemma parse_digits_app s1 s2 a :
  JS.parse_digits a (String.append s1 s2)
  = JS.parse_digits a s1 ≫= λ a', JS.parse_digits a' s2.
Proof.
  revert a. induction s1 as [|c s1 IH]; intros a; simpl; [done|].
  destruct (JS.digit_of_ascii c); [apply IH|done].
Qed.

(** On a string that starts with a digit, [Number] is the parse. *)
Lemma Number_digits c s n :
  JS.parse_digits 0 (String c s) = Some n →
  JS.Number (String c s) = JS.Num (JS.roundDouble n).
Proof.
  intros H.
  assert (Hc : c ≠ "-"%char).
  { intros ->. simpl in H. discriminate H. }
  unfold JS.Number.
  destruct c as [[] [] [] [] [] [] [] []]; try (by rewrite H); by destruct Hc.
Qed.

Lemma padStart_starts z :
  ∃ c s, JS.padStart 2 "0" (JS.toString z) = String c s.
Proof.
  pose proof (padStart_length (JS.toString z)) as H.
  destruct (JS.padStart 2 "0" (JS.toString z)) as [|c s]; [simpl in H; lia|].
  by exists c, s.
Qed.

Lemma roundDouble_exact n : Z.abs n ≤ 2 ^ 53 → JS.roundDouble n = n.
Proof.
  intros H. unfold JS.roundDouble. apply Z.leb_le in H. by rewrite H.
Qed.

(** The key of a geoset row with non-negative tags. *)
Lemma encodeGeoset_value GeosetType GeosetID :
  0 ≤ GeosetType → 0 ≤ GeosetID →
  encodeGeoset GeosetType GeosetID
  = JS.Num (JS.roundDouble
              (GeosetType
               * 10 ^ Z.of_nat (String.length
                                  (JS.padStart 2 "0" (JS.toString GeosetID)))
               + GeosetID)).
Proof.
  intros Hg Hv. unfold encodeGeoset.
  destruct (padStart_starts GeosetType) as (c & s & Hs).
  assert (Hparse :
    JS.parse_digits 0
      (String.append (JS.padStart 2 "0" (JS.toString GeosetType))
                     (JS.padStart 2 "0" (JS.toString GeosetID)))
    = Some (GeosetType
            * 10 ^ Z.of_nat (String.length (JS.padStart 2 "0" (JS.toString GeosetID)))
            + GeosetID)).
  { rewrite parse_digits_app, padStart_parse by done. simpl.
    by rewrite padStart_parse. }
  rewrite Hs in *. simpl String.append in *. by apply Number_digits.
Qed.

Lemma padded_width_bounds z :
  0 ≤ z →
  let k := Z.of_nat (String.length (JS.padStart 2 "0" (JS.toString z))) in
  2 ≤ k ∧ z < 10 ^ k ∧ (k = 2 ∨ 10 ^ (k - 1) ≤ z).
Proof.
  intros Hz. rewrite padStart_length.
  destruct (toString_length_bounds z Hz) as (H1 & H2 & H3).
  set (n := String.length (JS.toString z)) in *.
  destruct (decide (n ≤ 2)%nat) as [Hn|Hn].
  - rewrite Nat.max_l by lia. simpl. split; [lia|]. split; [|by left].
    eapply Z.lt_le_trans; [exact H2|].
    change (10 ^ 2) with (10 ^ Z.of_nat 2). apply Z.pow_le_mono_r; lia.
  - rewrite Nat.max_r by lia. simpl. split; [lia|]. split; [done|].
    right. destruct H3; [lia|done].
Qed.

Example encodeGeoset_1_5 : encodeGeoset 1 5 = JS.Num 105.
Proof. reflexivity. Qed.

Example encodeGeoset_12_3 : encodeGeoset 12 3 = JS.Num 1203.
Proof. reflexivity. Qed.

Example encodeGeoset_three_digits : encodeGeoset 1 123 = JS.Num 1123.
Proof. reflexivity. Qed.

(** ** The geoset maps after [loadTables] *)

Lemma run_bind_inv {A B} (m : M A) (k : A → M B) s b s' :
  (m ≫= k) s = (Ret b, s') →
  ∃ a s1, m s = (Ret a, s1) ∧ k a s1 = (Ret b, s').
Proof.
  unfold mbind, M_bind. destruct (m s) as [[a|e] s1]; intros H.
  - by exists a, s1.
  - discriminate H.
Qed.

Lemma preserves_run {A} (P : Catalog → Prop) (m : M A) s r s' :
  preserves P m → P s → m s = (r, s') → P s'.
Proof. intros Hm Hs Hrun. specialize (Hm s Hs). by rewrite Hrun in Hm. Qed.

(** A loop that returns has applied its body to every element. *)
Lemma forEach_fold {A V} (F : Catalog → V) (step : V → A → V)
    (body : A → M unit) (l : list A) :
  (∀ a s, F (snd (body a s)) = step (F s) a) →
  ∀ s s', forEach l body s = (Ret tt, s') → F s' = foldl step (F s) l.
Proof.
  intros Hbody. induction l as [|a l IH]; intros s s' Hrun; simpl in *.
  - by injection Hrun as <-.
  - apply run_bind_inv in Hrun as ([] & s1 & H1 & H2).
    rewrite (IH _ _ H2). f_equal.
    specialize (Hbody a s). by rewrite H1 in Hbody.
Qed.

Lemma load_chrCustomizationElement_choiceToGeoset T s s' :
  load_chrCustomizationElement T s = (Ret tt, s') →
  choiceToGeoset s'
  = foldl choiceToGeoset_step (choiceToGeoset s)
      (WDCReader.getAllRows (chrCustomizationElement T)).
Proof.
  apply (forEach_fold choiceToGeoset choiceToGeoset_step).
  intros [id row] s0. unfold choiceToGeoset_step. simpl.
  unfold mbind, M_bind.
  destruct (negb (DB_ChrCustomizationElement.ChrCustomizationGeosetID row =? 0));
    simpl;
    (destruct (negb (DB_ChrCustomizationElement.ChrCustomizationMaterialID row =? 0));
     simpl; [|reflexivity]);
    by destruct (WDCReader.getRow _ _).
Qed.

Lemma load_chrCustomizationGeoset_geosetMap T s s' :
  load_chrCustomizationGeoset T s = (Ret tt, s') →
  geosetMap s'
  = foldl geosetMap_step (geosetMap s)
      (WDCReader.getAllRows (chrCustomizationGeoset T)).
Proof.
  apply (forEach_fold geosetMap geosetMap_step).
  by intros [id row] s0.
Qed.

Lemma choiceToGeoset_fold_lookup rows m choiceID :
  foldl choiceToGeoset_step m rows !! choiceID
  = match last (map DB_ChrCustomizationElement.ChrCustomizationGeosetID
                  (List.filter
                     (λ row,
                        (DB_ChrCustomizationElement.ChrCustomizationChoiceID row
                         =? choiceID)
                        && negb (DB_ChrCustomizationElement.ChrCustomizationGeosetID row
                                 =? 0))
                     (map snd rows))) with
    | Some geosetID => Some geosetID
    | None => m !! choiceID
    end.
Proof.
  revert m. induction rows as [|[id row] rows IH]; intros m; simpl; [done|].
  rewrite IH. unfold choiceToGeoset_step. simpl.
  destruct (DB_ChrCustomizationElement.ChrCustomizationGeosetID row =? 0);
    simpl; [by rewrite andb_false_r|].
  rewrite andb_true_r.
  destruct (DB_ChrCustomizationElement.ChrCustomizationChoiceID row =? choiceID)
    eqn:E; simpl.
  - apply Z.eqb_eq in E. rewrite last_cons.
    destruct (last _); [done|]. by rewrite E, lookup_insert_eq.
  - apply Z.eqb_neq in E. destruct (last _); [done|].
    by rewrite lookup_insert_ne.
Qed.

Lemma geosetMap_fold_notin (rows : list (Z * DB_ChrCustomizationGeoset.row)) m
    (geosetID : Z) :
  geosetID ∉ map fst rows →
  foldl geosetMap_step m rows !! geosetID = m !! geosetID.
Proof.
  revert m. induction rows as [|[id row] rows IH]; intros m Hnotin; simpl; [done|].
  simpl in Hnotin. apply not_elem_of_cons in Hnotin as [Hne Hnotin].
  rewrite IH by done. unfold geosetMap_step. simpl.
  by rewrite lookup_insert_ne.
Qed.

Lemma geosetMap_fold_lookup (rows : WDCReader.t DB_ChrCustomizationGeoset.row) m
    geosetID row :
  NoDup (map fst rows) →
  WDCReader.getRow rows geosetID = Some row →
  foldl geosetMap_step m rows !! geosetID
  = Some (encodeGeoset (DB_ChrCustomizationGeoset.GeosetType row)
            (DB_ChrCustomizationGeoset.GeosetID row)).
Proof.
  revert m. induction rows as [|[id r] rows IH]; intros m Hnodup Hrow; simpl in *;
    [done|].
  apply NoDup_cons in Hnodup as [Hnotin Hnodup].
  destruct (id =? geosetID) eqn:E.
  - apply Z.eqb_eq in E. subst id. injection Hrow as ->.
    rewrite geosetMap_fold_notin by done. unfold geosetMap_step. simpl.
    apply lookup_insert_eq.
  - by apply IH.
Qed.

(** The two geoset maps after a run of [loadTables] that started from the
    initial state, passed the gate and returned. *)
Lemma loadTables_geoset_maps env T s' :
  customizationGate env = true →
  loadTables env T initial = (Ret tt, s') →
  choiceToGeoset s'
  = foldl choiceToGeoset_step ∅ (WDCReader.getAllRows (chrCustomizationElement T)) ∧
  geosetMap s'
  = foldl geosetMap_step ∅ (WDCReader.getAllRows (chrCustomizationGeoset T)).
Proof.
  intros Hgate Hrun. unfold loadTables in Hrun. rewrite Hgate in Hrun.
  apply run_bind_inv in Hrun as ([] & s1 & H1 & Hrun).
  apply run_bind_inv in Hrun as ([] & s2 & H2 & Hrun).
  apply run_bind_inv in Hrun as ([] & s2' & H2' & Hrun).
  apply run_bind_inv in Hrun as ([] & s3 & H3 & Hrun).
  apply run_bind_inv in Hrun as ([] & s4 & H4 & Hrun).
  apply run_bind_inv in Hrun as ([] & s5 & H5 & Hrun).
  apply run_bind_inv in Hrun as ([] & s6 & H6 & H7).
  set (P := λ (X : gmap Z Z) (Y : gmap Z JS.num) (s : Catalog),
              choiceToGeoset s = X ∧ geosetMap s = Y).
  assert (P0 : P ∅ ∅ initial) by done.
  assert (P1 : P ∅ ∅ s1).
  { eapply preserves_run; [|exact P0|exact H1].
    by apply load_creatureDisplays_preserves. }
  assert (P2 : P ∅ ∅ s2).
  { eapply preserves_run; [|exact P1|exact H2].
    by apply load_textureFileData_preserves. }
  assert (P2' : P ∅ ∅ s2').
  { eapply preserves_run; [|exact P2|exact H2']. by apply preserves_modify. }
  assert (P3 : P ∅ ∅ s3).
  { eapply preserves_run; [|exact P2'|exact H3].
    by apply load_chrModel_preserves. }
  destruct P3 as [G3 M3].
  assert (G4 : choiceToGeoset s4
               = foldl choiceToGeoset_step ∅
                   (WDCReader.getAllRows (chrCustomizationElement T))).
  { rewrite (load_chrCustomizationElement_choiceToGeoset _ _ _ H4). by rewrite G3. }
  assert (M4 : geosetMap s4 = ∅).
  { eapply (preserves_run (λ s, geosetMap s = ∅)); [|exact M3|exact H4].
    by apply load_chrCustomizationElement_preserves. }
  assert (P5 : P (choiceToGeoset s4)
                 (foldl geosetMap_step ∅
                    (WDCReader.getAllRows (chrCustomizationGeoset T))) s5).
  { split.
    - eapply (preserves_run (λ s, choiceToGeoset s = choiceToGeoset s4));
        [|reflexivity|exact H5].
      by apply load_chrCustomizationGeoset_preserves.
    - rewrite (load_chrCustomizationGeoset_geosetMap _ _ _ H5). by rewrite M4. }
  assert (P6 : P (choiceToGeoset s4)
                 (foldl geosetMap_step ∅
                    (WDCReader.getAllRows (chrCustomizationGeoset T))) s6).
  { eapply preserves_run; [|exact P5|exact H6].
    by apply load_chrModelTextureLayer_preserves. }
  assert (P7 : P (choiceToGeoset s4)
                 (foldl geosetMap_step ∅
                    (WDCReader.getAllRows (chrCustomizationGeoset T))) s').
  { eapply preserves_run; [|exact P6|exact H7].
    by apply load_charComponentTextureSections_preserves. }
  destruct P7 as [G7 M7]. by rewrite G7, G4.
Qed.

Lemma digits_nonempty fuel n acc :
  fuel ≠ O → ∃ c s, JS.digits fuel n acc = String c s.
Proof.
  destruct fuel as [|fuel]; [done|]. intros _. cbn [JS.digits].
  destruct (n / 10 =? 0); [by eexists _, _|].
  rewrite digits_acc. destruct (JS.digits fuel (n / 10) "") as [|c s].
  - by eexists _, _.
  - rewrite string_app_cons. by eexists _, _.
Qed.

(** A negative integer prints as a minus sign and at least one digit, so
    [padStart(2, '0')] leaves it as it is. *)
Lemma padStart_toString_neg p :
  ∃ c s,
    JS.digits (Pos.size_nat p) (Z.pos p) "" = String c s ∧
    JS.padStart 2 "0" (JS.toString (Z.neg p)) = String "-" (String c s).
Proof.
  destruct (digits_nonempty (Pos.size_nat p) (Z.pos p) "") as (c & s & E).
  { by destruct p. }
  exists c, s. split; [done|].
  unfold JS.toString. change (- Z.neg p) with (Z.pos p). rewrite E. reflexivity.
Qed.

Lemma parse_digits_minus a s1 t :
  JS.parse_digits a (String.append s1 (String "-" t)) = None.
Proof.
  rewrite parse_digits_app. by destruct (JS.parse_digits a s1).
Qed.

(** A minus sign after the first character makes the string no number. *)
Lemma Number_minus_inside c s1 t :
  JS.Number (String c (String.append s1 (String "-" t))) = JS.NaN.
Proof.
  assert (H1 : JS.parse_digits 0 (String c (String.append s1 (String "-" t))) = None).
  { rewrite <- string_app_cons. apply parse_digits_minus. }
  assert (H2 : JS.parse_digits 0 (String.append s1 (String "-" t)) = None)
    by apply parse_digits_minus.
  assert (H3 : ∃ c' s', String.append s1 (String "-" t) = String c' s').
  { destruct s1 as [|c' s1]; [by eexists _, _|].
    rewrite string_app_cons. by eexists _, _. }
  destruct H3 as (c' & s' & E). rewrite E in *. unfold JS.Number.
  destruct c as [[] [] [] [] [] [] [] []]; rewrite ?H1, ?H2; reflexivity.
Qed.

(** The key of a geoset row with a negative variant tag. *)
Lemma encodeGeoset_negative_variant GeosetType GeosetID :
  GeosetID < 0 → encodeGeoset GeosetType GeosetID = JS.NaN.
Proof.
  intros Hv. destruct GeosetID as [|p|p]; [lia|lia|].
  unfold encodeGeoset.
  destruct (padStart_starts GeosetType) as (c & s & ->).
  destruct (padStart_toString_neg p) as (c' & s' & _ & ->).
  rewrite string_app_cons. apply Number_minus_inside.
Qed.

(** The key of a geoset row with a negative group tag and a non-negative
    variant tag. *)
Lemma encodeGeoset_negative_group GeosetType GeosetID :
  GeosetType < 0 → 0 ≤ GeosetID →
  encodeGeoset GeosetType GeosetID
  = JS.Num (JS.roundDouble
              (GeosetType
               * 10 ^ Z.of_nat (String.length
                                  (JS.padStart 2 "0" (JS.toString GeosetID)))
               - GeosetID)).
Proof.
  intros Hg Hv. destruct GeosetType as [|p|p]; [lia|lia|].
  unfold encodeGeoset.
  destruct (padStart_toString_neg p) as (c & s & Ed & ->).
  rewrite string_app_cons.
  assert (Hparse :
    JS.parse_digits 0
      (String.append (String c s) (JS.padStart 2 "0" (JS.toString GeosetID)))
    = Some (Z.pos p
            * 10 ^ Z.of_nat (String.length (JS.padStart 2 "0" (JS.toString GeosetID)))
            + GeosetID)).
  { rewrite parse_digits_app, <- Ed.
    rewrite parse_digits_digits by (pose proof (pos_lt_pow10 p); lia).
    change (JS.parse_digits ?a "") with (Some a). simpl.
    rewrite padStart_parse by done. f_equal; lia. }
  rewrite string_app_cons in *. unfold JS.Number. rewrite Hparse.
  do 2 f_equal. lia.
Qed.

(** C6 (as the code has it).  After [loadTables] has run from the initial
    state with the gate open and has returned, with row ids unique in the
    geoset table, for a choice bound to a geoset whose row exists, with
    32-bit tags (from -2^31 to 2^31 - 1): when the variant tag is not
    negative, [getGeosetForChoice] returns the double nearest to the
    integer whose decimal numeral is the group tag followed by the variant
    tag, each padded with zeros to two digits; that is the integer itself,
    [group * 10^k + variant] for the width [k >= 2] of the padded variant
    tag ([group * 10^k - variant] for a negative group tag), when it is at
    most 2^53 in absolute value, and [100 * group + variant] for a variant
    tag below 100 and a group tag that is not negative.  When the variant
    tag is negative it returns [NaN].
    For a choice bound to no geoset it returns [false]. *)
Theorem geoset_key_of_choice :
  ∀ (env : Env) (T : Tables) (s : Catalog) (choiceID : Z),
    customizationGate env = true →
    loadTables env T initial = (Ret tt, s) →
    NoDup (map fst (WDCReader.getAllRows (chrCustomizationGeoset T))) →
    (∀ (geosetID : Z) (row : DB_ChrCustomizationGeoset.row),
       bound_geoset T choiceID = Some geosetID →
       WDCReader.getRow (chrCustomizationGeoset T) geosetID = Some row →
       - 2 ^ 31 ≤ DB_ChrCustomizationGeoset.GeosetType row < 2 ^ 31 →
       - 2 ^ 31 ≤ DB_ChrCustomizationGeoset.GeosetID row < 2 ^ 31 →
       (0 ≤ DB_ChrCustomizationGeoset.GeosetID row →
        ∃ k : Z,
          2 ≤ k ∧
          DB_ChrCustomizationGeoset.GeosetID row < 10 ^ k ∧
          (k = 2 ∨ 10 ^ (k - 1) ≤ DB_ChrCustomizationGeoset.GeosetID row) ∧
          let key :=
            if 0 <=? DB_ChrCustomizationGeoset.GeosetType row
            then DB_ChrCustomizationGeoset.GeosetType row * 10 ^ k
                 + DB_ChrCustomizationGeoset.GeosetID row
            else DB_ChrCustomizationGeoset.GeosetType row * 10 ^ k
                 - DB_ChrCustomizationGeoset.GeosetID row in
          getGeosetForChoice choiceID s
          = (Ret (JS.JVal (Some (JS.Num (JS.roundDouble key)))), s) ∧
          (Z.abs key ≤ 2 ^ 53 →
           getGeosetForChoice choiceID s
           = (Ret (JS.JVal (Some (JS.Num key))), s)) ∧
          (0 ≤ DB_ChrCustomizationGeoset.GeosetType row →
           DB_ChrCustomizationGeoset.GeosetID row < 100 →
           getGeosetForChoice choiceID s
           = (Ret (JS.JVal (Some (JS.Num
                     (100 * DB_ChrCustomizationGeoset.GeosetType row
                      + DB_ChrCustomizationGeoset.GeosetID row)))), s))) ∧
       (DB_ChrCustomizationGeoset.GeosetID row < 0 →
        getGeosetForChoice choiceID s = (Ret (JS.JVal (Some JS.NaN)), s))) ∧
    (bound_geoset T choiceID = None →
     getGeosetForChoice choiceID s = (Ret JS.JFalse, s)).
Proof.
  intros env T s choiceID Hgate Hrun Hnodup.
  destruct (loadTables_geoset_maps env T s Hgate Hrun) as [HG HM].
  assert (Hbound : choiceToGeoset s !! choiceID = bound_geoset T choiceID).
  { rewrite HG, choiceToGeoset_fold_lookup, lookup_empty. unfold bound_geoset.
    by destruct (last _). }
  split.
  - intros geosetID row Hb Hrow Hg32 Hv32.
    assert (Hkey : getGeosetForChoice choiceID s
                   = (Ret (JS.JVal (Some (encodeGeoset
                             (DB_ChrCustomizationGeoset.GeosetType row)
                             (DB_ChrCustomizationGeoset.GeosetID row)))), s)).
    { unfold getGeosetForChoice. rewrite run_bind_gets, Hbound, Hb.
      rewrite run_bind_gets, HM.
      by rewrite (geosetMap_fold_lookup _ _ _ _ Hnodup Hrow). }
    split.
    + intros Hv.
      destruct (padded_width_bounds _ Hv) as (K1 & K2 & K3).
      set (k := Z.of_nat (String.length
                   (JS.padStart 2 "0"
                      (JS.toString (DB_ChrCustomizationGeoset.GeosetID row))))) in *.
      exists k. split; [done|]. split; [done|]. split; [done|].
      intros key.
      assert (Hval : encodeGeoset (DB_ChrCustomizationGeoset.GeosetType row)
                       (DB_ChrCustomizationGeoset.GeosetID row)
                     = JS.Num (JS.roundDouble key)).
      { subst key. destruct (Z.leb_spec 0 (DB_ChrCustomizationGeoset.GeosetType row)).
        - by apply encodeGeoset_value.
        - by apply encodeGeoset_negative_group. }
      rewrite Hkey, Hval. split; [done|]. split.
      * intros Hsafe. by rewrite roundDouble_exact.
      * intros Hg Hsmall.
        assert (Hk : k = 2).
        { destruct K3 as [->|K3]; [done|].
          destruct (decide (k = 2)) as [->|Hne]; [done|].
          assert (H100 : 10 ^ 2 ≤ 10 ^ (k - 1)) by (apply Z.pow_le_mono_r; lia).
          change (10 ^ 2) with 100 in H100. lia. }
        subst key. apply Z.leb_le in Hg. rewrite Hg.
        clearbody k. subst k. change (10 ^ 2) with 100.
        rewrite roundDouble_exact by lia. do 5 f_equal. lia.
    + intros Hv. rewrite Hkey. by rewrite encodeGeoset_negative_variant.
  - intros Hnone. unfold getGeosetForChoice.
    by rewrite run_bind_gets, Hbound, Hnone.
Qed.

Lemma geoset_key_of_choice_witness :
  getGeosetForChoice 7 demo_catalog
  = (Ret (JS.JVal (Some (JS.Num 105))), demo_catalog) ∧
  getGeosetForChoice 7 edge_catalog
  = (Ret (JS.JVal (Some JS.NaN)), edge_catalog) ∧
  getGeosetForChoice 5 demo_catalog = (Ret JS.JFalse, demo_catalog).
Proof.
  destruct (geoset_key_of_choice env_on demo_tables demo_catalog 7
              ltac:(reflexivity) ltac:(vm_compute; reflexivity)
              ltac:(compute_done)) as [Hbound _].
  destruct (geoset_key_of_choice env_on edge_tables edge_catalog 7
              ltac:(reflexivity) ltac:(vm_compute; reflexivity)
              ltac:(compute_done)) as [Hedge _].
  destruct (geoset_key_of_choice env_on demo_tables demo_catalog 5
              ltac:(reflexivity) ltac:(vm_compute; reflexivity)
              ltac:(compute_done)) as [_ Hunbound].
  destruct (Hbound 40 {| DB_ChrCustomizationGeoset.GeosetType := 1;
                         DB_ChrCustomizationGeoset.GeosetID := 5 |}
              ltac:(vm_compute; reflexivity) ltac:(vm_compute; reflexivity)
              ltac:(simpl; lia) ltac:(simpl; lia))
    as [Hnonneg _].
  destruct (Hnonneg ltac:(simpl; lia)) as (k & _ & _ & _ & _ & _ & Hsmall).
  destruct (Hedge 40 {| DB_ChrCustomizationGeoset.GeosetType := 1;
                        DB_ChrCustomizationGeoset.GeosetID := -5 |}
              ltac:(vm_compute; reflexivity) ltac:(vm_compute; reflexivity)
              ltac:(simpl; lia) ltac:(simpl; lia))
    as [_ Hneg].
  split; [|split].
  - apply Hsmall; simpl; lia.
  - apply Hneg. simpl. lia.
  - apply Hunbound. vm_compute. reflexivity.
Defined.

(** C6 as stated fails: with geoset 40 carrying group tag 1 and variant
    tag -5 the concatenation is "01-5", no decimal numeral, and
    [getGeosetForChoice] returns [NaN] for the choice bound to it, not an
    integer. *)
Lemma geoset_key_is_decimal_reading_refuted : ¬ geoset_key_is_decimal_reading.
Proof.
  intros H.
  destruct (H env_on edge_tables edge_catalog 7) as [Hbound _].
  - reflexivity.
  - vm_compute. reflexivity.
  - compute_done.
  - destruct (Hbound 40
                {| DB_ChrCustomizationGeoset.GeosetType := 1;
                   DB_ChrCustomizationGeoset.GeosetID := -5 |})
      as (n & _ & Hrun).
    + vm_compute. reflexivity.
    + vm_compute. reflexivity.
    + apply (f_equal fst) in Hrun. vm_compute in Hrun. discriminate Hrun.
Qed.

(** Nor is the integer returned when it has more than 53 significant
    bits: with both tags 2147483647 the numeral reads
    21474836472147483647 and the function returns the nearest double. *)
Example geoset_key_rounded :
  fst (getGeosetForChoice 9 edge_catalog)
  = Ret (JS.JVal (Some (JS.Num 21474836472147484672))) ∧
  decimal_reading
    (String.append (JS.padStart 2 "0" (JS.toString 2147483647))
                   (JS.padStart 2 "0" (JS.toString 2147483647)))
  = Some 21474836472147483647.
Proof. split; vm_compute; reflexivity. Qed.

Example getGeosetForChoice_9 :
  fst (getGeosetForChoice 9 demo_catalog) = Ret (JS.JVal (Some (JS.Num 1203))).
Proof. vm_compute. reflexivity. Qed.

(** * Further properties of the module *)

(** ** [loadTables] phase by phase *)

Lemma loadTables_phases env T :
  loadTables env T
  = (load_creatureDisplays T ;; load_textureFileData T ;; load_customization env T).
Proof. reflexivity. Qed.

(** The two creature loops return; what is left of the run is the
    customization part. *)
Lemma loadTables_run env T s :
  ∃ s1 s2,
    load_creatureDisplays T s = (Ret tt, s1) ∧
    load_textureFileData T s1 = (Ret tt, s2) ∧
    loadTables env T s = load_customization env T s2.
Proof.
  destruct (load_creatureDisplays_returns T s) as [s1 H1].
  destruct (load_textureFileData_returns T s1) as [s2 H2].
  exists s1, s2. split; [done|]. split; [done|].
  rewrite loadTables_phases.
  erewrite run_bind_ret by exact H1.
  erewrite run_bind_ret by exact H2. reflexivity.
Qed.

Lemma load_customization_preserves (P : Catalog → Prop) env T :
  (∀ s, P s → P (set_chrCustomizationAvailable (λ _, true) s)) →
  preserves P (load_chrModel T) →
  preserves P (load_chrCustomizationElement T) →
  preserves P (load_chrCustomizationGeoset T) →
  preserves P (load_chrModelTextureLayer T) →
  preserves P (load_charComponentTextureSections T) →
  preserves P (load_customization env T).
Proof.
  intros Ha Hm He Hg Hl Hs. unfold load_customization.
  destruct (customizationGate env); [|apply preserves_ret].
  apply preserves_bind; [by apply preserves_modify|intros _].
  apply preserves_bind; [done|intros _].
  apply preserves_bind; [done|intros _].
  apply preserves_bind; [done|intros _].
  apply preserves_bind; [done|intros _]. done.
Qed.

(** A property that no updater of a customization variable can break is
    kept by the customization part. *)
Lemma load_customization_frame (P : Catalog → Prop) env T :
  (∀ f s, P s → P (set_chrCustomizationAvailable f s)) →
  (∀ f s, P s → P (set_fdidToChrModel f s)) →
  (∀ f s, P s → P (set_chrModelIDToTextureLayoutID f s)) →
  (∀ f s, P s → P (set_optionsByChrModel f s)) →
  (∀ f s, P s → P (set_optionToChoices f s)) →
  (∀ f s, P s → P (set_choiceToGeoset f s)) →
  (∀ f s, P s → P (set_choiceToChrCustMaterialID f s)) →
  (∀ f s, P s → P (set_chrCustMatMap f s)) →
  (∀ f s, P s → P (set_geosetMap f s)) →
  (∀ f s, P s → P (set_chrModelTexLayer f s)) →
  (∀ f s, P s → P (set_charComponentTextureSectionMap f s)) →
  preserves P (load_customization env T).
Proof.
  intros. apply load_customization_preserves; auto.
  - by apply load_chrModel_preserves.
  - apply load_chrCustomizationElement_preserves; auto.
  - by apply load_chrCustomizationGeoset_preserves.
  - by apply load_chrModelTextureLayer_preserves.
  - by apply load_charComponentTextureSections_preserves.
Qed.

(** ** The texture-file index *)

Lemma load_textureFileData_matRes T s s' :
  load_textureFileData T s = (Ret tt, s') →
  matResIDToFileDataID s'
  = foldl matRes_step (matResIDToFileDataID s)
      (WDCReader.getAllRows (textureFileData T)).
Proof.
  apply (forEach_fold matResIDToFileDataID matRes_step).
  intros [id row] s0. unfold matRes_step. simpl.
  by destruct (negb _).
Qed.

Lemma matRes_fold_lookup rows m materialResourcesID :
  foldl matRes_step m rows !! materialResourcesID
  = match last (map fst
                  (List.filter
                     (λ r, (DB_TextureFileData.UsageType (snd r) =? 0)
                           && (DB_TextureFileData.MaterialResourcesID (snd r)
                               =? materialResourcesID))
                     rows)) with
    | Some fileDataID => Some fileDataID
    | None => m !! materialResourcesID
    end.
Proof.
  revert m. induction rows as [|[id row] rows IH]; intros m; simpl; [done|].
  rewrite IH. unfold matRes_step. simpl.
  destruct (DB_TextureFileData.UsageType row =? 0); simpl; [|done].
  destruct (DB_TextureFileData.MaterialResourcesID row =? materialResourcesID)
    eqn:E; simpl.
  - apply Z.eqb_eq in E. rewrite last_cons.
    destruct (last _); [done|]. by rewrite E, lookup_insert_eq.
  - apply Z.eqb_neq in E. destruct (last _); [done|].
    by rewrite lookup_insert_ne.
Qed.

(** X1.  After [loadTables] has run from the initial state, whatever the
    gate and whether the run returned or threw, [matResIDToFileDataID]
    gives a material resource the id of the last TextureFileData row of
    usage type 0 that names it, and nothing when no such row exists: rows
    of another usage type are never indexed. *)
Theorem matResIDToFileDataID_after_load :
  ∀ (env : Env) (T : Tables) (materialResourcesID : Z),
    matResIDToFileDataID (snd (loadTables env T initial)) !! materialResourcesID
    = texture_file_of T materialResourcesID.
Proof.
  intros env T materialResourcesID.
  destruct (loadTables_run env T initial) as (s1 & s2 & H1 & H2 & ->).
  assert (M1 : matResIDToFileDataID s1 = ∅).
  { eapply (preserves_run (λ s, matResIDToFileDataID s = ∅) _ initial);
      [|reflexivity|exact H1].
    by apply load_creatureDisplays_preserves. }
  assert (M2 : matResIDToFileDataID s2
               = foldl matRes_step ∅ (WDCReader.getAllRows (textureFileData T))).
  { rewrite (load_textureFileData_matRes _ _ _ H2). by rewrite M1. }
  assert (M3 : matResIDToFileDataID (snd (load_customization env T s2))
               = matResIDToFileDataID s2).
  { by apply (load_customization_frame
                (λ s, matResIDToFileDataID s = matResIDToFileDataID s2)). }
  rewrite M3, M2, matRes_fold_lookup, lookup_empty.
  unfold texture_file_of. by destruct (last _).
Qed.

Example texture_file_usage_filter :
  matResIDToFileDataID demo_catalog !! 302 = None ∧
  matResIDToFileDataID demo_catalog !! 301 = Some 9002.
Proof. split; vm_compute; reflexivity. Qed.

(** ** Invariants of the layout indices *)

Lemma loadTables_preserves_phases (P : Catalog → Prop) env T :
  preserves P (load_creatureDisplays T) →
  preserves P (load_textureFileData T) →
  preserves P (load_customization env T) →
  preserves P (loadTables env T).
Proof.
  intros H1 H2 H3. rewrite loadTables_phases.
  apply preserves_bind; [done|intros _].
  apply preserves_bind; [done|intros _]. done.
Qed.

Lemma loaded_invariant (P : Catalog → Prop) :
  P initial → (∀ env T, preserves P (loadTables env T)) →
  ∀ s, loaded s → P s.
Proof.
  intros H0 Hstep s Hs. induction Hs as [|env T s _ IH]; [done|].
  by apply Hstep.
Qed.

(** An element found after [arr[i] = v] is [v] at index [i], or was there
    before. *)
Lemma array_set_lookup_Some {A} (arr : SparseArray A) (i : Z) (v x : A) (n : nat) :
  array_set arr i v !! n = Some (Some x) →
  (Z.of_nat n = i ∧ x = v) ∨ arr !! n = Some (Some x).
Proof.
  unfold array_set, SparseArray in *.
  destruct ((i <? 0) || (2 ^ 32 - 2 <? i)) eqn:E; [by right|].
  apply orb_false_iff in E as [E _]. apply Z.ltb_ge in E.
  destruct (Z.to_nat i <? length arr)%nat eqn:El.
  - apply Nat.ltb_lt in El. intros H.
    destruct (decide (n = Z.to_nat i)) as [->|Hne].
    + rewrite list_lookup_insert_eq in H by done. injection H as <-.
      left. split; [lia|done].
    + rewrite list_lookup_insert_ne in H by done. by right.
  - apply Nat.ltb_ge in El. intros H.
    destruct (decide (n < length arr)%nat) as [Hlt|Hge].
    + rewrite lookup_app_l in H by done. by right.
    + rewrite lookup_app_r in H by lia.
      destruct (decide (n - length arr < Z.to_nat i - length arr)%nat) as [Hr|Hr].
      * rewrite lookup_app_l in H by (by rewrite length_replicate).
        apply lookup_replicate in H as [H _]. discriminate H.
      * rewrite lookup_app_r in H by (rewrite length_replicate; lia).
        rewrite length_replicate in H.
        apply list_lookup_singleton_Some in H as [Hn H]. injection H as <-.
        left. split; [lia|done].
Qed.

Lemma load_charComponentTextureSections_sections_ok T :
  preserves sections_ok (load_charComponentTextureSections T).
Proof.
  unfold load_charComponentTextureSections.
  apply preserves_forEach. intros [id row].
  apply preserves_modify. intros s Hs layout arr i sec. simpl.
  destruct (decide
    (DB_CharComponentTextureSections.CharComponentTextureLayoutID row = layout))
    as [Hl|Hl].
  - rewrite Hl, lookup_insert_eq. intros [= <-] Hi.
    apply array_set_lookup_Some in Hi as [[Hi ->]|Hi]; [done|].
    destruct (charComponentTextureSectionMap s !! layout) as [arr|] eqn:E;
      simpl in Hi.
    + by apply (Hs _ _ _ _ E).
    + unfold SparseArray in Hi. by rewrite lookup_nil in Hi.
  - rewrite lookup_insert_ne by done. apply Hs.
Qed.

Lemma loadTables_sections_ok env T : preserves sections_ok (loadTables env T).
Proof.
  apply loadTables_preserves_phases.
  - by apply load_creatureDisplays_preserves.
  - by apply load_textureFileData_preserves.
  - apply load_customization_preserves.
    + done.
    + by apply load_chrModel_preserves.
    + by apply load_chrCustomizationElement_preserves.
    + by apply load_chrCustomizationGeoset_preserves.
    + by apply load_chrModelTextureLayer_preserves.
    + apply load_charComponentTextureSections_sections_ok.
Qed.

(** X2.  In every state the program can reach, the element at index [i]
    of a layout's section array is a hole or a section row of that layout
    with section type [i]; so a layout holds at most one section per
    section type, and the loop of [getSkinMaterialsForChoice] over the
    sections visits them by increasing section type, whatever the order of
    the rows in the table. *)
Theorem sections_indexed_by_type :
  ∀ (s : Catalog) (layout : Z)
    (arr : SparseArray DB_CharComponentTextureSections.row),
    loaded s →
    charComponentTextureSectionMap s !! layout = Some arr →
    (∀ (i : nat) (textureSection : DB_CharComponentTextureSections.row),
       arr !! i = Some (Some textureSection) →
       DB_CharComponentTextureSections.SectionType textureSection = Z.of_nat i ∧
       DB_CharComponentTextureSections.CharComponentTextureLayoutID textureSection
       = layout) ∧
    (∀ (i j : nat) (a b : DB_CharComponentTextureSections.row),
       arr !! i = Some (Some a) → arr !! j = Some (Some b) → (i < j)%nat →
       DB_CharComponentTextureSections.SectionType a
       < DB_CharComponentTextureSections.SectionType b).
Proof.
  intros s layout arr Hloaded Harr.
  assert (Hok : sections_ok s).
  { apply (loaded_invariant sections_ok); [|apply loadTables_sections_ok|done].
    intros l a i sec H. simpl in H. by rewrite lookup_empty in H. }
  split.
  - intros i sec Hi. by apply (Hok _ _ _ _ Harr).
  - intros i j a b Hi Hj Hlt.
    destruct (Hok _ _ _ _ Harr Hi) as [-> _].
    destruct (Hok _ _ _ _ Harr Hj) as [-> _]. lia.
Qed.

Lemma sections_indexed_by_type_witness :
  DB_CharComponentTextureSections.SectionType (demo_section 3 2 256 0 128 64)
  = Z.of_nat 2 ∧
  DB_CharComponentTextureSections.SectionType (demo_section 3 1 512 0 64 64)
  < DB_CharComponentTextureSections.SectionType (demo_section 3 2 256 0 128 64).
Proof.
  destruct (sections_indexed_by_type demo_catalog 3
              [Some (demo_section 3 0 0 0 256 512);
               Some (demo_section 3 1 512 0 64 64);
               Some (demo_section 3 2 256 0 128 64)]) as [Hindex Horder].
  - apply loaded_loadTables, loaded_initial.
  - vm_compute. reflexivity.
  - split.
    + apply (Hindex 2%nat). reflexivity.
    + apply (Horder 1%nat 2%nat); [reflexivity|reflexivity|lia].
Defined.

Example sections_table_order_irrelevant :
  map snd (WDCReader.getAllRows (charComponentTextureSections demo_tables))
  = [demo_section 3 0 0 0 256 512; demo_section 3 2 256 0 128 64;
     demo_section 3 1 512 0 64 64; demo_section 0 0 0 0 256 512] ∧
  (defined_elements <$> charComponentTextureSectionMap demo_catalog !! 3)
  = Some [demo_section 3 0 0 0 256 512; demo_section 3 1 512 0 64 64;
          demo_section 3 2 256 0 128 64].
Proof. split; vm_compute; reflexivity. Qed.

Lemma load_chrModelTextureLayer_layers_ok T :
  preserves layers_ok (load_chrModelTextureLayer T).
Proof.
  unfold load_chrModelTextureLayer.
  apply preserves_forEach. intros [id row].
  apply preserves_modify. intros s Hs layout layers. simpl.
  destruct (decide
    (DB_ChrModelTextureLayer.CharComponentTextureLayoutsID row = layout))
    as [Hl|Hl].
  - rewrite Hl, lookup_insert_eq. intros [= <-]. split.
    + apply insert_non_empty.
    + intros textureTarget textureLayer.
      destruct (decide
        (fst (DB_ChrModelTextureLayer.ChrModelTextureTargetID row) = textureTarget))
        as [Ht|Ht].
      * rewrite Ht, lookup_insert_eq. by intros [= <-].
      * rewrite lookup_insert_ne by done.
        destruct (chrModelTexLayer s !! layout) as [old|] eqn:E; simpl.
        -- apply (Hs _ _ E).
        -- by rewrite lookup_empty.
  - rewrite lookup_insert_ne by done. apply Hs.
Qed.

Lemma loadTables_layers_ok env T : preserves layers_ok (loadTables env T).
Proof.
  apply loadTables_preserves_phases.
  - by apply load_creatureDisplays_preserves.
  - by apply load_textureFileData_preserves.
  - apply load_customization_preserves.
    + done.
    + by apply load_chrModel_preserves.
    + by apply load_chrCustomizationElement_preserves.
    + by apply load_chrCustomizationGeoset_preserves.
    + apply load_chrModelTextureLayer_layers_ok.
    + by apply load_charComponentTextureSections_preserves.
Qed.

Lemma loaded_layers_ok s : loaded s → layers_ok s.
Proof.
  apply (loaded_invariant layers_ok); [|apply loadTables_layers_ok].
  intros l a H. simpl in H. by rewrite lookup_empty in H.
Qed.

(** X3.  In every state the program can reach, a layout that has an entry
    in [chrModelTexLayer] has at least one layer, and the layer the
    queries find at a layout and a texture target is a row of that layout
    whose first texture target is that target: a layer is never found
    under its second texture target alone. *)
Theorem layers_indexed_by_first_target :
  ∀ (s : Catalog) (layout : Z) (layers : gmap Z DB_ChrModelTextureLayer.row),
    loaded s →
    chrModelTexLayer s !! layout = Some layers →
    layers ≠ ∅ ∧
    ∀ (textureTarget : Z) (textureLayer : DB_ChrModelTextureLayer.row),
      layers !! textureTarget = Some textureLayer →
      DB_ChrModelTextureLayer.CharComponentTextureLayoutsID textureLayer = layout ∧
      fst (DB_ChrModelTextureLayer.ChrModelTextureTargetID textureLayer)
      = textureTarget.
Proof.
  intros s layout layers Hloaded Hlayers.
  by apply (loaded_layers_ok s Hloaded).
Qed.

Lemma layers_indexed_by_first_target_witness :
  DB_ChrModelTextureLayer.CharComponentTextureLayoutsID (demo_layer 61 2 1 5 2 3) = 3 ∧
  fst (DB_ChrModelTextureLayer.ChrModelTextureTargetID (demo_layer 61 2 1 5 2 3)) = 2.
Proof.
  destruct (layers_indexed_by_first_target demo_catalog 3
              {[ 1 := demo_layer 60 1 0 (-1) 1 3; 2 := demo_layer 61 2 1 5 2 3 ]})
    as [_ Hlayer].
  - apply loaded_loadTables, loaded_initial.
  - vm_compute. reflexivity.
  - apply (Hlayer 2). vm_compute. reflexivity.
Defined.

(** ** Options and choices *)

Lemma build_choiceList_fold rows optionID acc :
  foldl (λ choiceList r,
           let '(chrCustomizationChoiceID, chrCustomizationChoiceRow) := r in
           if negb (DB_ChrCustomizationChoice.ChrCustomizationOptionID
                      chrCustomizationChoiceRow =? optionID)
           then choiceList
           else
             let name :=
               if negb (String.eqb
                          (DB_ChrCustomizationChoice.Name_lang chrCustomizationChoiceRow) "")
               then DB_ChrCustomizationChoice.Name_lang chrCustomizationChoiceRow
               else String.append "Choice "
                      (JS.toString
                         (DB_ChrCustomizationChoice.OrderIndex chrCustomizationChoiceRow)) in
             choiceList ++ [{| ChoiceEntry.id := chrCustomizationChoiceID;
                               ChoiceEntry.label := name |}])
        acc rows
  = acc ++ map (λ r, {| ChoiceEntry.id := fst r;
                        ChoiceEntry.label := choice_label (snd r) |})
             (List.filter
                (λ r, DB_ChrCustomizationChoice.ChrCustomizationOptionID (snd r)
                      =? optionID)
                rows).
Proof.
  revert acc. induction rows as [|[id row] rows IH]; intros acc; simpl.
  - by rewrite app_nil_r.
  - rewrite IH.
    destruct (DB_ChrCustomizationChoice.ChrCustomizationOptionID row =? optionID);
      simpl; [|done].
    rewrite <- app_assoc. simpl. unfold choice_label.
    by destruct (String.eqb (DB_ChrCustomizationChoice.Name_lang row) "").
Qed.

Lemma build_choiceList_rows T optionID :
  build_choiceList T optionID
  = map (λ r, {| ChoiceEntry.id := fst r;
                 ChoiceEntry.label := choice_label (snd r) |})
        (choice_rows_of T optionID).
Proof. unfold build_choiceList. by rewrite build_choiceList_fold. Qed.

Lemma choice_label_nonempty row : choice_label row ≠ "".
Proof.
  unfold choice_label.
  destruct (String.eqb_spec (DB_ChrCustomizationChoice.Name_lang row) "");
    [discriminate|done].
Qed.

Lemma load_chrModel_choices T :
  preserves (λ s, ∀ optionID l, optionToChoices s !! optionID = Some l →
                   l = build_choiceList T optionID)
    (load_chrModel T).
Proof.
  unfold load_chrModel.
  repeat first
    [ preserves_step
    | apply preserves_modify; intros s Hs; first [exact Hs|idtac] ].
  intros optionID l. simpl.
  match goal with
  | |- <[?k := _]> _ !! _ = _ → _ => destruct (decide (k = optionID)) as [->|Hne]
  end.
  - rewrite lookup_insert_eq. by intros [= <-].
  - rewrite lookup_insert_ne by done. apply Hs.
Qed.

(** X4.  After [loadTables] has run from the initial state (returning or
    throwing), the list [getChoicesByOption] gives for an option, when it
    gives one, holds exactly the choice rows of that option in table
    order (not by order index), each with its row id and with its authored
    name as label or, when the name is empty, "Choice " followed by the
    order index; no label is empty. *)
Theorem getChoicesByOption_lists_rows :
  ∀ (env : Env) (T : Tables) (optionID : Z) (choices : list ChoiceEntry.t),
    fst (getChoicesByOption optionID (snd (loadTables env T initial)))
    = Ret (Some choices) →
    choices
    = map (λ r, {| ChoiceEntry.id := fst r;
                   ChoiceEntry.label := choice_label (snd r) |})
          (choice_rows_of T optionID) ∧
    Forall (λ c, ChoiceEntry.label c ≠ "") choices.
Proof.
  intros env T optionID choices Hget.
  unfold getChoicesByOption in Hget. rewrite run_gets in Hget.
  simpl in Hget. injection Hget as Hget.
  assert (Hinv : ∀ o l,
    optionToChoices (snd (loadTables env T initial)) !! o = Some l →
    l = build_choiceList T o).
  { apply (loadTables_preserves_phases
             (λ s, ∀ o l, optionToChoices s !! o = Some l → l = build_choiceList T o)).
    - by apply load_creatureDisplays_preserves.
    - by apply load_textureFileData_preserves.
    - apply load_customization_preserves.
      + done.
      + apply load_chrModel_choices.
      + by apply load_chrCustomizationElement_preserves.
      + by apply load_chrCustomizationGeoset_preserves.
      + by apply load_chrModelTextureLayer_preserves.
      + by apply load_charComponentTextureSections_preserves.
    - intros o l H. simpl in H. by rewrite lookup_empty in H. }
  rewrite (Hinv _ _ Hget), build_choiceList_rows. split; [done|].
  apply Forall_map, Forall_forall. intros r _. apply choice_label_nonempty.
Qed.

Lemma getChoicesByOption_lists_rows_witness :
  [{| ChoiceEntry.id := 7; ChoiceEntry.label := "Pale" |};
   {| ChoiceEntry.id := 9; ChoiceEntry.label := "Choice 1" |}]
  = map (λ r, {| ChoiceEntry.id := fst r;
                 ChoiceEntry.label := choice_label (snd r) |})
        (choice_rows_of demo_tables 20).
Proof.
  apply (getChoicesByOption_lists_rows env_on demo_tables 20).
  vm_compute. reflexivity.
Defined.

(** ** The model indices after a run that returned *)

Lemma load_chrModel_rows T :
  load_chrModel T
  = forEach (WDCReader.getAllRows (chrModel T)) (load_chrModel_row T).
Proof. reflexivity. Qed.

(** A loop that returns has run each body to its end. *)
Lemma forEach_fold_ok {A V} (F : Catalog → V) (step : V → A → V)
    (body : A → M unit) (l : list A) :
  (∀ a s s', body a s = (Ret tt, s') → F s' = step (F s) a) →
  ∀ s s', forEach l body s = (Ret tt, s') → F s' = foldl step (F s) l.
Proof.
  intros Hbody. induction l as [|a l IH]; intros s s' Hrun; simpl in *.
  - by injection Hrun as <-.
  - apply run_bind_inv in Hrun as ([] & s1 & H1 & H2).
    rewrite (IH _ _ H2). f_equal. by apply Hbody.
Qed.

Lemma forEach_ok_Forall {A} (Q : A → Prop) (body : A → M unit) (l : list A) :
  (∀ a s s', body a s = (Ret tt, s') → Q a) →
  ∀ s s', forEach l body s = (Ret tt, s') → Forall Q l.
Proof.
  intros Hbody. induction l as [|a l IH]; intros s s' Hrun; simpl in *.
  - constructor.
  - apply run_bind_inv in Hrun as ([] & s1 & H1 & H2).
    constructor; [by eapply Hbody | by eapply IH].
Qed.

(** The passed gate and a run that returned: every phase returned. *)
Lemma loadTables_ok_phases env T s0 s :
  customizationGate env = true →
  loadTables env T s0 = (Ret tt, s) →
  ∃ s1 s2 s3 s4 s5 s6,
    load_creatureDisplays T s0 = (Ret tt, s1) ∧
    load_textureFileData T s1 = (Ret tt, s2) ∧
    load_chrModel T (set_chrCustomizationAvailable (λ _, true) s2) = (Ret tt, s3) ∧
    load_chrCustomizationElement T s3 = (Ret tt, s4) ∧
    load_chrCustomizationGeoset T s4 = (Ret tt, s5) ∧
    load_chrModelTextureLayer T s5 = (Ret tt, s6) ∧
    load_charComponentTextureSections T s6 = (Ret tt, s).
Proof.
  intros Hgate Hrun. unfold loadTables in Hrun. rewrite Hgate in Hrun.
  apply run_bind_inv in Hrun as ([] & s1 & H1 & Hrun).
  apply run_bind_inv in Hrun as ([] & s2 & H2 & Hrun).
  apply run_bind_inv in Hrun as ([] & s2' & H2' & Hrun).
  injection H2' as <-.
  apply run_bind_inv in Hrun as ([] & s3 & H3 & Hrun).
  apply run_bind_inv in Hrun as ([] & s4 & H4 & Hrun).
  apply run_bind_inv in Hrun as ([] & s5 & H5 & Hrun).
  apply run_bind_inv in Hrun as ([] & s6 & H6 & H7).
  by exists s1, s2, s3, s4, s5, s6.
Qed.

Lemma load_chrModel_row_ok T chrModelID chrModelRow s s' :
  load_chrModel_row T (chrModelID, chrModelRow) s = (Ret tt, s') →
  is_Some (mesh_file_of T chrModelRow) ∧
  fdidToChrModel s' = fdid_step T (fdidToChrModel s) (chrModelID, chrModelRow) ∧
  chrModelIDToTextureLayoutID s'
  = layout_step (chrModelIDToTextureLayoutID s) (chrModelID, chrModelRow) ∧
  optionsByChrModel s'
  = foldl (options_step chrModelID) (optionsByChrModel s)
      (WDCReader.getAllRows (chrCustomizationOption T)).
Proof.
  unfold load_chrModel_row, mesh_file_of, fdid_step, layout_step, mesh_file_of.
  simpl.
  destruct (WDCReader.getRow (creatureDisplayInfo T) _) as [displayRow|];
    [|discriminate].
  destruct (WDCReader.getRow (creatureModelData T) _) as [modelRow|];
    [|discriminate].
  rewrite (run_bind_modify (A:=unit)), (run_bind_modify (A:=unit)).
  set (s2 := set_chrModelIDToTextureLayoutID _ (set_fdidToChrModel _ s)).
  intros Hrun. split; [by eexists|].
  assert (Hframe : fdidToChrModel s' = fdidToChrModel s2 ∧
                   chrModelIDToTextureLayoutID s' = chrModelIDToTextureLayoutID s2).
  { eapply (preserves_run
              (λ x, fdidToChrModel x = fdidToChrModel s2 ∧
                    chrModelIDToTextureLayoutID x = chrModelIDToTextureLayoutID s2)
              _ s2); [|done|exact Hrun].
    apply preserves_forEach. intros [oid orow].
    destruct (negb _); [apply preserves_ret|].
    apply preserves_bind; [by apply preserves_modify|intros _].
    by apply preserves_modify. }
  destruct Hframe as [-> ->]. split; [done|]. split; [done|].
  change (optionsByChrModel s) with (optionsByChrModel s2).
  revert Hrun. apply (forEach_fold optionsByChrModel (options_step chrModelID)).
  intros [oid orow] s0. unfold options_step. simpl.
  by destruct (negb _).
Qed.

Lemma load_chrModel_ok T s s' :
  load_chrModel T s = (Ret tt, s') →
  Forall (λ r, is_Some (mesh_file_of T (snd r))) (WDCReader.getAllRows (chrModel T)) ∧
  fdidToChrModel s'
  = foldl (fdid_step T) (fdidToChrModel s) (WDCReader.getAllRows (chrModel T)) ∧
  chrModelIDToTextureLayoutID s'
  = foldl layout_step (chrModelIDToTextureLayoutID s)
      (WDCReader.getAllRows (chrModel T)) ∧
  optionsByChrModel s'
  = foldl (λ m r, foldl (options_step (fst r)) m
                    (WDCReader.getAllRows (chrCustomizationOption T)))
      (optionsByChrModel s) (WDCReader.getAllRows (chrModel T)).
Proof.
  rewrite load_chrModel_rows. intros Hrun. split; [|split; [|split]].
  - revert Hrun. apply forEach_ok_Forall. intros [id row] s0 s1 H.
    by apply load_chrModel_row_ok in H as [H _].
  - revert Hrun. apply (forEach_fold_ok fdidToChrModel (fdid_step T)).
    intros [id row] s0 s1 H.
    by apply load_chrModel_row_ok in H as (_ & H & _).
  - revert Hrun. apply (forEach_fold_ok chrModelIDToTextureLayoutID layout_step).
    intros [id row] s0 s1 H.
    by apply load_chrModel_row_ok in H as (_ & _ & H & _).
  - revert Hrun.
    apply (forEach_fold_ok optionsByChrModel
             (λ m r, foldl (options_step (fst r)) m
                       (WDCReader.getAllRows (chrCustomizationOption T)))).
    intros [id row] s0 s1 H.
    by apply load_chrModel_row_ok in H as (_ & _ & _ & H).
Qed.

(** The model indices after a run of [loadTables] that started from the
    initial state, passed the gate and returned. *)
Lemma loadTables_model_indices env T s :
  customizationGate env = true →
  loadTables env T initial = (Ret tt, s) →
  Forall (λ r, is_Some (mesh_file_of T (snd r))) (WDCReader.getAllRows (chrModel T)) ∧
  fdidToChrModel s = foldl (fdid_step T) ∅ (WDCReader.getAllRows (chrModel T)) ∧
  chrModelIDToTextureLayoutID s
  = foldl layout_step ∅ (WDCReader.getAllRows (chrModel T)) ∧
  optionsByChrModel s
  = foldl (λ m r, foldl (options_step (fst r)) m
                    (WDCReader.getAllRows (chrCustomizationOption T)))
      ∅ (WDCReader.getAllRows (chrModel T)).
Proof.
  intros Hgate Hrun.
  destruct (loadTables_ok_phases _ _ _ _ Hgate Hrun)
    as (s1 & s2 & s3 & s4 & s5 & s6 & H1 & H2 & H3 & H4 & H5 & H6 & H7).
  set (P := λ (X Y : gmap Z Z) (W : gmap Z (list OptionEntry.t)) (x : Catalog),
              fdidToChrModel x = X ∧ chrModelIDToTextureLayoutID x = Y ∧
              optionsByChrModel x = W).
  assert (P1 : P ∅ ∅ ∅ s1).
  { eapply (preserves_run _ _ initial); [|done|exact H1].
    by apply load_creatureDisplays_preserves. }
  assert (P2 : P ∅ ∅ ∅ s2).
  { eapply (preserves_run _ _ s1); [|exact P1|exact H2].
    by apply load_textureFileData_preserves. }
  destruct P2 as (F2 & L2 & O2).
  destruct (load_chrModel_ok _ _ _ H3) as (Hres & F3 & L3 & O3).
  simpl in F3, L3, O3. rewrite F2 in F3. rewrite L2 in L3. rewrite O2 in O3.
  assert (P4 : P (fdidToChrModel s3) (chrModelIDToTextureLayoutID s3)
                 (optionsByChrModel s3) s4).
  { eapply (preserves_run _ _ s3); [|done|exact H4].
    by apply load_chrCustomizationElement_preserves. }
  assert (P5 : P (fdidToChrModel s3) (chrModelIDToTextureLayoutID s3)
                 (optionsByChrModel s3) s5).
  { eapply (preserves_run _ _ s4); [|exact P4|exact H5].
    by apply load_chrCustomizationGeoset_preserves. }
  assert (P6 : P (fdidToChrModel s3) (chrModelIDToTextureLayoutID s3)
                 (optionsByChrModel s3) s6).
  { eapply (preserves_run _ _ s5); [|exact P5|exact H6].
    by apply load_chrModelTextureLayer_preserves. }
  assert (P7 : P (fdidToChrModel s3) (chrModelIDToTextureLayoutID s3)
                 (optionsByChrModel s3) s).
  { eapply (preserves_run _ _ s6); [|exact P6|exact H7].
    by apply load_charComponentTextureSections_preserves. }
  destruct P7 as (-> & -> & ->). by rewrite F3, L3, O3.
Qed.

Lemma fdid_fold_lookup T rows m fileDataID :
  foldl (fdid_step T) m rows !! fileDataID
  = match last (map fst
                  (List.filter
                     (λ r, bool_decide (mesh_file_of T (snd r) = Some fileDataID))
                     rows)) with
    | Some chrModelID => Some chrModelID
    | None => m !! fileDataID
    end.
Proof.
  revert m. induction rows as [|[id row] rows IH]; intros m; simpl; [done|].
  rewrite IH. unfold fdid_step. simpl.
  case_bool_decide as E; simpl.
  - rewrite E, last_cons. destruct (last _); [done|]. by rewrite lookup_insert_eq.
  - destruct (last _); [done|].
    destruct (mesh_file_of T row) as [f|]; [|done].
    rewrite lookup_insert_ne; [done|congruence].
Qed.

Lemma layout_fold_notin (rows : list (Z * DB_ChrModel.row)) m (chrModelID : Z) :
  chrModelID ∉ map fst rows →
  foldl layout_step m rows !! chrModelID = m !! chrModelID.
Proof.
  revert m. induction rows as [|[id row] rows IH]; intros m Hnotin; simpl; [done|].
  simpl in Hnotin. apply not_elem_of_cons in Hnotin as [Hne Hnotin].
  rewrite IH by done. unfold layout_step. simpl. by rewrite lookup_insert_ne.
Qed.

Lemma getRow_None_notin {Row} (rows : WDCReader.t Row) (k : Z) :
  WDCReader.getRow rows k = None ↔ k ∉ map fst rows.
Proof.
  induction rows as [|[id row] rows IH]; simpl.
  - split; [intros _; apply not_elem_of_nil|done].
  - destruct (Z.eqb_spec id k) as [->|Hne].
    + split; [done|]. intros H. destruct H. left.
    + rewrite IH, not_elem_of_cons. split; [by intros H; split | by intros [_ H]].
Qed.

Lemma layout_fold_lookup (rows : WDCReader.t DB_ChrModel.row) m chrModelID :
  NoDup (map fst rows) →
  foldl layout_step m rows !! chrModelID
  = match WDCReader.getRow rows chrModelID with
    | Some row => Some (DB_ChrModel.CharComponentTextureLayoutID row)
    | None => m !! chrModelID
    end.
Proof.
  revert m. induction rows as [|[id r] rows IH]; intros m Hnodup; simpl in *;
    [done|].
  apply NoDup_cons in Hnodup as [Hnotin Hnodup].
  destruct (Z.eqb_spec id chrModelID) as [->|Hne].
  - rewrite layout_fold_notin by done. unfold layout_step. simpl.
    apply lookup_insert_eq.
  - rewrite IH by done. destruct (WDCReader.getRow rows chrModelID); [done|].
    unfold layout_step. simpl. by rewrite lookup_insert_ne.
Qed.

(** X5.  After [loadTables] has run from the initial state with the gate
    open and has returned, every ChrModel row resolves to a mesh file
    through its display row and that row's model-data row;
    [getChrModelIDByFileDataID] gives a mesh file the id of the last
    ChrModel row that resolves to it, and [isFileDataIDCharacterModel] is
    true exactly for the files some ChrModel row resolves to. *)
Theorem model_of_mesh_file_after_load :
  ∀ (env : Env) (T : Tables) (s : Catalog) (fileDataID : Z),
    customizationGate env = true →
    loadTables env T initial = (Ret tt, s) →
    Forall (λ r, is_Some (mesh_file_of T (snd r)))
      (WDCReader.getAllRows (chrModel T)) ∧
    getChrModelIDByFileDataID fileDataID s
    = (Ret (model_of_mesh_file T fileDataID), s) ∧
    (fst (isFileDataIDCharacterModel fileDataID s) = Ret true
     ↔ ∃ r, r ∈ WDCReader.getAllRows (chrModel T) ∧
            mesh_file_of T (snd r) = Some fileDataID).
Proof.
  intros env T s fileDataID Hgate Hrun.
  destruct (loadTables_model_indices _ _ _ Hgate Hrun) as (Hres & HF & _ & _).
  assert (Hlookup : fdidToChrModel s !! fileDataID = model_of_mesh_file T fileDataID).
  { rewrite HF, fdid_fold_lookup, lookup_empty. unfold model_of_mesh_file.
    by destruct (last _). }
  split; [done|]. split.
  - unfold getChrModelIDByFileDataID. by rewrite run_gets, Hlookup.
  - unfold isFileDataIDCharacterModel. rewrite run_gets, Hlookup. simpl.
    unfold model_of_mesh_file. split.
    + intros [= H]. apply bool_decide_eq_true in H as [m Hm].
      apply last_Some in Hm as [l' Hm].
      assert (Hin : m ∈ map fst
                (List.filter
                   (λ r, bool_decide (mesh_file_of T (snd r) = Some fileDataID))
                   (WDCReader.getAllRows (chrModel T)))).
      { rewrite Hm. apply elem_of_app. right. by apply list_elem_of_singleton. }
      apply list_elem_of_fmap in Hin as (r & _ & Hr).
      apply list_elem_of_In, filter_In in Hr as [Hr Hb].
      apply bool_decide_eq_true in Hb. exists r. by rewrite list_elem_of_In.
    + intros (r & Hr & Hf). f_equal. apply bool_decide_eq_true.
      apply last_is_Some. intros Hnil.
      assert (Hin : In r
                (List.filter
                   (λ r, bool_decide (mesh_file_of T (snd r) = Some fileDataID))
                   (WDCReader.getAllRows (chrModel T)))).
      { apply filter_In. split; [by apply list_elem_of_In|].
        by apply bool_decide_eq_true. }
      apply (in_map fst) in Hin. rewrite Hnil in Hin. destruct Hin.
Qed.

Lemma model_of_mesh_file_after_load_witness :
  getChrModelIDByFileDataID 1001 demo_catalog = (Ret (Some 2), demo_catalog) ∧
  getChrModelIDByFileDataID 555 demo_catalog = (Ret None, demo_catalog).
Proof.
  split.
  - apply (model_of_mesh_file_after_load env_on demo_tables demo_catalog 1001);
      [reflexivity | vm_compute; reflexivity].
  - apply (model_of_mesh_file_after_load env_on demo_tables demo_catalog 555);
      [reflexivity | vm_compute; reflexivity].
Defined.

(** X6.  After [loadTables] has run from the initial state with the gate
    open and has returned, with row ids unique in the ChrModel table,
    [getChrComponentTextureLayoutIDByChrModelID] gives a model id the
    layout of its ChrModel row, and [undefined] for an id that has no
    row. *)
Theorem texture_layout_after_load :
  ∀ (env : Env) (T : Tables) (s : Catalog) (chrModelID : Z),
    customizationGate env = true →
    loadTables env T initial = (Ret tt, s) →
    NoDup (map fst (WDCReader.getAllRows (chrModel T))) →
    getChrComponentTextureLayoutIDByChrModelID (Some chrModelID) s
    = (Ret (DB_ChrModel.CharComponentTextureLayoutID
              <$> WDCReader.getRow (chrModel T) chrModelID), s).
Proof.
  intros env T s chrModelID Hgate Hrun Hnodup.
  destruct (loadTables_model_indices _ _ _ Hgate Hrun) as (_ & _ & HL & _).
  unfold getChrComponentTextureLayoutIDByChrModelID. rewrite run_gets. simpl.
  rewrite HL, layout_fold_lookup by done. unfold WDCReader.getAllRows.
  destruct (WDCReader.getRow (chrModel T) chrModelID); [done|].
  by rewrite lookup_empty.
Qed.

Lemma texture_layout_after_load_witness :
  getChrComponentTextureLayoutIDByChrModelID (Some 4) demo_catalog
  = (Ret (Some 5), demo_catalog) ∧
  getChrComponentTextureLayoutIDByChrModelID (Some 9) demo_catalog
  = (Ret None, demo_catalog).
Proof.
  split.
  - apply (texture_layout_after_load env_on demo_tables demo_catalog 4);
      [reflexivity | vm_compute; reflexivity | compute_done].
  - apply (texture_layout_after_load env_on demo_tables demo_catalog 9);
      [reflexivity | vm_compute; reflexivity | compute_done].
Defined.

Lemma options_fold_lookup chrModelID rows m (k : Z) :
  foldl (options_step chrModelID) m rows !! k
  = if decide (k = chrModelID) then
      match List.filter
              (λ r, DB_ChrCustomizationOption.ChrModelID (snd r) =? chrModelID)
              rows with
      | [] => m !! k
      | l => Some (default [] (m !! k) ++ map option_entry l)
      end
    else m !! k.
Proof.
  revert m. induction rows as [|[id row] rows IH]; intros m; simpl.
  - by destruct (decide _).
  - rewrite IH. unfold options_step. simpl.
    destruct (Z.eqb_spec (DB_ChrCustomizationOption.ChrModelID row) chrModelID)
      as [E|E]; simpl; [|done].
    rewrite E. destruct (decide (k = chrModelID)) as [->|Hne].
    + rewrite map_push_lookup. rewrite decide_True by done. simpl.
      destruct (List.filter _ rows); [done|].
      by rewrite <- app_assoc.
    + rewrite map_push_lookup. by rewrite decide_False by done.
Qed.

Lemma options_outer_fold_lookup (T : Tables) (rows : list (Z * DB_ChrModel.row))
    m (k : Z) :
  NoDup (map fst rows) →
  foldl (λ m r, foldl (options_step (fst r)) m
                  (WDCReader.getAllRows (chrCustomizationOption T))) m rows !! k
  = if bool_decide (k ∈ map fst rows) then
      match option_rows_of T k with
      | [] => m !! k
      | l => Some (default [] (m !! k) ++ map option_entry l)
      end
    else m !! k.
Proof.
  revert m. induction rows as [|[id row] rows IH]; intros m Hnodup; simpl.
  - done.
  - apply NoDup_cons in Hnodup as [Hnotin Hnodup]. rewrite IH by done.
    rewrite options_fold_lookup. fold (option_rows_of T id).
    destruct (decide (k = id)) as [->|Hne].
    + rewrite (bool_decide_eq_false_2 _ Hnotin).
      rewrite bool_decide_eq_true_2 by left. done.
    + destruct (bool_decide (k ∈ map fst rows)) eqn:E.
      * apply bool_decide_eq_true in E.
        rewrite bool_decide_eq_true_2 by (by right). done.
      * apply bool_decide_eq_false in E.
        rewrite bool_decide_eq_false_2; [done|].
        rewrite not_elem_of_cons. done.
Qed.

(** X7.  After [loadTables] has run from the initial state with the gate
    open and has returned, with row ids unique in the ChrModel table,
    [getOptionsByChrModelID] gives a model that has a ChrModel row and at
    least one option row the entries (id, name) of its option rows, in
    table order, and [undefined] for any other id. *)
Theorem getOptionsByChrModelID_lists_rows :
  ∀ (env : Env) (T : Tables) (s : Catalog) (chrModelID : Z),
    customizationGate env = true →
    loadTables env T initial = (Ret tt, s) →
    NoDup (map fst (WDCReader.getAllRows (chrModel T))) →
    getOptionsByChrModelID chrModelID s = (Ret (options_of_model T chrModelID), s).
Proof.
  intros env T s chrModelID Hgate Hrun Hnodup.
  destruct (loadTables_model_indices _ _ _ Hgate Hrun) as (_ & _ & _ & HO).
  unfold getOptionsByChrModelID. rewrite run_gets. do 2 f_equal.
  rewrite HO, options_outer_fold_lookup by done.
  unfold options_of_model. rewrite lookup_empty.
  destruct (bool_decide _); [|done].
  by destruct (option_rows_of T chrModelID).
Qed.

Lemma getOptionsByChrModelID_lists_rows_witness :
  getOptionsByChrModelID 1 demo_catalog
  = (Ret (Some [{| OptionEntry.id := 20; OptionEntry.name := "Skin Color" |};
                {| OptionEntry.id := 21; OptionEntry.name := "Face" |}]),
     demo_catalog) ∧
  getOptionsByChrModelID 2 demo_catalog = (Ret None, demo_catalog).
Proof.
  split.
  - apply (getOptionsByChrModelID_lists_rows env_on demo_tables demo_catalog 1);
      [reflexivity | vm_compute; reflexivity | compute_done].
  - apply (getOptionsByChrModelID_lists_rows env_on demo_tables demo_catalog 2);
      [reflexivity | vm_compute; reflexivity | compute_done].
Defined.

(** ** The material indices after a run that returned *)

Lemma load_chrCustomizationElement_choiceLists T s s' :
  load_chrCustomizationElement T s = (Ret tt, s') →
  choiceToChrCustMaterialID s'
  = foldl choiceList_step (choiceToChrCustMaterialID s)
      (WDCReader.getAllRows (chrCustomizationElement T)).
Proof.
  apply (forEach_fold choiceToChrCustMaterialID choiceList_step).
  intros [id row] s0. unfold choiceList_step. simpl.
  unfold mbind, M_bind.
  destruct (negb (DB_ChrCustomizationElement.ChrCustomizationGeosetID row =? 0));
    simpl;
    (destruct (negb (DB_ChrCustomizationElement.ChrCustomizationMaterialID row =? 0));
     simpl; [|reflexivity]);
    by destruct (WDCReader.getRow _ _).
Qed.

Lemma load_chrCustomizationElement_ok T s s' :
  load_chrCustomizationElement T s = (Ret tt, s') →
  Forall (λ r,
     DB_ChrCustomizationElement.ChrCustomizationMaterialID (snd r) ≠ 0 →
     is_Some (WDCReader.getRow (chrCustomizationMaterial T)
                (DB_ChrCustomizationElement.ChrCustomizationMaterialID (snd r))))
    (WDCReader.getAllRows (chrCustomizationElement T)) ∧
  chrCustMatMap s'
  = foldl (chrCustMat_step T) (chrCustMatMap s)
      (WDCReader.getAllRows (chrCustomizationElement T)).
Proof.
  intros Hrun. split.
  - revert Hrun. apply forEach_ok_Forall. intros [id row] s0 s1. simpl.
    unfold mbind, M_bind.
    destruct (negb (DB_ChrCustomizationElement.ChrCustomizationGeosetID row =? 0));
      simpl;
      (destruct (DB_ChrCustomizationElement.ChrCustomizationMaterialID row =? 0)
         eqn:E; simpl;
       [apply Z.eqb_eq in E; intros _ Hne; by destruct Hne|]);
      (destruct (WDCReader.getRow _ _); [by eexists|discriminate]).
  - revert Hrun. apply (forEach_fold_ok chrCustMatMap (chrCustMat_step T)).
    intros [id row] s0 s1. unfold chrCustMat_step. simpl.
    unfold mbind, M_bind.
    destruct (negb (DB_ChrCustomizationElement.ChrCustomizationGeosetID row =? 0));
      simpl;
      (destruct (negb (DB_ChrCustomizationElement.ChrCustomizationMaterialID row
                       =? 0)); simpl;
       [|by intros [= <-]]);
      (destruct (WDCReader.getRow _ _); [by intros [= <-]|discriminate]).
Qed.

Lemma choiceList_fold_lookup rows m choiceID :
  foldl choiceList_step m rows !! choiceID
  = match List.filter
            (λ row,
               (DB_ChrCustomizationElement.ChrCustomizationChoiceID row =? choiceID)
               && negb (DB_ChrCustomizationElement.ChrCustomizationMaterialID row
                        =? 0))
            (map snd rows) with
    | [] => m !! choiceID
    | l => Some (default [] (m !! choiceID) ++ l)
    end.
Proof.
  revert m. induction rows as [|[id row] rows IH]; intros m; simpl; [done|].
  rewrite IH. unfold choiceList_step. simpl.
  destruct (DB_ChrCustomizationElement.ChrCustomizationMaterialID row =? 0);
    simpl; [by rewrite andb_false_r|].
  rewrite andb_true_r, map_push_lookup.
  destruct (Z.eqb_spec (DB_ChrCustomizationElement.ChrCustomizationChoiceID row)
              choiceID) as [E|E].
  - rewrite decide_True by done. simpl. rewrite E.
    destruct (List.filter _ (map snd rows)); [done|]. by rewrite <- app_assoc.
  - by rewrite decide_False by done.
Qed.

Lemma getRow_elem {Row} (rows : WDCReader.t Row) (k : Z) (row : Row) :
  WDCReader.getRow rows k = Some row → (k, row) ∈ rows.
Proof.
  induction rows as [|[id r] rows IH]; simpl; [done|].
  destruct (Z.eqb_spec id k) as [->|Hne].
  - intros [= ->]. left.
  - intros H. right. by apply IH.
Qed.

Lemma materials_own_id_getRow T k matRow :
  materials_own_id T →
  WDCReader.getRow (chrCustomizationMaterial T) k = Some matRow →
  DB_ChrCustomizationMaterial.ID matRow = k.
Proof.
  intros Hown Hrow. apply getRow_elem in Hrow.
  unfold materials_own_id in Hown. rewrite Forall_forall in Hown.
  by apply (Hown _ Hrow).
Qed.

Lemma chrCustMat_fold_lookup T rows m chrCustMatID :
  materials_own_id T →
  foldl (chrCustMat_step T) m rows !! chrCustMatID
  = if existsb
         (λ row,
            (DB_ChrCustomizationElement.ChrCustomizationMaterialID row
             =? chrCustMatID)
            && negb (DB_ChrCustomizationElement.ChrCustomizationMaterialID row =? 0))
         (map snd rows)
    then match WDCReader.getRow (chrCustomizationMaterial T) chrCustMatID with
         | Some matRow => Some (flatten_material matRow)
         | None => m !! chrCustMatID
         end
    else m !! chrCustMatID.
Proof.
  intros Hown. revert m.
  induction rows as [|[id row] rows IH]; intros m; simpl; [done|].
  rewrite IH. unfold chrCustMat_step. simpl.
  destruct (DB_ChrCustomizationElement.ChrCustomizationMaterialID row =? 0);
    simpl; [by rewrite andb_false_r|].
  rewrite andb_true_r.
  destruct (Z.eqb_spec (DB_ChrCustomizationElement.ChrCustomizationMaterialID row)
              chrCustMatID) as [E|E]; simpl.
  - rewrite E.
    destruct (WDCReader.getRow (chrCustomizationMaterial T) chrCustMatID)
      as [matRow|] eqn:Hrow.
    + destruct (existsb _ _); [done|].
      by rewrite (materials_own_id_getRow _ _ _ Hown Hrow), lookup_insert_eq.
    + by destruct (existsb _ _).
  - destruct (WDCReader.getRow (chrCustomizationMaterial T)
                (DB_ChrCustomizationElement.ChrCustomizationMaterialID row))
      as [matRow|] eqn:Hrow; [|done].
    rewrite (materials_own_id_getRow _ _ _ Hown Hrow), lookup_insert_ne by done.
    done.
Qed.

(** The material indices after a run of [loadTables] that started from
    the initial state, passed the gate and returned. *)
Lemma loadTables_material_indices env T s :
  customizationGate env = true →
  loadTables env T initial = (Ret tt, s) →
  Forall (λ r,
     DB_ChrCustomizationElement.ChrCustomizationMaterialID (snd r) ≠ 0 →
     is_Some (WDCReader.getRow (chrCustomizationMaterial T)
                (DB_ChrCustomizationElement.ChrCustomizationMaterialID (snd r))))
    (WDCReader.getAllRows (chrCustomizationElement T)) ∧
  choiceToChrCustMaterialID s
  = foldl choiceList_step ∅ (WDCReader.getAllRows (chrCustomizationElement T)) ∧
  chrCustMatMap s
  = foldl (chrCustMat_step T) ∅ (WDCReader.getAllRows (chrCustomizationElement T)).
Proof.
  intros Hgate Hrun.
  destruct (loadTables_ok_phases _ _ _ _ Hgate Hrun)
    as (s1 & s2 & s3 & s4 & s5 & s6 & H1 & H2 & H3 & H4 & H5 & H6 & H7).
  set (P := λ (X : gmap Z (list DB_ChrCustomizationElement.row))
              (Y : gmap Z ChrCustMat.t) (x : Catalog),
              choiceToChrCustMaterialID x = X ∧ chrCustMatMap x = Y).
  assert (P1 : P ∅ ∅ s1).
  { eapply (preserves_run _ _ initial); [|done|exact H1].
    by apply load_creatureDisplays_preserves. }
  assert (P2 : P ∅ ∅ s2).
  { eapply (preserves_run _ _ s1); [|exact P1|exact H2].
    by apply load_textureFileData_preserves. }
  assert (P3 : P ∅ ∅ s3).
  { eapply (preserves_run _ _ (set_chrCustomizationAvailable (λ _, true) s2));
      [|exact P2|exact H3].
    by apply load_chrModel_preserves. }
  destruct P3 as (C3 & M3).
  pose proof (load_chrCustomizationElement_choiceLists _ _ _ H4) as C4.
  destruct (load_chrCustomizationElement_ok _ _ _ H4) as (Hres & M4).
  rewrite C3 in C4. rewrite M3 in M4.
  assert (P5 : P (choiceToChrCustMaterialID s4) (chrCustMatMap s4) s5).
  { eapply (preserves_run _ _ s4); [|done|exact H5].
    by apply load_chrCustomizationGeoset_preserves. }
  assert (P6 : P (choiceToChrCustMaterialID s4) (chrCustMatMap s4) s6).
  { eapply (preserves_run _ _ s5); [|exact P5|exact H6].
    by apply load_chrModelTextureLayer_preserves. }
  assert (P7 : P (choiceToChrCustMaterialID s4) (chrCustMatMap s4) s).
  { eapply (preserves_run _ _ s6); [|exact P6|exact H7].
    by apply load_charComponentTextureSections_preserves. }
  destruct P7 as (-> & ->). by rewrite C4, M4.
Qed.

(** X8.  After [loadTables] has run from the initial state with the gate
    open and has returned, the list of material elements a choice has in
    [choiceToChrCustMaterialID] (the candidates of
    [getTextureForFileDataIDAndChoice], the materials of
    [getSkinMaterialsForChoice]) holds the element rows of the choice that
    name a material, in table order; a choice with no such row has no
    list. *)
Theorem material_elements_after_load :
  ∀ (env : Env) (T : Tables) (s : Catalog) (choiceID : Z),
    customizationGate env = true →
    loadTables env T initial = (Ret tt, s) →
    choiceToChrCustMaterialID s !! choiceID
    = match material_elements_of T choiceID with
      | [] => None
      | l => Some l
      end.
Proof.
  intros env T s choiceID Hgate Hrun.
  destruct (loadTables_material_indices _ _ _ Hgate Hrun) as (_ & HC & _).
  rewrite HC, choiceList_fold_lookup, lookup_empty. unfold material_elements_of.
  by destruct (List.filter _ _).
Qed.

Lemma material_elements_after_load_witness :
  choiceToChrCustMaterialID demo_catalog !! 5
  = Some [demo_element 5 7 0 10; demo_element 5 9 0 11] ∧
  choiceToChrCustMaterialID demo_catalog !! 7 = None.
Proof.
  split.
  - apply (material_elements_after_load env_on demo_tables demo_catalog 5);
      [reflexivity | vm_compute; reflexivity].
  - apply (material_elements_after_load env_on demo_tables demo_catalog 7);
      [reflexivity | vm_compute; reflexivity].
Defined.

(** X9.  After [loadTables] has run from the initial state with the gate
    open and has returned, with every material row carrying its own id:
    [getTextureTargetByChrCustomizationMaterialID] returns the texture
    target of the material row for a material that some element row
    names, and [false] for any other id, also one that has a material row
    but is named by no element. *)
Theorem getTextureTarget_after_load :
  ∀ (env : Env) (T : Tables) (s : Catalog) (chrCustMatID : Z),
    customizationGate env = true →
    loadTables env T initial = (Ret tt, s) →
    materials_own_id T →
    getTextureTargetByChrCustomizationMaterialID chrCustMatID s
    = (Ret (if material_referenced T chrCustMatID then
              match WDCReader.getRow (chrCustomizationMaterial T) chrCustMatID with
              | Some matRow =>
                  JS.JVal (DB_ChrCustomizationMaterial.ChrModelTextureTargetID matRow)
              | None => JS.JFalse
              end
            else JS.JFalse), s) ∧
    (material_referenced T chrCustMatID = true →
     is_Some (WDCReader.getRow (chrCustomizationMaterial T) chrCustMatID)).
Proof.
  intros env T s chrCustMatID Hgate Hrun Hown.
  destruct (loadTables_material_indices _ _ _ Hgate Hrun) as (Hres & _ & HM).
  split.
  - unfold getTextureTargetByChrCustomizationMaterialID.
    rewrite run_bind_gets, HM, chrCustMat_fold_lookup, lookup_empty by done.
    unfold material_referenced.
    destruct (existsb _ _); [|done].
    by destruct (WDCReader.getRow (chrCustomizationMaterial T) chrCustMatID).
  - unfold material_referenced. intros Hex.
    apply existsb_exists in Hex as (row & Hin & Hrow).
    apply andb_true_iff in Hrow as [E Hnz]. apply Z.eqb_eq in E.
    apply negb_true_iff, Z.eqb_neq in Hnz.
    apply in_map_iff in Hin as (r & <- & Hin).
    rewrite Forall_forall in Hres. rewrite <- E.
    apply Hres; [by apply list_elem_of_In|done].
Qed.

Lemma getTextureTarget_after_load_witness :
  getTextureTargetByChrCustomizationMaterialID 11 demo_catalog
  = (Ret (JS.JVal 2), demo_catalog) ∧
  getTextureTargetByChrCustomizationMaterialID 12 demo_catalog
  = (Ret JS.JFalse, demo_catalog).
Proof.
  split.
  - apply (getTextureTarget_after_load env_on demo_tables demo_catalog 11);
      [reflexivity | vm_compute; reflexivity | compute_done].
  - apply (getTextureTarget_after_load env_on demo_tables demo_catalog 12);
      [reflexivity | vm_compute; reflexivity | compute_done].
Defined.

(** ** The outcomes of the two resolution queries after a run that returned *)

Lemma material_rows_present env T s choiceID materials :
  customizationGate env = true →
  loadTables env T initial = (Ret tt, s) →
  materials_own_id T →
  choiceToChrCustMaterialID s !! choiceID = Some materials →
  materials ≠ [] ∧
  Forall (λ material,
     is_Some (chrCustMatMap s
                !! DB_ChrCustomizationElement.ChrCustomizationMaterialID material))
    materials.
Proof.
  intros Hgate Hrun Hown Hlist.
  assert (Hel : choiceToChrCustMaterialID s !! choiceID
                = match material_elements_of T choiceID with
                  | [] => None
                  | l => Some l
                  end).
  { destruct (loadTables_material_indices _ _ _ Hgate Hrun) as (_ & HC & _).
    rewrite HC, choiceList_fold_lookup, lookup_empty.
    unfold material_elements_of. by destruct (List.filter _ _). }
  rewrite Hlist in Hel.
  destruct (loadTables_material_indices _ _ _ Hgate Hrun) as (Hres & _ & HM).
  destruct (material_elements_of T choiceID) as [|e l] eqn:El; [done|].
  injection Hel as ->. split; [done|].
  rewrite <- El. unfold material_elements_of.
  apply Forall_forall. intros material Hin.
  apply list_elem_of_In, filter_In in Hin as [Hin Hcond].
  apply andb_true_iff in Hcond as [_ Hnz].
  assert (Hnz' : DB_ChrCustomizationElement.ChrCustomizationMaterialID material ≠ 0)
    by (by apply negb_true_iff, Z.eqb_neq in Hnz).
  rewrite HM, chrCustMat_fold_lookup by done.
  assert (Hex : existsb
    (λ row,
       (DB_ChrCustomizationElement.ChrCustomizationMaterialID row
        =? DB_ChrCustomizationElement.ChrCustomizationMaterialID material)
       && negb (DB_ChrCustomizationElement.ChrCustomizationMaterialID row =? 0))
    (map snd (WDCReader.getAllRows (chrCustomizationElement T))) = true).
  { apply existsb_exists. exists material. split; [done|].
    by rewrite Z.eqb_refl, Hnz. }
  rewrite Hex.
  apply in_map_iff in Hin as (r & <- & Hr).
  rewrite Forall_forall in Hres.
  destruct (Hres r ltac:(by apply list_elem_of_In) Hnz') as [matRow ->].
  by eexists.
Qed.

Lemma truthy_Some o :
  truthy o = true → ∃ n, o = Some n ∧ n ≠ 0.
Proof.
  destruct o as [n|]; simpl; [|done].
  intros H. exists n. split; [done|]. by apply negb_true_iff, Z.eqb_neq in H.
Qed.

Lemma materialLoop_no_layers s textureLayout textureSections material materials
    skinMats :
  is_Some (chrCustMatMap s
             !! DB_ChrCustomizationElement.ChrCustomizationMaterialID material) →
  chrModelTexLayer s !! textureLayout = None →
  skinMats_materialLoop textureLayout textureSections
    (map (λ material,
            chrCustMatMap s
              !! DB_ChrCustomizationElement.ChrCustomizationMaterialID material)
         (material :: materials))
    skinMats s
  = (Throw JS.TypeError, s).
Proof.
  intros [row Hrow] Hlayers. unfold skinMats_materialLoop. simpl.
  rewrite Hrow. erewrite run_bind_throw; [reflexivity|].
  by rewrite run_bind_gets, Hlayers.
Qed.

(** X10.  After [loadTables] has run from the initial state with the gate
    open and has returned, with every material row carrying its own id,
    [getSkinMaterialsForChoice] has exactly these outcomes: [false] for a
    model file with no model, no layout or layout 0; otherwise a
    [TypeError] for a choice with no material list; otherwise [false]
    when no section is registered for the layout; otherwise a [TypeError]
    when no layer is registered for the layout; otherwise the array of
    the writes of the choice's material elements.  The test on an empty
    list and the read of an undefined material row are never reached. *)
Theorem getSkinMaterialsForChoice_outcomes :
  ∀ (env : Env) (T : Tables) (s : Catalog) (modelFileDataID choiceID : Z),
    customizationGate env = true →
    loadTables env T initial = (Ret tt, s) →
    materials_own_id T →
    let textureLayout :=
      fdidToChrModel s !! modelFileDataID
        ≫= λ k, chrModelIDToTextureLayoutID s !! k in
    getSkinMaterialsForChoice modelFileDataID choiceID s
    = (if negb (truthy textureLayout) then Ret JS.JFalse
       else
         match choiceToChrCustMaterialID s !! choiceID with
         | None => Throw JS.TypeError
         | Some materials =>
             match charComponentTextureSectionMap s !! default 0 textureLayout with
             | None => Ret JS.JFalse
             | Some textureSections =>
                 match chrModelTexLayer s !! default 0 textureLayout with
                 | None => Throw JS.TypeError
                 | Some layers =>
                     Ret (JS.JVal
                            (write_all
                               (flat_map (element_writes s layers textureSections)
                                  materials)
                               ∅))
                 end
             end
         end, s).
Proof.
  intros env T s modelFileDataID choiceID Hgate Hrun Hown textureLayout.
  destruct (truthy textureLayout) eqn:Htruthy; simpl.
  2:{ by apply getSkinMaterialsForChoice_no_layout. }
  destruct (truthy_Some _ Htruthy) as (L & HL & Hnz).
  subst textureLayout. rewrite HL. simpl.
  destruct (fdidToChrModel s !! modelFileDataID) as [chrModelID|] eqn:Hm;
    [|done]. simpl in HL.
  destruct (choiceToChrCustMaterialID s !! choiceID) as [materials|] eqn:Hlist.
  2:{ by eapply getSkinMaterialsForChoice_missing_list. }
  destruct (material_rows_present _ _ _ _ _ Hgate Hrun Hown Hlist) as [Hne Hrows].
  destruct (charComponentTextureSectionMap s !! L) as [textureSections|] eqn:Hsecs.
  - destruct (chrModelTexLayer s !! L) as [layers|] eqn:Hlayers.
    + by eapply getSkinMaterialsForChoice_writes.
    + unfold getSkinMaterialsForChoice.
      rewrite run_bind_gets.
      erewrite run_bind_ret by (by eapply run_layout).
      apply Z.eqb_neq in Hnz. simpl. rewrite Hnz. simpl.
      rewrite run_bind_gets, Hlist.
      erewrite run_bind_ret by apply chrCustMatRows_loop.
      simpl. rewrite length_map.
      destruct materials as [|material materials]; [done|].
      simpl (length _ =? 0)%nat. cbv iota.
      rewrite run_bind_gets, Hsecs.
      erewrite run_bind_throw; [reflexivity|].
      apply materialLoop_no_layers; [|done]. by inversion Hrows.
  - unfold getSkinMaterialsForChoice.
    rewrite run_bind_gets.
    erewrite run_bind_ret by (by eapply run_layout).
    apply Z.eqb_neq in Hnz. simpl. rewrite Hnz. simpl.
    rewrite run_bind_gets, Hlist.
    erewrite run_bind_ret by apply chrCustMatRows_loop.
    simpl. rewrite length_map.
    destruct materials as [|material materials]; [done|].
    simpl (length _ =? 0)%nat. cbv iota.
    by rewrite run_bind_gets, Hsecs.
Qed.

Lemma getSkinMaterialsForChoice_outcomes_witness :
  getSkinMaterialsForChoice 1001 5 demo_catalog = (Ret JS.JFalse, demo_catalog) ∧
  getSkinMaterialsForChoice 1000 9 demo_catalog
  = (Throw JS.TypeError, demo_catalog).
Proof.
  split.
  - rewrite (getSkinMaterialsForChoice_outcomes env_on demo_tables demo_catalog
               1001 5);
      [vm_compute; reflexivity | reflexivity | vm_compute; reflexivity
      | compute_done].
  - rewrite (getSkinMaterialsForChoice_outcomes env_on demo_tables demo_catalog
               1000 9);
      [vm_compute; reflexivity | reflexivity | vm_compute; reflexivity
      | compute_done].
Defined.

(** X11.  After [loadTables] has run from the initial state with the gate
    open and has returned, with every material row carrying its own id,
    [getTextureForFileDataIDAndChoice] throws in one case only: the
    choice has a material list, the model file has a model with a
    non-zero layout, and no layer is registered for that layout.  With no
    list, or with no model, no layout or layout 0, it returns [false]. *)
Theorem getTextureForFileDataIDAndChoice_throws_iff :
  ∀ (env : Env) (T : Tables) (s : Catalog) (current : list Z)
    (modelFileDataID choiceID : Z),
    customizationGate env = true →
    loadTables env T initial = (Ret tt, s) →
    materials_own_id T →
    let textureLayout :=
      fdidToChrModel s !! modelFileDataID
        ≫= λ k, chrModelIDToTextureLayoutID s !! k in
    (fst (getTextureForFileDataIDAndChoice current modelFileDataID choiceID s)
     = Throw JS.TypeError
     ↔ is_Some (choiceToChrCustMaterialID s !! choiceID) ∧
       truthy textureLayout = true ∧
       chrModelTexLayer s !! default 0 textureLayout = None) ∧
    (choiceToChrCustMaterialID s !! choiceID = None ∨ truthy textureLayout = false →
     getTextureForFileDataIDAndChoice current modelFileDataID choiceID s
     = (Ret JS.JFalse, s)).
Proof.
  intros env T s current modelFileDataID choiceID Hgate Hrun Hown textureLayout.
  destruct (choiceToChrCustMaterialID s !! choiceID) as [materials|] eqn:Hlist.
  2:{ rewrite getTextureForFileDataIDAndChoice_no_list by done. split.
      - split; [done|]. by intros [[? ?] _].
      - done. }
  destruct (material_rows_present _ _ _ _ _ Hgate Hrun Hown Hlist) as [Hne Hrows].
  destruct materials as [|first rest]; [done|].
  assert (Hfirst : is_Some
    (chrCustMatMap s
       !! DB_ChrCustomizationElement.ChrCustomizationMaterialID first))
    by (by inversion Hrows).
  destruct Hfirst as [r0 Hr0].
  assert (Hchosen : ∃ chrCustMatID chrCustMatRow,
    getTextureForFileDataIDAndChoice current modelFileDataID choiceID s
    = texture_of_chrCustMatID (fdidToChrModel s !! modelFileDataID) chrCustMatID s ∧
    chrCustMatMap s !! chrCustMatID = Some chrCustMatRow).
  { unfold getTextureForFileDataIDAndChoice.
    rewrite run_bind_gets, run_bind_gets, Hlist.
    rewrite select_chrCustMatID_last.
    destruct (last (related_matches current (first :: rest))) as [m|] eqn:Hlast;
      simpl.
    - apply last_Some in Hlast as [l' Hl'].
      assert (Hin : m ∈ related_matches current (first :: rest)).
      { rewrite Hl'. apply elem_of_app. right. by apply list_elem_of_singleton. }
      apply related_matches_elem in Hin as (a & Ha & <-).
      rewrite Forall_forall in Hrows. destruct (Hrows _ Ha) as [row Hrow].
      destruct (_ =? 0) eqn:E.
      + exists (DB_ChrCustomizationElement.ChrCustomizationMaterialID first), r0.
        by erewrite run_bind_ret by reflexivity.
      + exists (DB_ChrCustomizationElement.ChrCustomizationMaterialID a), row.
        by erewrite run_bind_ret by reflexivity.
    - exists (DB_ChrCustomizationElement.ChrCustomizationMaterialID first), r0.
      by erewrite run_bind_ret by reflexivity. }
  destruct Hchosen as (chrCustMatID & chrCustMatRow & -> & Hrow).
  destruct (truthy textureLayout) eqn:Htruthy.
  2:{ rewrite texture_of_chrCustMatID_no_layout by done. split.
      - split; [done|]. by intros (_ & ? & _).
      - done. }
  destruct (truthy_Some _ Htruthy) as (L & HL & Hnz).
  subst textureLayout. rewrite HL. simpl. split.
  - destruct (chrModelTexLayer s !! L) as [layers|] eqn:Hlayers.
    + rewrite (texture_of_chrCustMatID_layers _ _ _ _ _ _ Hrow HL Hnz Hlayers).
      simpl. split.
      * destruct (layers !! _); [|done]. by destruct (matResIDToFileDataID s !! _).
      * by intros (_ & _ & ?).
    + rewrite (texture_of_chrCustMatID_no_layers _ _ _ _ _ Hrow HL Hnz Hlayers).
      simpl. split; [|done]. intros _. split; [by eexists|done].
  - by intros [?|?].
Qed.

Lemma getTextureForFileDataIDAndChoice_throws_iff_witness :
  getTextureForFileDataIDAndChoice [9] 1002 5 demo_catalog
  = (Ret JS.JFalse, demo_catalog).
Proof.
  apply (getTextureForFileDataIDAndChoice_throws_iff env_on demo_tables
           demo_catalog [9] 1002 5);
    [reflexivity | vm_compute; reflexivity | compute_done |].
  right. vm_compute. reflexivity.
Defined.

(** ** When [loadTables] returns and when it throws *)

Lemma forEach_returns_state {A} (l : list A) (body : A → M unit) s :
  (∀ a s, a ∈ l → ∃ s', body a s = (Ret tt, s')) →
  ∃ s', forEach l body s = (Ret tt, s').
Proof. intros H. by apply forEach_returns. Qed.

Lemma load_chrCustomizationGeoset_returns T s :
  ∃ s', load_chrCustomizationGeoset T s = (Ret tt, s').
Proof.
  unfold load_chrCustomizationGeoset. apply forEach_returns.
  intros [id row] s0 _. by eexists.
Qed.

Lemma load_chrModelTextureLayer_returns T s :
  ∃ s', load_chrModelTextureLayer T s = (Ret tt, s').
Proof.
  unfold load_chrModelTextureLayer. apply forEach_returns.
  intros [id row] s0 _. by eexists.
Qed.

Lemma load_charComponentTextureSections_returns T s :
  ∃ s', load_charComponentTextureSections T s = (Ret tt, s').
Proof.
  unfold load_charComponentTextureSections. apply forEach_returns.
  intros [id row] s0 _. by eexists.
Qed.

Lemma load_chrModel_returns T s :
  Forall (λ r, is_Some (mesh_file_of T (snd r)))
    (WDCReader.getAllRows (chrModel T)) →
  ∃ s', load_chrModel T s = (Ret tt, s').
Proof.
  intros Hres. unfold load_chrModel. apply forEach_returns.
  intros [id row] s0 Hin. rewrite Forall_forall in Hres.
  destruct (Hres _ Hin) as [f Hf]. unfold mesh_file_of in Hf. simpl in Hf.
  destruct (WDCReader.getRow (creatureDisplayInfo T) _) as [displayRow|];
    [|discriminate].
  destruct (WDCReader.getRow (creatureModelData T) _) as [modelRow|];
    [|discriminate].
  rewrite (run_bind_modify (A:=unit)), (run_bind_modify (A:=unit)).
  apply forEach_returns. intros [oid orow] s1 _.
  destruct (negb _); by eexists.
Qed.

Lemma load_chrCustomizationElement_returns T s :
  Forall (λ r, element_resolves T (snd r))
    (WDCReader.getAllRows (chrCustomizationElement T)) →
  ∃ s', load_chrCustomizationElement T s = (Ret tt, s').
Proof.
  intros Hres. unfold load_chrCustomizationElement. apply forEach_returns.
  intros [id row] s0 Hin. rewrite Forall_forall in Hres.
  specialize (Hres _ Hin). unfold element_resolves in Hres. simpl in Hres.
  unfold mbind, M_bind.
  destruct (negb (DB_ChrCustomizationElement.ChrCustomizationGeosetID row =? 0));
    simpl;
    (destruct (Z.eqb_spec
                 (DB_ChrCustomizationElement.ChrCustomizationMaterialID row) 0)
       as [E|E]; simpl; [by eexists|]);
    (destruct Hres as [Hres|[matRow ->]]; [done|by eexists]).
Qed.

(** X12.  With the gate open, [loadTables] returns exactly when every
    join it dereferences has its row: each ChrModel row has its display
    row and that row its model-data row, and each element row that names a
    material has its material row.  Otherwise it throws a [TypeError]
    (nothing is skipped silently).  With the gate closed it always
    returns. *)
Theorem loadTables_returns_iff :
  ∀ (env : Env) (T : Tables) (s : Catalog),
    (customizationGate env = true →
     (fst (loadTables env T s) = Ret tt ↔ joins_resolve T) ∧
     (fst (loadTables env T s) = Throw JS.TypeError ↔ ¬ joins_resolve T)) ∧
    (customizationGate env = false → fst (loadTables env T s) = Ret tt).
Proof.
  intros env T s. split.
  2:{ intros Hgate.
      destruct (loadTables_gate_closed env T s Hgate) as (s' & -> & _). done. }
  intros Hgate.
  assert (Hiff : fst (loadTables env T s) = Ret tt ↔ joins_resolve T).
  { split.
    - intros Hret.
      assert (Hrun : loadTables env T s = (Ret tt, snd (loadTables env T s))).
      { destruct (loadTables env T s) as [r s']. simpl in *. by subst. }
      destruct (loadTables_ok_phases _ _ _ _ Hgate Hrun)
        as (s1 & s2 & s3 & s4 & s5 & s6 & H1 & H2 & H3 & H4 & H5 & H6 & H7).
      split.
      + by destruct (load_chrModel_ok _ _ _ H3) as (Hres & _).
      + destruct (load_chrCustomizationElement_ok _ _ _ H4) as (Hres & _).
        eapply Forall_impl; [exact Hres|]. intros r Hr. unfold element_resolves.
        destruct (decide
          (DB_ChrCustomizationElement.ChrCustomizationMaterialID (snd r) = 0));
          [by left|right; by apply Hr].
    - intros [Hmodels Helements].
      destruct (loadTables_run env T s) as (s1 & s2 & _ & _ & ->).
      unfold load_customization. rewrite Hgate.
      rewrite (run_bind_modify (A:=unit)).
      destruct (load_chrModel_returns T
                  (set_chrCustomizationAvailable (λ _, true) s2) Hmodels)
        as [s3 H3].
      destruct (load_chrCustomizationElement_returns T s3 Helements) as [s4 H4].
      destruct (load_chrCustomizationGeoset_returns T s4) as [s5 H5].
      destruct (load_chrModelTextureLayer_returns T s5) as [s6 H6].
      destruct (load_charComponentTextureSections_returns T s6) as [s7 H7].
      erewrite run_bind_ret by exact H3.
      erewrite run_bind_ret by exact H4.
      erewrite run_bind_ret by exact H5.
      erewrite run_bind_ret by exact H6.
      by rewrite H7. }
  split; [done|].
  rewrite <- Hiff.
  destruct (fst (loadTables env T s)) as [[]|[]]; split; done.
Qed.

Lemma loadTables_returns_iff_witness :
  fst (loadTables env_on demo_tables initial) = Ret tt ↔ joins_resolve demo_tables.
Proof.
  apply (loadTables_returns_iff env_on demo_tables initial). reflexivity.
Defined.

(** X13.  With the gate open, [chrCustomizationAvailable] is set before
    any customization table is read: after a run of [loadTables] from the
    initial state that threw, [isCharacterCustomizationAvailable] answers
    [true] although the geoset keys, the layers and the sections were
    never indexed. *)
Theorem failed_load_leaves_flag_set :
  ∀ (env : Env) (T : Tables),
    customizationGate env = true →
    fst (loadTables env T initial) = Throw JS.TypeError →
    let s := snd (loadTables env T initial) in
    isCharacterCustomizationAvailable s = (Ret true, s) ∧
    geosetMap s = ∅ ∧ chrModelTexLayer s = ∅ ∧
    charComponentTextureSectionMap s = ∅.
Proof.
  intros env T Hgate Hthrow.
  destruct (loadTables_run env T initial) as (s1 & s2 & H1 & H2 & Heq).
  rewrite Heq in *. clear Heq.
  set (P := λ x : Catalog, geosetMap x = ∅ ∧ chrModelTexLayer x = ∅ ∧
                           charComponentTextureSectionMap x = ∅).
  assert (P2 : P s2).
  { eapply (preserves_run P _ s1); [| |exact H2].
    - by apply load_textureFileData_preserves.
    - eapply (preserves_run P _ initial); [|done|exact H1].
      by apply load_creatureDisplays_preserves. }
  unfold load_customization in *. rewrite Hgate in *.
  rewrite (run_bind_modify (A:=unit)) in *.
  set (s2' := set_chrCustomizationAvailable (λ _, true) s2) in *.
  assert (P2' : P s2' ∧ chrCustomizationAvailable s2' = true) by done.
  destruct (load_chrModel T s2') as [[[]|e3] s3] eqn:H3.
  2:{ erewrite run_bind_throw by exact H3. simpl.
      assert (P3 : P s3 ∧ chrCustomizationAvailable s3 = true).
      { eapply (preserves_run (λ x, P x ∧ chrCustomizationAvailable x = true)
                  _ s2'); [|exact P2'|exact H3].
        by apply load_chrModel_preserves. }
      destruct P3 as [P3 A3]. unfold isCharacterCustomizationAvailable.
      by rewrite run_gets, A3. }
  assert (P3 : P s3 ∧ chrCustomizationAvailable s3 = true).
  { eapply (preserves_run (λ x, P x ∧ chrCustomizationAvailable x = true)
              _ s2'); [|exact P2'|exact H3].
    by apply load_chrModel_preserves. }
  erewrite run_bind_ret in * by exact H3.
  destruct (load_chrCustomizationElement T s3) as [[[]|e4] s4] eqn:H4.
  2:{ erewrite run_bind_throw by exact H4. simpl.
      assert (P4 : P s4 ∧ chrCustomizationAvailable s4 = true).
      { eapply (preserves_run (λ x, P x ∧ chrCustomizationAvailable x = true)
                  _ s3); [|exact P3|exact H4].
        by apply load_chrCustomizationElement_preserves. }
      destruct P4 as [P4 A4]. unfold isCharacterCustomizationAvailable.
      by rewrite run_gets, A4. }
  exfalso.
  destruct (load_chrCustomizationGeoset_returns T s4) as [s5 H5].
  destruct (load_chrModelTextureLayer_returns T s5) as [s6 H6].
  destruct (load_charComponentTextureSections_returns T s6) as [s7 H7].
  erewrite run_bind_ret in Hthrow by exact H4.
  erewrite run_bind_ret in Hthrow by exact H5.
  erewrite run_bind_ret in Hthrow by exact H6.
  rewrite H7 in Hthrow. discriminate Hthrow.
Qed.

Lemma failed_load_leaves_flag_set_witness :
  isCharacterCustomizationAvailable (snd (loadTables env_on broken_tables initial))
  = (Ret true, snd (loadTables env_on broken_tables initial)).
Proof.
  apply (failed_load_leaves_flag_set env_on broken_tables).
  - reflexivity.
  - vm_compute. reflexivity.
Defined.

(** ** Geoset keys: dangling references and decoding *)

(** X14.  After [loadTables] has run from the initial state with the gate
    open and has returned, for a choice bound to a geoset id that has no
    row in the geoset table, [getGeosetForChoice] returns [undefined],
    not [false]. *)
Theorem getGeosetForChoice_dangling :
  ∀ (env : Env) (T : Tables) (s : Catalog) (choiceID geosetID : Z),
    customizationGate env = true →
    loadTables env T initial = (Ret tt, s) →
    bound_geoset T choiceID = Some geosetID →
    WDCReader.getRow (chrCustomizationGeoset T) geosetID = None →
    getGeosetForChoice choiceID s = (Ret (JS.JVal None), s).
Proof.
  intros env T s choiceID geosetID Hgate Hrun Hbound Hrow.
  destruct (loadTables_geoset_maps env T s Hgate Hrun) as [HG HM].
  unfold getGeosetForChoice.
  rewrite run_bind_gets, HG, choiceToGeoset_fold_lookup.
  unfold bound_geoset in Hbound. rewrite Hbound.
  rewrite run_bind_gets, HM.
  rewrite geosetMap_fold_notin by (by apply getRow_None_notin).
  by rewrite lookup_empty.
Qed.

Lemma getGeosetForChoice_dangling_witness :
  getGeosetForChoice 9 (snd (loadTables env_on dangling_tables initial))
  = (Ret (JS.JVal None), snd (loadTables env_on dangling_tables initial)).
Proof.
  apply (getGeosetForChoice_dangling env_on dangling_tables _ 9 41).
  - reflexivity.
  - vm_compute. reflexivity.
  - vm_compute. reflexivity.
  - vm_compute. reflexivity.
Defined.

Lemma padded_width_two z :
  0 ≤ z < 100 →
  Z.of_nat (String.length (JS.padStart 2 "0" (JS.toString z))) = 2.
Proof.
  intros Hz. destruct (padded_width_bounds z ltac:(lia)) as (K1 & K2 & K3).
  simpl in *.
  set (k := Z.of_nat _) in *. clearbody k.
  destruct K3 as [->|K3]; [done|].
  destruct (decide (k = 2)) as [->|Hne]; [done|].
  assert (H100 : 10 ^ 2 ≤ 10 ^ (k - 1)) by (apply Z.pow_le_mono_r; lia).
  change (10 ^ 2) with 100 in H100. lia.
Qed.

Lemma padded_width_three z :
  100 ≤ z < 1000 →
  Z.of_nat (String.length (JS.padStart 2 "0" (JS.toString z))) = 3.
Proof.
  intros Hz. destruct (padded_width_bounds z ltac:(lia)) as (K1 & K2 & K3).
  simpl in *.
  set (k := Z.of_nat _) in *. clearbody k.
  destruct K3 as [->|K3]; [change (10 ^ 2) with 100 in K2; lia|].
  destruct (decide (k ≤ 2)) as [Hle|Hgt].
  { assert (H : 10 ^ k ≤ 10 ^ 2) by (apply Z.pow_le_mono_r; lia).
    change (10 ^ 2) with 100 in H. lia. }
  destruct (decide (k = 3)) as [->|Hne]; [done|].
  assert (H1000 : 10 ^ 3 ≤ 10 ^ (k - 1)) by (apply Z.pow_le_mono_r; lia).
  change (10 ^ 3) with 1000 in H1000. lia.
Qed.

(** X15.  The geoset key of line 198-200 can be decoded while the variant
    tag has at most two digits: for a group tag [g >= 0] and a variant tag
    [0 <= v < 100], with [100 * g + v] at most 2^53 (any 32-bit group tag),
    the key is a number [k] with [k / 100 = g] and [k mod 100 = v], so
    distinct pairs have distinct keys.  With a three-digit variant tag the
    key is [1000 * g + v] (when that is at most 2^53), and it is in any
    case also the key of group [10 * g + v / 100] and variant
    [v mod 100]. *)
Theorem encodeGeoset_decodes_below_100 :
  ∀ (g v : Z),
    0 ≤ g →
    (0 ≤ v < 100 → 100 * g + v ≤ 2 ^ 53 →
     ∃ k, encodeGeoset g v = JS.Num k ∧ k / 100 = g ∧ k mod 100 = v) ∧
    (100 ≤ v < 1000 →
     (1000 * g + v ≤ 2 ^ 53 → encodeGeoset g v = JS.Num (1000 * g + v)) ∧
     encodeGeoset g v = encodeGeoset (10 * g + v / 100) (v mod 100)).
Proof.
  intros g v Hg. split.
  - intros Hv Hsafe. exists (100 * g + v).
    rewrite encodeGeoset_value by lia. rewrite padded_width_two by done.
    change (10 ^ 2) with 100. rewrite roundDouble_exact by lia.
    split; [f_equal; lia|].
    split.
    + rewrite Z.mul_comm, Z.div_add_l by lia. rewrite Z.div_small by lia. lia.
    + rewrite Z.add_comm, Z.mul_comm, Z.mod_add by lia. by apply Z.mod_small.
  - intros Hv.
    assert (Hq : 1 ≤ v / 100 < 10).
    { split; [apply Z.div_le_lower_bound; lia|apply Z.div_lt_upper_bound; lia]. }
    pose proof (Z.mod_pos_bound v 100 ltac:(lia)) as Hr.
    pose proof (Z.div_mod v 100 ltac:(lia)) as Hdm.
    rewrite !encodeGeoset_value by lia.
    rewrite padded_width_three by done. rewrite padded_width_two by done.
    change (10 ^ 3) with 1000. change (10 ^ 2) with 100.
    split.
    + intros Hsafe. rewrite roundDouble_exact by lia. f_equal. lia.
    + do 2 f_equal. lia.
Qed.

Lemma encodeGeoset_decodes_below_100_witness :
  ∃ k, encodeGeoset 12 3 = JS.Num k ∧ k / 100 = 12 ∧ k mod 100 = 3.
Proof. apply (encodeGeoset_decodes_below_100 12 3); lia. Defined.

Example encodeGeoset_collision : encodeGeoset 1 123 = encodeGeoset 11 23.
Proof. reflexivity. Qed.

(** ** Selections that relate to no candidate *)

Lemma related_matches_app current1 current2 availableChoices :
  related_matches (current1 ++ current2) availableChoices
  = related_matches current1 availableChoices
    ++ related_matches current2 availableChoices.
Proof. unfold related_matches. apply flat_map_app. Qed.

(** X16.  A current selection that is the related choice of no candidate
    of the choice does not change what
    [getTextureForFileDataIDAndChoice] returns, wherever it stands among
    the selections. *)
Theorem unrelated_selection_ignored :
  ∀ (s : Catalog) (current1 current2 : list Z) (entry : Z)
    (modelFileDataID choiceID : Z)
    (availableChoices : list DB_ChrCustomizationElement.row),
    choiceToChrCustMaterialID s !! choiceID = Some availableChoices →
    Forall (λ a, DB_ChrCustomizationElement.RelatedChrCustomizationChoiceID a
                 ≠ entry) availableChoices →
    getTextureForFileDataIDAndChoice (current1 ++ entry :: current2)
      modelFileDataID choiceID s
    = getTextureForFileDataIDAndChoice (current1 ++ current2)
        modelFileDataID choiceID s.
Proof.
  intros s current1 current2 entry modelFileDataID choiceID availableChoices
    Hlist Hnone.
  unfold getTextureForFileDataIDAndChoice.
  rewrite !run_bind_gets, Hlist, !select_chrCustMatID_last.
  rewrite !related_matches_app.
  change (entry :: current2) with ([entry] ++ current2).
  rewrite related_matches_app.
  rewrite (related_matches_none [entry]); [done|].
  eapply Forall_impl; [exact Hnone|]. intros a Ha.
  by apply Forall_singleton.
Qed.

Lemma unrelated_selection_ignored_witness :
  getTextureForFileDataIDAndChoice ([9] ++ 8 :: [7]) 1000 5 demo_catalog
  = getTextureForFileDataIDAndChoice ([9] ++ [7]) 1000 5 demo_catalog.
Proof.
  apply (unrelated_selection_ignored demo_catalog [9] [7] 8 1000 5
           [demo_element 5 7 0 10; demo_element 5 9 0 11]).
  - vm_compute. reflexivity.
  - compute_done.
Defined.

(** ** What the returned array can hold *)

Lemma write_all_lookup_Some ws skinMats (k : Z) entry :
  write_all ws skinMats !! k = Some entry →
  (k, entry) ∈ ws ∨ skinMats !! k = Some entry.
Proof.
  revert skinMats. induction ws as [|[k' e'] ws IH]; intros skinMats H.
  - by right.
  - unfold write_all in *. simpl in H. apply IH in H as [H|H].
    + left. by right.
    + destruct (decide (k' = k)) as [->|Hne].
      * rewrite lookup_insert_eq in H. injection H as ->. left. left.
      * rewrite lookup_insert_ne in H by done. by right.
Qed.

Lemma layer_writes_elem fileDataID textureLayer textureSections (k : Z) entry :
  (k, entry) ∈ layer_writes fileDataID textureLayer textureSections →
  k = DB_ChrModelTextureLayer.Layer textureLayer ∧
  SkinMat.TextureType entry = DB_ChrModelTextureLayer.TextureType textureLayer ∧
  SkinMat.FileDataID entry = fileDataID ∧
  ((DB_ChrModelTextureLayer.TextureSectionTypeBitMask textureLayer = -1 ∧
    SkinMat.position entry = JS.mkVector2 0 0 ∧
    SkinMat.size entry = JS.mkVector2 1024 512) ∨
   (∃ textureSection,
      textureSection ∈ defined_elements textureSections ∧
      section_bit_set
        (DB_ChrModelTextureLayer.TextureSectionTypeBitMask textureLayer)
        textureSection = true ∧
      SkinMat.position entry
      = JS.mkVector2 (DB_CharComponentTextureSections.X textureSection)
                     (DB_CharComponentTextureSections.Y textureSection) ∧
      SkinMat.size entry
      = JS.mkVector2 (DB_CharComponentTextureSections.Width textureSection)
                     (DB_CharComponentTextureSections.Height textureSection))).
Proof.
  unfold layer_writes.
  destruct (DB_ChrModelTextureLayer.TextureSectionTypeBitMask textureLayer =? -1)
    eqn:E.
  - apply Z.eqb_eq in E.
    destruct (defined_elements textureSections); [by intros ?%elem_of_nil|].
    intros H%list_elem_of_singleton. injection H as -> ->.
    repeat split; try done. by left.
  - intros H. apply list_elem_of_fmap in H as (sec & Heq & Hin).
    injection Heq as -> ->.
    apply list_elem_of_In, filter_In in Hin as [Hin Hbit].
    repeat split; try done. right. exists sec.
    by rewrite list_elem_of_In.
Qed.

(** X17.  Whenever [getSkinMaterialsForChoice] returns an array, each of
    its entries stands at the ordinal of a layer registered for the
    model's layout and carries that layer's texture type; its rectangle
    is the default one (origin (0,0), size 1024x512) for a layer with
    bit-mask -1, and otherwise the rectangle of a section of the layout
    whose bit is set in the layer's mask. *)
Theorem skinMats_entries_come_from_layers :
  ∀ (s : Catalog) (modelFileDataID choiceID : Z) (skinMats : gmap Z SkinMat.t)
    (k : Z) (entry : SkinMat.t),
    getSkinMaterialsForChoice modelFileDataID choiceID s
    = (Ret (JS.JVal skinMats), s) →
    skinMats !! k = Some entry →
    ∃ (textureLayout : Z) (layers : gmap Z DB_ChrModelTextureLayer.row)
      (textureSections : SparseArray DB_CharComponentTextureSections.row)
      (textureTarget : Z) (textureLayer : DB_ChrModelTextureLayer.row),
      (fdidToChrModel s !! modelFileDataID
         ≫= λ m, chrModelIDToTextureLayoutID s !! m) = Some textureLayout ∧
      chrModelTexLayer s !! textureLayout = Some layers ∧
      charComponentTextureSectionMap s !! textureLayout = Some textureSections ∧
      layers !! textureTarget = Some textureLayer ∧
      DB_ChrModelTextureLayer.Layer textureLayer = k ∧
      SkinMat.TextureType entry = DB_ChrModelTextureLayer.TextureType textureLayer ∧
      ((DB_ChrModelTextureLayer.TextureSectionTypeBitMask textureLayer = -1 ∧
        SkinMat.position entry = JS.mkVector2 0 0 ∧
        SkinMat.size entry = JS.mkVector2 1024 512) ∨
       (∃ textureSection,
          textureSection ∈ defined_elements textureSections ∧
          section_bit_set
            (DB_ChrModelTextureLayer.TextureSectionTypeBitMask textureLayer)
            textureSection = true ∧
          SkinMat.position entry
          = JS.mkVector2 (DB_CharComponentTextureSections.X textureSection)
                         (DB_CharComponentTextureSections.Y textureSection) ∧
          SkinMat.size entry
          = JS.mkVector2 (DB_CharComponentTextureSections.Width textureSection)
                         (DB_CharComponentTextureSections.Height textureSection))).
Proof.
  intros s modelFileDataID choiceID skinMats k entry Hrun Hentry.
  unfold getSkinMaterialsForChoice in Hrun.
  rewrite run_bind_gets in Hrun.
  unfold getChrComponentTextureLayoutIDByChrModelID in Hrun.
  rewrite run_bind_gets in Hrun.
  destruct (truthy _) eqn:Htruthy; simpl in Hrun; [|discriminate].
  destruct (truthy_Some _ Htruthy) as (L & HL & Hnz).
  rewrite HL in Hrun. simpl in Hrun. rewrite run_bind_gets in Hrun.
  destruct (choiceToChrCustMaterialID s !! choiceID) as [materials|] eqn:Hlist;
    [|discriminate].
  erewrite run_bind_ret in Hrun by apply chrCustMatRows_loop.
  simpl in Hrun. rewrite length_map in Hrun.
  destruct (length materials =? 0)%nat; [discriminate|].
  rewrite run_bind_gets in Hrun.
  destruct (charComponentTextureSectionMap s !! L) as [textureSections|] eqn:Hsecs;
    [|discriminate].
  apply run_bind_inv in Hrun as (m & s1 & Hloop & Hret).
  injection Hret as <- <-. rename s1 into s. rename m into skinMats.
  destruct (chrModelTexLayer s !! L) as [layers|] eqn:Hlayers.
  2:{ destruct materials as [|material materials].
      - unfold skinMats_materialLoop in Hloop. simpl in Hloop.
        injection Hloop as <-. by rewrite lookup_empty in Hentry.
      - unfold skinMats_materialLoop in Hloop. simpl in Hloop.
        destruct (chrCustMatMap s !! _); [|discriminate].
        apply run_bind_inv in Hloop as (? & ? & Hthrow & _).
        rewrite run_bind_gets, Hlayers in Hthrow. discriminate. }
  assert (Hrows : Forall (λ material,
     is_Some (chrCustMatMap s
                !! DB_ChrCustomizationElement.ChrCustomizationMaterialID material))
    materials).
  { clear Hentry Hlist. revert Hloop. generalize (∅ : gmap Z SkinMat.t).
    unfold skinMats_materialLoop.
    induction materials as [|material materials IH]; intros acc Hloop;
      [constructor|].
    simpl in Hloop.
    destruct (chrCustMatMap s !! _) as [row|] eqn:Hrow; [|discriminate].
    apply run_bind_inv in Hloop as (acc' & s2 & _ & Hrest).
    constructor; [by eexists|].
    assert (s2 = s) as ->.
    { pose proof (readonly_skinMats_materialLoop L textureSections
                    (map (λ material, chrCustMatMap s
                            !! DB_ChrCustomizationElement.ChrCustomizationMaterialID
                                 material) materials) acc' s2) as Hro.
      unfold skinMats_materialLoop in Hro. rewrite Hrest in Hro. simpl in Hro.
      done. }
    by eapply IH. }
  rewrite (materialLoop_writes _ _ _ _ _ _ Hlayers Hrows) in Hloop.
  injection Hloop as <-.
  apply write_all_lookup_Some in Hentry as [Hin|Hin];
    [|by rewrite lookup_empty in Hin].
  apply list_elem_of_In, in_flat_map in Hin as (material & _ & Hin).
  apply list_elem_of_In in Hin. unfold element_writes in Hin.
  destruct (chrCustMatMap s !! _) as [row|]; [|by apply elem_of_nil in Hin].
  destruct (layers !! ChrCustMat.ChrModelTextureTargetID row) as [layer|] eqn:Hl;
    [|by apply elem_of_nil in Hin].
  apply layer_writes_elem in Hin as (-> & Htype & _ & Hrect).
  exists L, layers, textureSections, (ChrCustMat.ChrModelTextureTargetID row), layer.
  by repeat split.
Qed.

Lemma skinMats_entries_come_from_layers_witness :
  ∃ (textureLayout : Z) (layers : gmap Z DB_ChrModelTextureLayer.row)
    (textureSections : SparseArray DB_CharComponentTextureSections.row)
    (textureTarget : Z) (textureLayer : DB_ChrModelTextureLayer.row),
    (fdidToChrModel demo_catalog !! 1000
       ≫= λ m, chrModelIDToTextureLayoutID demo_catalog !! m) = Some textureLayout ∧
    chrModelTexLayer demo_catalog !! textureLayout = Some layers ∧
    charComponentTextureSectionMap demo_catalog !! textureLayout
    = Some textureSections ∧
    layers !! textureTarget = Some textureLayer ∧
    DB_ChrModelTextureLayer.Layer textureLayer = 1.
Proof.
  destruct (skinMats_entries_come_from_layers demo_catalog 1000 5
              {[ 0 := {| SkinMat.TextureType := 1;
                         SkinMat.FileDataID := Some 9001;
                         SkinMat.size := JS.mkVector2 1024 512;
                         SkinMat.position := JS.mkVector2 0 0 |};
                 1 := {| SkinMat.TextureType := 2;
                         SkinMat.FileDataID := Some 9002;
                         SkinMat.size := JS.mkVector2 128 64;
                         SkinMat.position := JS.mkVector2 256 0 |} ]}
              1
              {| SkinMat.TextureType := 2;
                 SkinMat.FileDataID := Some 9002;
                 SkinMat.size := JS.mkVector2 128 64;
                 SkinMat.position := JS.mkVector2 256 0 |})
    as (L & layers & secs & target & layer & H1 & H2 & H3 & H4 & H5 & _).
  - vm_compute. reflexivity.
  - vm_compute. reflexivity.
  - by exists L, layers, secs, target, layer.
Defined.

(** ** The creature displays *)

Lemma creatureGeosetMap_fold_lookup rows m (displayID : Z) :
  foldl (λ m geosetRow,
           map_push (DB_CreatureDisplayInfoGeosetData.CreatureDisplayInfoID geosetRow)
             ((DB_CreatureDisplayInfoGeosetData.GeosetIndex geosetRow + 1) * 100
              + DB_CreatureDisplayInfoGeosetData.GeosetValue geosetRow) m)
        m rows !! displayID
  = match List.filter
            (λ geosetRow,
               DB_CreatureDisplayInfoGeosetData.CreatureDisplayInfoID geosetRow
               =? displayID) rows with
    | [] => m !! displayID
    | l => Some (default [] (m !! displayID)
                 ++ map (λ geosetRow,
                      (DB_CreatureDisplayInfoGeosetData.GeosetIndex geosetRow + 1) * 100
                      + DB_CreatureDisplayInfoGeosetData.GeosetValue geosetRow) l)
    end.
Proof.
  revert m. induction rows as [|row rows IH]; intros m; simpl; [done|].
  rewrite IH, map_push_lookup.
  destruct (Z.eqb_spec
              (DB_CreatureDisplayInfoGeosetData.CreatureDisplayInfoID row) displayID)
    as [E|E].
  - rewrite decide_True by done. simpl. rewrite E.
    destruct (List.filter _ rows); [done|]. by rewrite <- app_assoc.
  - by rewrite decide_False by done.
Qed.

(** The geosets a display gets when its model has extra geosets. *)
Lemma creatureGeosetMap_default T displayID :
  default [] (build_creatureGeosetMap T !! displayID) = extra_geosets_of T displayID.
Proof.
  unfold build_creatureGeosetMap, extra_geosets_of.
  rewrite creatureGeosetMap_fold_lookup, lookup_empty.
  by destruct (List.filter _ _).
Qed.

Lemma displayInfoMaps_fold_inv rows :
  ∀ rows0 (acc : gmap Z Display.t * gmap Z (list Z)),
    ((∀ (k : Z) d, acc.1 !! k = Some d →
        Display.ID d = k ∧ Display.extraGeosets d = None ∧
        Forall (λ e, 0 < e) (Display.textures d)) ∧
     (∀ (m : Z) ids (id : Z), acc.2 !! m = Some ids → id ∈ ids →
        ∃ row, (id, row) ∈ rows0 ++ rows ∧ DB_CreatureDisplayInfo.ModelID row = m)) →
    (∀ (k : Z) d,
        (foldl (λ (acc : gmap Z Display.t * gmap Z (list Z)) r,
           let '(displayID, displayRow) := r in
           (<[displayID := {|
                Display.ID := displayID;
                Display.modelID := DB_CreatureDisplayInfo.ModelID displayRow;
                Display.textures :=
                  List.filter (λ e, e >? 0)
                    (DB_CreatureDisplayInfo.TextureVariationFileDataID displayRow);
                Display.extraGeosets := None |}]> (fst acc),
            map_push (DB_CreatureDisplayInfo.ModelID displayRow) displayID (snd acc)))
        acc rows).1 !! k = Some d →
        Display.ID d = k ∧ Display.extraGeosets d = None ∧
        Forall (λ e, 0 < e) (Display.textures d)) ∧
    (∀ (m : Z) ids (id : Z),
        (foldl (λ (acc : gmap Z Display.t * gmap Z (list Z)) r,
           let '(displayID, displayRow) := r in
           (<[displayID := {|
                Display.ID := displayID;
                Display.modelID := DB_CreatureDisplayInfo.ModelID displayRow;
                Display.textures :=
                  List.filter (λ e, e >? 0)
                    (DB_CreatureDisplayInfo.TextureVariationFileDataID displayRow);
                Display.extraGeosets := None |}]> (fst acc),
            map_push (DB_CreatureDisplayInfo.ModelID displayRow) displayID (snd acc)))
        acc rows).2 !! m = Some ids → id ∈ ids →
        ∃ row, (id, row) ∈ rows0 ++ rows ∧ DB_CreatureDisplayInfo.ModelID row = m).
Proof.
  induction rows as [|[displayID displayRow] rows IH]; intros rows0 acc Hacc.
  - simpl. done.
  - simpl. replace (rows0 ++ (displayID, displayRow) :: rows)
      with ((rows0 ++ [(displayID, displayRow)]) ++ rows)
      by (by rewrite <- app_assoc).
    apply IH. destruct Hacc as [Hd Hm]. destruct acc as [dm mm]. simpl in *.
    split.
    + intros k d. destruct (decide (displayID = k)) as [->|Hne].
      * rewrite lookup_insert_eq. intros [= <-]. simpl.
        split; [done|]. split; [done|].
        apply Forall_forall. intros e He.
        apply list_elem_of_In, filter_In in He as [_ He]. lia.
      * rewrite lookup_insert_ne by done. apply Hd.
    + intros m ids id. rewrite map_push_lookup.
      destruct (decide (DB_CreatureDisplayInfo.ModelID displayRow = m)) as [E|E].
      * intros [= <-] Hin. apply elem_of_app in Hin as [Hin|Hin].
        -- destruct (mm !! DB_CreatureDisplayInfo.ModelID displayRow) as [old|] eqn:Eo;
             simpl in Hin; [|by apply elem_of_nil in Hin].
           rewrite E in Eo.
           destruct (Hm _ _ _ Eo Hin) as (row & Hrow & Hmodel).
           exists row. split; [|done].
           rewrite <- app_assoc. simpl. done.
        -- apply list_elem_of_singleton in Hin as ->. exists displayRow.
           split; [|done]. rewrite <- app_assoc. apply elem_of_app. right. left.
      * intros Hl Hin. destruct (Hm _ _ _ Hl Hin) as (row & Hrow & Hmodel).
        exists row. split; [|done]. by rewrite <- app_assoc.
Qed.

Lemma build_displayInfoMaps_inv T :
  (∀ (k : Z) d, fst (build_displayInfoMaps T) !! k = Some d →
     Display.ID d = k ∧ Display.extraGeosets d = None ∧
     Forall (λ e, 0 < e) (Display.textures d)) ∧
  (∀ (m : Z) ids (id : Z), snd (build_displayInfoMaps T) !! m = Some ids →
     id ∈ ids →
     ∃ row, (id, row) ∈ WDCReader.getAllRows (creatureDisplayInfo T) ∧
            DB_CreatureDisplayInfo.ModelID row = m).
Proof.
  unfold build_displayInfoMaps.
  apply (displayInfoMaps_fold_inv _ [] (∅, ∅)). split.
  - intros k d Hk. simpl in Hk. by rewrite lookup_empty in Hk.
  - intros m ids id Hm. simpl in Hm. by rewrite lookup_empty in Hm.
Qed.

Lemma preserves_forEach_elem {A : Type} P (l : list A) (body : A → M unit) :
  (∀ a, a ∈ l → preserves P (body a)) → preserves P (forEach l body).
Proof.
  induction l as [|a l IH]; intros Hbody; simpl.
  - apply preserves_ret.
  - apply preserves_bind; [apply Hbody; left | intros _; apply IH].
    intros b Hb. apply Hbody. by right.
Qed.

Lemma load_creatureDisplays_displays T :
  preserves (λ s, ∀ (fileDataID : Z) l, creatureDisplays s !! fileDataID = Some l →
                   l ≠ [] ∧ Forall (display_of_mesh T fileDataID) l)
    (load_creatureDisplays T).
Proof.
  destruct (build_displayInfoMaps_inv T) as [Hdm Hmm].
  unfold load_creatureDisplays.
  apply preserves_forEach_elem. intros [modelID modelRow] Hmodel.
  destruct (snd (build_displayInfoMaps T) !! modelID) as [displayIDs|] eqn:Eids;
    [|apply preserves_ret].
  apply preserves_forEach_elem. intros displayID Hdisplay.
  destruct (Hmm _ _ _ Eids Hdisplay) as (displayRow & Hrow & HmodelID).
  destruct (fst (build_displayInfoMaps T) !! displayID) as [display|] eqn:Ed;
    [|apply preserves_throw].
  destruct (Hdm _ _ Ed) as (Hid & Hextra & Htex).
  apply preserves_modify. intros s Hs fileDataID l. simpl.
  rewrite map_push_lookup.
  destruct (decide (DB_CreatureModelData.FileDataID modelRow = fileDataID))
    as [E|E]; [|apply Hs].
  intros [= <-]. split.
  { intros Hnil. by apply app_eq_nil in Hnil as [_ ?]. }
  apply Forall_app. split.
  - destruct (creatureDisplays s !! DB_CreatureModelData.FileDataID modelRow)
      as [old|] eqn:Eo; simpl; [|constructor].
    rewrite E in Eo. by apply Hs in Eo as [_ ?].
  - apply Forall_singleton. unfold display_of_mesh.
    destruct (DB_CreatureModelData.CreatureGeosetDataID modelRow >? 0) eqn:Eg;
      simpl; (split; [done|]); exists displayRow, modelRow; rewrite Hid, HmodelID;
      (split; [done|]); (split; [done|]); (split; [done|]); rewrite Eg.
    + by rewrite creatureGeosetMap_default.
    + done.
Qed.

(** X18.  After [loadTables] has run from the initial state, a mesh file
    that [getCreatureDisplaysByFileDataID] knows has a non-empty list of
    displays, and each display in it has a display row whose model has a
    model-data row naming that file, only positive texture ids, and extra
    geosets exactly when that model-data row has [CreatureGeosetDataID > 0]:
    then they are [(GeosetIndex + 1) * 100 + GeosetValue] over the geoset
    rows of the display, in table order (the empty list when it has none). *)
Theorem creature_displays_after_load :
  ∀ (env : Env) (T : Tables) (fileDataID : Z) (displays : list Display.t),
    fst (getCreatureDisplaysByFileDataID fileDataID (snd (loadTables env T initial)))
    = Ret (Some displays) →
    displays ≠ [] ∧ Forall (display_of_mesh T fileDataID) displays.
Proof.
  intros env T fileDataID displays Hget.
  unfold getCreatureDisplaysByFileDataID, gets in Hget. simpl in Hget.
  injection Hget as Hget. revert fileDataID displays Hget.
  apply (preserves_run
           (λ s, ∀ (fileDataID : Z) l, creatureDisplays s !! fileDataID = Some l →
                   l ≠ [] ∧ Forall (display_of_mesh T fileDataID) l)
           (loadTables env T) initial (fst (loadTables env T initial))).
  - apply loadTables_preserves_phases.
    + apply load_creatureDisplays_displays.
    + by apply load_textureFileData_preserves.
    + by apply load_customization_frame.
  - intros f l Hl. simpl in Hl. by rewrite lookup_empty in Hl.
  - by destruct (loadTables env T initial).
Qed.

Lemma creature_displays_after_load_witness :
  [ {| Display.ID := 100; Display.modelID := 50; Display.textures := [777];
       Display.extraGeosets := Some [102] |} ] ≠ [] ∧
  Forall (display_of_mesh demo_tables 1000)
    [ {| Display.ID := 100; Display.modelID := 50; Display.textures := [777];
         Display.extraGeosets := Some [102] |} ].
Proof.
  apply (creature_displays_after_load env_on demo_tables 1000).
  vm_compute. reflexivity.
Defined.

(** ** Loading twice *)

Lemma appends_trans m m1 m2 app1 app2 :
  appends m m1 app1 → appends m1 m2 app2 →
  appends m m2 (λ fileDataID, app1 fileDataID ++ app2 fileDataID).
Proof.
  intros H1 H2 fileDataID. rewrite (H2 fileDataID), (H1 fileDataID).
  destruct (app1 fileDataID) as [|x l1], (app2 fileDataID) as [|y l2]; simpl.
  - done.
  - done.
  - by rewrite app_nil_r.
  - by rewrite <- app_assoc.
Qed.

Lemma pushes_ret : pushes (mret tt) (λ _, []).
Proof. intros s. by exists s. Qed.

Lemma pushes_bind c1 c2 app1 app2 :
  pushes c1 app1 → pushes c2 app2 →
  pushes (c1 ;; c2) (λ fileDataID, app1 fileDataID ++ app2 fileDataID).
Proof.
  intros H1 H2 s.
  destruct (H1 s) as (s1 & R1 & A1). destruct (H2 s1) as (s2 & R2 & A2).
  exists s2. split.
  - by erewrite run_bind_ret by exact R1.
  - by eapply appends_trans.
Qed.

Lemma pushes_forEach {A} (l : list A) (body : A → M unit) :
  (∀ a, a ∈ l → ∃ app, pushes (body a) app) →
  ∃ app, pushes (forEach l body) app.
Proof.
  induction l as [|a l IH]; intros Hbody; simpl.
  - eexists. apply pushes_ret.
  - destruct (Hbody a) as [app1 H1]; [left|].
    destruct IH as [app2 H2]; [intros b Hb; apply Hbody; by right|].
    eexists. by apply pushes_bind.
Qed.

Lemma pushes_push fileDataID display :
  pushes (modify (set_creatureDisplays (map_push fileDataID display)))
    (λ k, if decide (fileDataID = k) then [display] else []).
Proof.
  intros s. eexists. split; [reflexivity|].
  intros k. simpl. rewrite map_push_lookup.
  destruct (decide (fileDataID = k)) as [->|]; done.
Qed.

Lemma load_creatureDisplays_pushes T :
  ∃ app, pushes (load_creatureDisplays T) app.
Proof.
  unfold load_creatureDisplays.
  apply pushes_forEach. intros [modelID modelRow] _.
  destruct (snd (build_displayInfoMaps T) !! modelID) as [displayIDs|] eqn:Eids.
  - apply pushes_forEach. intros displayID Hin.
    destruct (build_displayInfoMaps_lookup T _ _ _ Eids Hin) as [display ->].
    eexists. apply pushes_push.
  - eexists. apply pushes_ret.
Qed.

Lemma loadTables_creatureDisplays env T s :
  creatureDisplays (snd (loadTables env T s))
  = creatureDisplays (snd (load_creatureDisplays T s)).
Proof.
  destruct (loadTables_run env T s) as (s1 & s2 & H1 & H2 & ->).
  rewrite H1. simpl.
  assert (M2 : creatureDisplays s2 = creatureDisplays s1).
  { eapply (preserves_run (λ s', creatureDisplays s' = creatureDisplays s1) _ s1);
      [|reflexivity|exact H2].
    by apply load_textureFileData_preserves. }
  rewrite <- M2.
  by apply (load_customization_frame
              (λ s', creatureDisplays s' = creatureDisplays s2)).
Qed.

(** X19.  [loadTables] never clears [creatureDisplays]: when it runs a
    second time on the same tables, whatever the gate of either run and
    whether the runs returned or threw, every mesh file that had a list of
    displays after the first run has that list twice over after the second,
    and no other file has one. *)
Theorem second_load_doubles_displays :
  ∀ (env env' : Env) (T : Tables) (fileDataID : Z),
    creatureDisplays
      (snd (loadTables env' T (snd (loadTables env T initial)))) !! fileDataID
    = (λ displays, displays ++ displays)
        <$> creatureDisplays (snd (loadTables env T initial)) !! fileDataID.
Proof.
  intros env env' T fileDataID.
  destruct (load_creatureDisplays_pushes T) as [app Happ].
  rewrite (loadTables_creatureDisplays env' T).
  destruct (Happ (snd (loadTables env T initial))) as (s2 & -> & A2).
  simpl. rewrite (A2 fileDataID).
  rewrite (loadTables_creatureDisplays env T).
  destruct (Happ initial) as (s1 & -> & A1).
  simpl. rewrite (A1 fileDataID). simpl. rewrite lookup_empty.
  by destruct (app fileDataID).
Qed.

Example second_load_doubles_demo :
  length <$> creatureDisplays
               (snd (loadTables env_on demo_tables demo_catalog)) !! 1000
  = Some 2%nat.
Proof. vm_compute. reflexivity. Qed.

(** ** The bone child lookup *)

Lemma with_children_app c l1 l2 :
  GLTFWriter.with_children (GLTFWriter.with_children c l1) l2
  = GLTFWriter.with_children c (l1 ++ l2).
Proof.
  unfold GLTFWriter.with_children.
  destruct l1 as [|x l1], l2 as [|y l2]; simpl; try done.
  - by rewrite app_nil_r.
  - by rewrite <- app_assoc.
Qed.

Lemma child_of_stable bones bones' p i :
  (∀ q, GLTFWriter.parentBone <$> bones' !! q
        = GLTFWriter.parentBone <$> bones !! q) →
  GLTFWriter.child_of bones' p i = GLTFWriter.child_of bones p i.
Proof.
  intros H. unfold GLTFWriter.child_of. specialize (H i).
  destruct (bones' !! i), (bones !! i); simpl in H; try done.
  by injection H as ->.
Qed.

Lemma link_bone_spec boneOffset i bones bones' :
  GLTFWriter.link_bone boneOffset i bones = Ret bones' →
  length bones' = length bones ∧
  ∀ p bone, bones !! p = Some bone →
    ∃ bone', bones' !! p = Some bone' ∧
      GLTFWriter.parentBone bone' = GLTFWriter.parentBone bone ∧
      GLTFWriter.children bone'
      = GLTFWriter.with_children (GLTFWriter.children bone)
          (GLTFWriter.child_nodes boneOffset bones p [i]).
Proof.
  unfold GLTFWriter.link_bone, GLTFWriter.child_nodes, GLTFWriter.child_of.
  simpl. destruct (bones !! i) as [bone_i|] eqn:Ei; [|done].
  destruct (GLTFWriter.parentBone bone_i >? -1) eqn:Egt; simpl.
  - destruct (bones !! Z.to_nat (GLTFWriter.parentBone bone_i))
      as [parent|] eqn:Ep; [|done].
    intros [= <-]. split; [by rewrite length_insert|].
    intros p bone Hp.
    destruct (decide (Z.to_nat (GLTFWriter.parentBone bone_i) = p)) as [E|E].
    + subst p. rewrite Hp in Ep. injection Ep as ->.
      rewrite list_lookup_insert_eq by (by eapply lookup_lt_Some).
      eexists. split; [done|]. split; [done|].
      replace (GLTFWriter.parentBone bone_i
               =? Z.of_nat (Z.to_nat (GLTFWriter.parentBone bone_i))) with true
        by (symmetry; apply Z.eqb_eq; lia).
      simpl. by destruct (GLTFWriter.children parent).
    + rewrite list_lookup_insert_ne by done.
      exists bone. split; [done|]. split; [done|].
      replace (GLTFWriter.parentBone bone_i =? Z.of_nat p) with false
        by (symmetry; apply Z.eqb_neq; lia).
      done.
  - intros [= <-]. split; [done|]. intros p bone Hp.
    exists bone. by rewrite Hp.
Qed.

Lemma link_bones_spec boneOffset indices :
  ∀ bones bones',
    GLTFWriter.link_bones boneOffset indices bones = Ret bones' →
    length bones' = length bones ∧
    ∀ p bone, bones !! p = Some bone →
      ∃ bone', bones' !! p = Some bone' ∧
        GLTFWriter.parentBone bone' = GLTFWriter.parentBone bone ∧
        GLTFWriter.children bone'
        = GLTFWriter.with_children (GLTFWriter.children bone)
            (GLTFWriter.child_nodes boneOffset bones p indices).
Proof.
  induction indices as [|i indices IH]; intros bones bones' Hrun; simpl in Hrun.
  - injection Hrun as <-. split; [done|]. intros p bone Hp. by exists bone.
  - destruct (GLTFWriter.link_bone boneOffset i bones) as [bones1|] eqn:E1;
      [|done].
    destruct (link_bone_spec _ _ _ _ E1) as [L1 S1].
    destruct (IH _ _ Hrun) as [L2 S2].
    split; [by rewrite L2|].
    intros p bone Hp.
    destruct (S1 p bone Hp) as (bone1 & Hp1 & P1 & C1).
    destruct (S2 p bone1 Hp1) as (bone2 & Hp2 & P2 & C2).
    exists bone2. split; [done|]. split; [by rewrite P2|].
    rewrite C2, C1, with_children_app. f_equal.
    assert (Hstable : ∀ q, GLTFWriter.parentBone <$> bones1 !! q
                           = GLTFWriter.parentBone <$> bones !! q).
    { intros q. destruct (bones !! q) as [b|] eqn:Eq.
      - destruct (S1 q b Eq) as (b1 & -> & Pb & _). simpl. by rewrite Pb.
      - apply lookup_ge_None in Eq. rewrite <- L1 in Eq.
        apply lookup_ge_None in Eq. by rewrite Eq. }
    unfold GLTFWriter.child_nodes. rewrite <- map_app. f_equal.
    change (i :: indices) with ([i] ++ indices). rewrite List.filter_app.
    f_equal. apply List.filter_ext. intros j. by apply child_of_stable.
Qed.

(** X20.  When the bone child lookup of the glTF writer returns, the array
    keeps its length and every bone keeps its parent; the children of bone
    [p] are what they were, followed by the node indices [boneOffset + i] of
    exactly the bones [i] whose [parentBone] is [p], in increasing order
    of [i]; a bone that no bone names as its parent keeps its [children]
    untouched (absent if it was). *)
Theorem bone_child_lookup_children :
  ∀ (boneOffset : Z) (bones bones' : list GLTFWriter.Bone)
    (p : nat) (bone : GLTFWriter.Bone),
    GLTFWriter.bone_child_lookup boneOffset bones = Ret bones' →
    bones !! p = Some bone →
    length bones' = length bones ∧
    ∃ bone', bones' !! p = Some bone' ∧
      GLTFWriter.parentBone bone' = GLTFWriter.parentBone bone ∧
      GLTFWriter.children bone'
      = GLTFWriter.with_children (GLTFWriter.children bone)
          (GLTFWriter.child_nodes boneOffset bones p (seq 0 (length bones))).
Proof.
  intros boneOffset bones bones' p bone Hrun Hp.
  destruct (link_bones_spec _ _ _ _ Hrun) as [L S]. split; [done|].
  by apply S.
Qed.

Lemma bone_child_lookup_children_witness :
  length [ {| GLTFWriter.parentBone := -1; GLTFWriter.children := Some [2; 3] |};
           {| GLTFWriter.parentBone := 0; GLTFWriter.children := None |};
           {| GLTFWriter.parentBone := 0; GLTFWriter.children := Some [4] |};
           {| GLTFWriter.parentBone := 2; GLTFWriter.children := None |} ]
  = length GLTFWriter.demo_bones ∧
  ∃ bone',
    [ {| GLTFWriter.parentBone := -1; GLTFWriter.children := Some [2; 3] |};
      {| GLTFWriter.parentBone := 0; GLTFWriter.children := None |};
      {| GLTFWriter.parentBone := 0; GLTFWriter.children := Some [4] |};
      {| GLTFWriter.parentBone := 2; GLTFWriter.children := None |} ] !! 0%nat
    = Some bone' ∧
    GLTFWriter.parentBone bone' = -1 ∧
    GLTFWriter.children bone'
    = GLTFWriter.with_children None
        (GLTFWriter.child_nodes 1 GLTFWriter.demo_bones 0
           (seq 0 (length GLTFWriter.demo_bones))).
Proof.
  apply (bone_child_lookup_children 1 GLTFWriter.demo_bones _ 0%nat
           {| GLTFWriter.parentBone := -1; GLTFWriter.children := None |}).
  - vm_compute. reflexivity.
  - reflexivity.
Defined.

Lemma link_bones_returns_iff boneOffset indices :
  ∀ bones,
    Forall (λ i, (i < length bones)%nat) indices →
    (∃ bones', GLTFWriter.link_bones boneOffset indices bones = Ret bones') ↔
    Forall (λ i, ∀ bone, bones !! i = Some bone →
                  GLTFWriter.parentBone bone < Z.of_nat (length bones)) indices.
Proof.
  induction indices as [|i indices IH]; intros bones Hin; simpl.
  - split; [constructor|by eexists].
  - apply Forall_cons in Hin as [Hi Hin].
    destruct (lookup_lt_is_Some_2 bones i Hi) as [bone_i Ei].
    destruct (GLTFWriter.link_bone boneOffset i bones) as [bones1|e] eqn:E1.
    + destruct (link_bone_spec _ _ _ _ E1) as [L1 S1].
      rewrite IH by (by rewrite L1).
      assert (Hhead : GLTFWriter.parentBone bone_i < Z.of_nat (length bones)).
      { unfold GLTFWriter.link_bone in E1. rewrite Ei in E1.
        destruct (GLTFWriter.parentBone bone_i >? -1) eqn:Egt; [|lia].
        destruct (bones !! Z.to_nat (GLTFWriter.parentBone bone_i)) eqn:Ep;
          [|done].
        apply lookup_lt_Some in Ep. lia. }
      rewrite Forall_cons. rewrite L1.
      assert (Hsame : ∀ j,
        (∀ bone, bones1 !! j = Some bone →
                 GLTFWriter.parentBone bone < Z.of_nat (length bones)) ↔
        (∀ bone, bones !! j = Some bone →
                 GLTFWriter.parentBone bone < Z.of_nat (length bones))).
      { intros j. split.
        - intros H bone Hj. destruct (S1 j bone Hj) as (b1 & Hb1 & P1 & _).
          rewrite <- P1. by apply H.
        - intros H b1 Hj. destruct (bones !! j) as [bone|] eqn:Ej.
          + destruct (S1 j bone Ej) as (b1' & Hb1 & P1 & _).
            rewrite Hj in Hb1. injection Hb1 as <-. rewrite P1. by apply H.
          + apply lookup_ge_None in Ej. rewrite <- L1 in Ej.
            apply lookup_ge_None in Ej. by rewrite Ej in Hj. }
      split.
      * intros H. split.
        -- intros bone Hb. rewrite Ei in Hb. by injection Hb as <-.
        -- eapply Forall_impl; [exact H|]. intros j. apply Hsame.
      * intros [_ H]. eapply Forall_impl; [exact H|]. intros j. apply Hsame.
    + split; [by intros [? ?]|]. intros H. apply Forall_cons in H as [H _].
      specialize (H bone_i Ei). exfalso.
      unfold GLTFWriter.link_bone in E1. rewrite Ei in E1.
      destruct (GLTFWriter.parentBone bone_i >? -1) eqn:Egt; [|done].
      destruct (bones !! Z.to_nat (GLTFWriter.parentBone bone_i)) eqn:Ep;
        [done|].
      apply lookup_ge_None in Ep. lia.
Qed.

(** X21.  The bone child lookup returns exactly when every bone's
    [parentBone] is below the number of bones; when some bone names a
    parent the array does not hold it raises a TypeError.  A negative
    [parentBone], whatever its value, never raises. *)
Theorem bone_child_lookup_returns_iff :
  ∀ (boneOffset : Z) (bones : list GLTFWriter.Bone),
    (∃ bones', GLTFWriter.bone_child_lookup boneOffset bones = Ret bones') ↔
    Forall (λ bone, GLTFWriter.parentBone bone < Z.of_nat (length bones)) bones.
Proof.
  intros boneOffset bones. unfold GLTFWriter.bone_child_lookup.
  rewrite link_bones_returns_iff.
  - rewrite !Forall_forall. split.
    + intros H bone Hin. apply list_elem_of_lookup in Hin as [i Hi].
      apply (H i); [|done]. apply elem_of_seq. apply lookup_lt_Some in Hi. lia.
    + intros H i _ bone Hi. apply H. by eapply list_elem_of_lookup_2.
  - apply Forall_forall. intros i Hi. apply elem_of_seq in Hi. lia.
Qed.

Example bone_child_lookup_throws :
  GLTFWriter.bone_child_lookup 1
    [ {| GLTFWriter.parentBone := 1; GLTFWriter.children := None |} ]
  = Throw JS.TypeError.
Proof. reflexivity. Qed.
